(** * dat-dns: name resolution for Dat archives

    A shallow embedding of [index.js] (the resolver created by
    [createDatDNS]) and the properties of its resolution algorithm.

    - [Regex]: the fragment of ECMAScript regular expressions that the
      patterns of [index.js] use, with the backtracking semantics of the
      language standard ([RegExp.prototype.exec], [test], and
      [String.prototype.replace] with a pattern without the [g] flag).
    - [Js]: the JavaScript values that flow through the resolver.
    - [MemoryCache]: the in-memory cache behind [require('./cache')].
    - [DatDns]: the resolver itself, written in a small monad that
      threads the memory cache, records the observable effects of a call
      in order, and propagates thrown errors.

    Strings are sequences of 8-bit code units; every character that the
    patterns of [index.js] name is ASCII. *)

From Stdlib Require Import ZArith Ascii String List Bool Lia Permutation.
From stdpp Require Import base option list gmap strings.

Set Warnings "-register-all".

Open Scope Z_scope.

(* ================================================================== *)
(** ** Regular expressions *)

Module Regex.

(** Abstract syntax of the pattern fragment used by [index.js]. *)
Inductive regex : Type :=
| Bol                                   (* ^ *)
| Eol                                   (* $ *)
| Chr (c : ascii)                       (* a literal character *)
| Cls (negated : bool) (ranges : list (ascii * ascii))
                                        (* [0-9a-f], [^\/], \d *)
| Cat (r1 r2 : regex)                   (* r1 r2 *)
| Rep (min : nat) (max : option nat) (greedy : bool) (r : regex)
                                        (* r{min,max}; r? r+ r*; a
                                           trailing ? clears [greedy] *)
| Grp (r : regex).                      (* ( r ), capture group 1 *)

(** A [RegExp] object: its source text (what [toString] prints), its
    pattern and its [i] flag.  No pattern of [index.js] carries the
    [g] or [y] flag, so [lastIndex] stays 0 and matching is
    stateless. *)
Record RegExp : Type := mkRegExp {
  source : string;
  pattern : regex;
  ignoreCase : bool
}.

(** The state of the matcher: the index reached in the input, the
    input that remains from there, and the text captured by group 1
    ([None] while the group is undefined). *)
Record mstate : Type := mkState {
  endIndex : nat;
  rest : list ascii;
  group1 : option (list ascii)
}.

Definition cont : Type := mstate -> option mstate.

Definition in_range (lo hi c : ascii) : bool :=
  (N_of_ascii lo <=? N_of_ascii c)%N && (N_of_ascii c <=? N_of_ascii hi)%N.

Definition is_lower (c : ascii) : bool := in_range "a" "z" c.
Definition is_upper (c : ascii) : bool := in_range "A" "Z" c.

Definition to_upper (c : ascii) : ascii :=
  if is_lower c then ascii_of_N (N_of_ascii c - 32) else c.
Definition to_lower (c : ascii) : ascii :=
  if is_upper c then ascii_of_N (N_of_ascii c + 32) else c.

(** Canonicalize of the standard: under the [i] flag characters are
    compared after upper-casing. *)
Definition canonicalize (i : bool) (c : ascii) : ascii :=
  if i then to_upper c else c.

(** Membership in a character class.  Under the [i] flag a character
    belongs to the class when some member of the class has the same
    canonical form, that is when the character or one of its two case
    variants lies in a range. *)
Definition in_ranges (i : bool) (ranges : list (ascii * ascii)) (c : ascii) : bool :=
  existsb (fun '(lo, hi) =>
             in_range lo hi c
             || (i && (in_range lo hi (to_upper c) || in_range lo hi (to_lower c))))
          ranges.

Definition advance (x : mstate) (t : list ascii) : mstate :=
  {| endIndex := S (endIndex x); rest := t; group1 := group1 x |}.

Fixpoint has_group (r : regex) : bool :=
  match r with
  | Grp _ => true
  | Cat r1 r2 => has_group r1 || has_group r2
  | Rep _ _ _ r => has_group r
  | _ => false
  end.

Definition dec_max (max : option nat) : option nat := Nat.pred <$> max.

(** RepeatMatcher of the standard.  [body] is the matcher of the
    repeated term, [clear] tells whether the term contains the capture
    group (each iteration then starts with the group undefined).  An
    iteration that matches the empty string once [min] is exhausted is
    rejected.  [fuel] bounds the number of iterations; [min] plus the
    length of the remaining input plus one is always enough. *)
Fixpoint repeat_matcher (body : cont -> cont) (clear : bool) (fuel min : nat)
    (max : option nat) (greedy : bool) (c : cont) (x : mstate) : option mstate :=
  match fuel with
  | O => None
  | S fuel' =>
    match max with
    | Some O => c x
    | _ =>
      let d : cont := fun y =>
        if Nat.eqb min 0 && Nat.eqb (endIndex y) (endIndex x) then None
        else repeat_matcher body clear fuel' (Nat.pred min) (dec_max max) greedy c y in
      let xr := if clear
                then {| endIndex := endIndex x; rest := rest x; group1 := None |}
                else x in
      if negb (Nat.eqb min 0) then body d xr
      else if negb greedy then
        match c x with
        | Some z => Some z
        | None => body d xr
        end
      else
        match body d xr with
        | Some z => Some z
        | None => c x
        end
    end
  end.

(** The matcher of a pattern, in continuation-passing style as in the
    standard: [matcher i r c x] matches [r] at [x] and hands every
    candidate end state to [c], backtracking when [c] fails. *)
Fixpoint matcher (i : bool) (r : regex) (c : cont) (x : mstate) {struct r}
    : option mstate :=
  match r with
  | Bol => if Nat.eqb (endIndex x) 0 then c x else None
  | Eol => match rest x with [] => c x | _ :: _ => None end
  | Chr ch =>
    match rest x with
    | a :: t => if Ascii.eqb (canonicalize i a) (canonicalize i ch)
                then c (advance x t) else None
    | [] => None
    end
  | Cls negated ranges =>
    match rest x with
    | a :: t => if xorb negated (in_ranges i ranges a)
                then c (advance x t) else None
    | [] => None
    end
  | Cat r1 r2 => matcher i r1 (matcher i r2 c) x
  | Rep min max greedy r' =>
    repeat_matcher (matcher i r') (has_group r')
                   (min + length (rest x) + 1) min max greedy c x
  | Grp r' =>
    matcher i r'
      (fun y => c {| endIndex := endIndex y; rest := rest y;
                     group1 := Some (take (endIndex y - endIndex x) (rest x)) |})
      x
  end.

(** The result of a successful [exec]: where the match starts, the
    matched text ([m[0]]), the text of group 1 ([m[1]], [None] when
    undefined) and the input after the match. *)
Record match_result : Type := mkMatch {
  index : nat;
  matched : string;
  capture1 : option string;
  after : list ascii
}.

(** The search loop of [exec]: the first start position, from
    [lastIndex = 0] on, at which the pattern matches. *)
Fixpoint search (i : bool) (r : regex) (pos : nat) (input : list ascii)
    : option match_result :=
  match matcher i r Some {| endIndex := pos; rest := input; group1 := None |} with
  | Some y =>
    Some {| index := pos;
            matched := string_of_list_ascii (take (endIndex y - pos) input);
            capture1 := string_of_list_ascii <$> group1 y;
            after := rest y |}
  | None =>
    match input with
    | [] => None
    | _ :: t => search i r (S pos) t
    end
  end.

(** [re.exec(s)] *)
Definition exec (re : RegExp) (s : string) : option match_result :=
  search (ignoreCase re) (pattern re) 0 (list_ascii_of_string s).

(** [re.test(s)] *)
Definition test (re : RegExp) (s : string) : bool :=
  bool_decide (is_Some (exec re s)).

(** [s.replace(re, replacement)] for a pattern without the [g] flag
    and a replacement without [$]: the first match is replaced. *)
Definition replace (s : string) (re : RegExp) (replacement : string) : string :=
  match exec re s with
  | None => s
  | Some m =>
    string_of_list_ascii (take (index m) (list_ascii_of_string s))
    +:+ replacement +:+ string_of_list_ascii (after m)
  end.

(** Pattern builders for the literals of [index.js]. *)
Fixpoint lit (s : list ascii) (tail : regex) : regex :=
  match s with
  | [] => tail
  | ch :: s' => Cat (Chr ch) (lit s' tail)
  end.

Definition text (s : string) (tail : regex) : regex :=
  lit (list_ascii_of_string s) tail.

Definition hex : regex := Cls false [("0", "9"); ("a", "f")]%char.
Definition digit : regex := Cls false [("0", "9")]%char.
Definition not_slash : regex := Cls true [("/", "/")]%char.
Definition opt (r : regex) : regex := Rep 0 (Some 1%nat) true r.
Definition plus (r : regex) : regex := Rep 1 None true r.
Definition exactly (n : nat) (greedy : bool) (r : regex) : regex :=
  Rep n (Some n) greedy r.

End Regex.

Import Regex.

(* ================================================================== *)
(** ** JavaScript values *)

Module Js.

(** A Number: one whose value is the integer [z] ([-0] is [Integer 0]),
    a finite Number with a fractional part or an infinity, or NaN. *)
Inductive number : Type :=
| Integer (z : Z)
| Fractional
| NaN.

Inductive value : Type :=
| Undefined
| Null
| Bool (b : bool)
| Num (n : number)
| Str (s : string)
| Arr (items : list value)
| Obj (props : list (string * value)).

(** Thrown errors.  The text of a [TypeError] raised by the engine
    itself depends on the engine's version. *)
Inductive JsError : Type :=
| Error (message : string)
| TypeError (message : string).

(** The outcome of evaluating code that may throw. *)
Inductive completion (A : Type) : Type :=
| Normal (a : A)
| Throw (e : JsError).
Arguments Normal {A} a.
Arguments Throw {A} e.

(** ToBoolean *)
Definition truthy (v : value) : bool :=
  match v with
  | Undefined | Null => false
  | Bool b => b
  | Num (Integer z) => negb (z =? 0)
  | Num Fractional => true
  | Num NaN => false
  | Str s => negb (String.eqb s "")
  | Arr _ | Obj _ => true
  end.

(** [o[name]] for a property name that is neither an array index nor
    a property of [Array.prototype], [String.prototype] and the like
    (the resolver reads ['Answer'], ['data'] and ['TTL']); reading a
    property of [null] or [undefined] throws. *)
Fixpoint assoc (name : string) (props : list (string * value)) : value :=
  match props with
  | [] => Undefined
  | (k, v) :: props' => if String.eqb k name then v else assoc name props'
  end.

Definition get (o : value) (name : string) : completion value :=
  match o with
  | Undefined => Throw (TypeError ("Cannot read properties of undefined (reading '" +:+ name +:+ "')"))
  | Null => Throw (TypeError ("Cannot read properties of null (reading '" +:+ name +:+ "')"))
  | Obj props => Normal (assoc name props)
  | _ => Normal Undefined
  end.

(** [a < b] on the values the resolver compares, the [key] fields of
    two answers: both strings, compared by code units; a comparison
    with [undefined] is false. *)
Definition lt (a b : value) : bool :=
  match a, b with
  | Str s1, Str s2 => String.ltb s1 s2
  | _, _ => false
  end.

(** [typeof v === 'undefined'] *)
Definition is_undefined (v : value) : bool :=
  match v with
  | Undefined => true
  | _ => false
  end.

(** [Number.isSafeInteger] *)
Definition isSafeInteger (v : value) : bool :=
  match v with
  | Num (Integer z) => (- (2 ^ 53 - 1) <=? z) && (z <=? 2 ^ 53 - 1)
  | _ => false
  end.

(** [Array.prototype.sort] with a comparison function: a stable sort
    (ECMAScript 2019), here by insertion.  [a] goes before the first
    [b] with [cmp a b <= 0]. *)
Fixpoint sort_insert {A : Type} (cmp : A -> A -> Z) (a : A) (l : list A) : list A :=
  match l with
  | [] => [a]
  | b :: l' => if cmp a b <=? 0 then a :: b :: l' else b :: sort_insert cmp a l'
  end.

Fixpoint sort {A : Type} (cmp : A -> A -> Z) (l : list A) : list A :=
  match l with
  | [] => []
  | a :: l' => sort_insert cmp a (sort cmp l')
  end.

(** [s.includes(c)], [s.endsWith(c)] for a one-character [c],
    [s.slice(0, n)] and [s.split(c)]. *)
Definition includes (s : string) (c : ascii) : bool :=
  existsb (Ascii.eqb c) (list_ascii_of_string s).

Definition endsWith (s : string) (c : ascii) : bool :=
  match last (list_ascii_of_string s) with
  | Some a => Ascii.eqb a c
  | None => false
  end.

Definition slice0 (s : string) (n : nat) : string :=
  string_of_list_ascii (take n (list_ascii_of_string s)).

Fixpoint split_chars (c : ascii) (cur : list ascii) (s : list ascii) : list string :=
  match s with
  | [] => [string_of_list_ascii (rev cur)]
  | a :: s' =>
    if Ascii.eqb a c then string_of_list_ascii (rev cur) :: split_chars c [] s'
    else split_chars c (a :: cur) s'
  end.

Definition split (s : string) (c : ascii) : list string :=
  split_chars c [] (list_ascii_of_string s).

(** Unary [+] on a string of decimal digits. *)
Definition digit_value (c : ascii) : Z := Z.of_N (N_of_ascii c) - 48.

Definition to_number (digits : string) : Z :=
  fold_left (fun acc c => 10 * acc + digit_value c) (list_ascii_of_string digits) 0.

End Js.

Import Js.

(* ================================================================== *)
(** ** The in-memory cache *)

Module MemoryCache.

(** Modelled from the spec: the module behind [require('./cache')] is
    not among the sources; this is its entry, [CacheEntry] of the spec:
    a value (a key, or [false] for a recorded miss) and the time at
    which it expires. *)
Record entry : Type := mkEntry {
  value : Js.value;
  expiresAt : Z
}.

(** Modelled from the spec: the state of the missing cache module, the
    entries by name, together with the [ttl] option that [createDatDNS]
    passes to [init]. *)
Record t : Type := mkCache {
  default_ttl : Z;
  entries : gmap string entry
}.

(** Modelled from the spec: [init] of the missing cache module; the
    cache starts empty. *)
Definition init (ttl : Z) : t := {| default_ttl := ttl; entries := ∅ |}.

(** Modelled from the spec: [get] of the missing cache module.  An
    entry that has expired behaves as unknown, [undefined]; reading
    changes nothing. *)
Definition get (c : t) (now : Z) (name : string) : Js.value :=
  match entries c !! name with
  | Some e => if now <? expiresAt e then value e else Undefined
  | None => Undefined
  end.

(** Modelled from the spec: [set] of the missing cache module.  With a
    ttl of 0 nothing is stored and an existing entry is left alone;
    otherwise the entry replaces any earlier one and expires [ttl]
    seconds from now.  The spec does not say what a call without a ttl
    does; the ttl given to [init] is taken. *)
Definition set (c : t) (now : Z) (name : string) (v : Js.value) (ttl : option Z) : t :=
  let ttl' := default (default_ttl c) ttl in
  if ttl' =? 0 then c
  else {| default_ttl := default_ttl c;
          entries := <[name := {| value := v; expiresAt := now + ttl' |}]> (entries c) |}.

(** Modelled from the spec: [flush] of the missing cache module. *)
Definition flush (c : t) : t := {| default_ttl := default_ttl c; entries := ∅ |}.

(** Modelled from the spec: [list] of the missing cache module, the
    entries as a mapping from names to values. *)
Definition list (c : t) : gmap string Js.value := value <$> entries c.

End MemoryCache.

(* ================================================================== *)
(** ** The resolver *)

Module DatDns.

Definition quote : ascii := ascii_of_N 34.
Definition newline : ascii := ascii_of_N 10.

(** In [/^[0-9a-f]{64}?$/i] the [?] follows a quantifier, [{64}], and
    makes it lazy (in the grammar of the standard a quantifier is a
    quantifier prefix, optionally followed by [?]); the class is still
    repeated exactly 64 times. *)
Definition DAT_HASH_REGEX : RegExp :=
  {| source := "/^[0-9a-f]{64}?$/i";
     pattern := Cat Bol (Cat (exactly 64 false hex) Eol);
     ignoreCase := true |}.

Definition DAT_PROTOCOL_REGEX : RegExp :=
  {| source := "/^dat:\/\/([0-9a-f]{64})/i";
     pattern := Cat Bol (text "dat://" (Grp (exactly 64 true hex)));
     ignoreCase := true |}.

Definition DAT_RECORD_NAME : string := "dat".

Definition DAT_TXT_REGEX : RegExp :=
  {| source := String "/" (String quote ("?datkey=([0-9a-f]{64})" +:+ String quote "?/i"));
     pattern := Cat (opt (Chr quote))
                    (text "datkey=" (Cat (Grp (exactly 64 true hex)) (opt (Chr quote))));
     ignoreCase := true |}.

Definition VERSION_REGEX : RegExp :=
  {| source := "/(\+[^\/]+)$/";
     pattern := Cat (Grp (Cat (Chr "+") (plus not_slash))) Eol;
     ignoreCase := false |}.

(** The pattern of the TTL line, [/^ttl=(\d+)$/i]. *)
Definition TTL_LINE_REGEX : RegExp :=
  {| source := "/^ttl=(\d+)$/i";
     pattern := Cat Bol (text "ttl=" (Cat (Grp (plus digit)) Eol));
     ignoreCase := true |}.

Definition DEFAULT_DAT_DNS_TTL : Z := 3600.
Definition MAX_DAT_DNS_TTL : Z := 3600 * 24 * 7.

Definition DEFAULT_DNS_PROVIDERS : list (string * Z * string) :=
  [("cloudflare-dns.com", 443, "/dns-query"); ("dns.google", 443, "/resolve")]%string.

(** *** Collaborators *)

(** What [url.parse] yields, as far as the resolver reads it. *)
Record UrlObject : Type := mkUrl {
  hostname : option string;
  pathname : option string
}.

(** The built-ins of the platform that the resolver calls:
    [url.parse] and [JSON.parse] ([None] when it throws).  [url.parse]
    is taken to return: a call with a string on which it throws ends
    with that error at the first statement of [resolveName], and is
    not among the runs described here. *)
Record Platform : Type := mkPlatform {
  url_parse : string -> UrlObject;
  JSON_parse : string -> option Js.value
}.

(** A request as handed to [https.get]. *)
Record Request : Type := mkRequest {
  host : string;
  port : option Z;
  path : string;
  query : list (string * string);
  accept : option string;
  timeout : Z
}.

(** What the callbacks of [https.get] hand to [resolve]: the status
    code and the body of the response, or status 0, the error and an
    empty body when the request fails.  A stream that delivers no data
    is the empty body. *)
Record Reply : Type := mkReply {
  statusCode : Z;
  err : option string;
  body : string
}.

(** The surroundings of one call: the clock (seconds), read once, and
    the responses of the network.  Every request is answered: a
    request that fails is answered by status 0. *)
Record World : Type := mkWorld {
  now : Z;
  https_get : Request -> Reply
}.

(** The persistent cache handed to [createDatDNS].  [read] returns a
    key or throws (a promise it returns is adopted by the call and
    counts as its outcome); [write] is fire-and-forget: the resolver
    does not look at what it returns, the call to it is recorded as an
    effect. *)
Record PersistentCache : Type := mkPersistentCache {
  read : string -> JsError -> completion Js.value
}.

(** The variables that [createDatDNS] closes over. *)
Record Config : Type := mkConfig {
  hashRegex : RegExp;
  dnsTxtRegex : RegExp;
  protocolRegex : RegExp;
  recordName : string;
  pCache : option PersistentCache;
  dnsHost : string;
  dnsPort : Z;
  dnsPath : string
}.

(** The options of one [resolveName] call, by truthiness; a call
    without [opts] has all four false. *)
Record Options : Type := mkOptions {
  ignoreCache : bool;
  ignoreCachedMiss : bool;
  noDnsOverHttps : bool;
  noWellknownDat : bool
}.

Definition no_options : Options :=
  {| ignoreCache := false; ignoreCachedMiss := false;
     noDnsOverHttps := false; noWellknownDat := false |}.

(** *** Effects *)

(** The [err] field of a ['failed'] event. *)
Inductive failure_text : Type :=
| Text (s : string)
| HttpCode (status : Z) (err : option string)
    (* 'HTTP code ' + res.statusCode + ' ' + res.err; [None] when the
       second part is left out *)
| NotConform (re : string)
    (* 'Record did not conform to ' + protocolRegex *)
| TtlLine (e : JsError).
    (* 'Failed to parse TTL line, error: ' + e.toString() *)

Inductive event : Type :=
| Resolved (method name : string) (key : Js.value)
| Failed (method name : string) (err : failure_text)
| CacheFlushed.

(** What a call does to the outside, in the order it happens. *)
Inductive effect : Type :=
| DohGet (req : Request)             (* https.get in fetchDnsOverHttpsRecord *)
| WellKnownGet (req : Request)       (* https.get in fetchWellKnownRecord *)
| Emit (ev : event)                  (* datDns.emit *)
| CacheGet (name : string)           (* mCache.get *)
| CacheSet (name : string) (v : Js.value) (ttl : option Z)   (* mCache.set *)
| PersistWrite (name : string) (key : Js.value) (ttl : option Z)  (* pCache.write *)
| PersistRead (name : string) (e : JsError).                 (* pCache.read *)

(** *** The monad of the resolver

    A computation takes the memory cache and yields its completion,
    the memory cache it leaves and the effects it had. *)
Definition M (A : Type) : Type :=
  MemoryCache.t -> completion A * MemoryCache.t * list effect.

Definition ret {A : Type} (a : A) : M A := fun c => (Normal a, c, []).

Definition throw {A : Type} (e : JsError) : M A := fun c => (Throw e, c, []).

Definition bind {A B : Type} (m : M A) (f : A -> M B) : M B :=
  fun c =>
    match m c with
    | (Normal a, c1, t1) =>
      match f a c1 with
      | (r, c2, t2) => (r, c2, t1 ++ t2)
      end
    | (Throw e, c1, t1) => (Throw e, c1, t1)
    end.

(** [try { m } catch (e) { handler e }] *)
Definition try_catch {A : Type} (m : M A) (handler : JsError -> M A) : M A :=
  fun c =>
    match m c with
    | (Normal a, c1, t1) => (Normal a, c1, t1)
    | (Throw e, c1, t1) =>
      match handler e c1 with
      | (r, c2, t2) => (r, c2, t1 ++ t2)
      end
    end.

Definition tell (e : effect) : M unit := fun c => (Normal tt, c, [e]).

(** [datDns.emit]: the event is recorded; listeners do not throw. *)
Definition emit (ev : event) : M unit := tell (Emit ev).

Definition lift {A : Type} (r : completion A) : M A := fun c => (r, c, []).

Definition when (b : bool) (m : M unit) : M unit := if b then m else ret tt.

Notation "'do' x <- m ; k" := (bind m (fun x => k))
  (at level 10, x name, m at level 100, k at level 200).

Definition mCache_get (w : World) (name : string) : M Js.value :=
  fun c => (Normal (MemoryCache.get c (now w) name), c, [CacheGet name]).

Definition mCache_set (w : World) (name : string) (v : Js.value) (ttl : option Z) : M unit :=
  fun c => (Normal tt, MemoryCache.set c (now w) name v ttl, [CacheSet name v ttl]).

(** The three projections of a finished computation. *)
Definition outcome {A : Type} (r : completion A * MemoryCache.t * list effect) : completion A :=
  r.1.1.
Definition cache_after {A : Type} (r : completion A * MemoryCache.t * list effect) : MemoryCache.t :=
  r.1.2.
Definition effects {A : Type} (r : completion A * MemoryCache.t * list effect) : list effect :=
  r.2.

(** *** fetchDnsOverHttpsRecord

    The executor of the promise runs to its end: after [reject] the
    statements that follow are still executed, so the request is
    issued for a name without a dot as well (without the trailing dot,
    since the [else if] is not reached).  The promise keeps the first
    settlement, the rejection. *)
Definition doh_request (cfg_host : string) (cfg_port : Z) (cfg_path : string)
    (name : string) : Request :=
  {| host := cfg_host;
     port := Some cfg_port;
     path := cfg_path;
     query := [("name", name); ("type", "TXT")]%string;
     accept := Some "application/dns-json"%string;
     timeout := 2000 |}.

Definition fetchDnsOverHttpsRecord (w : World) (name : string)
    (cfg_host : string) (cfg_port : Z) (cfg_path : string) : M Reply :=
  let fqdn := includes name "." in
  do _ <- when (negb fqdn)
            (emit (Failed "dns-over-https" name (Text "Name is not a FQDN")));
  let name' := if fqdn && negb (endsWith name ".") then name +:+ "." else name in
  let req := doh_request cfg_host cfg_port cfg_path name' in
  do _ <- tell (DohGet req);
  if fqdn then ret (https_get w req)
  else throw (Error "Domain is not a FQDN.").

(** *** parseDnsOverHttpsRecord *)

(** The result of a probe, [{ key, ttl }].  [key] is [match[1]]. *)
Record ProbeResult : Type := mkResult {
  key : Js.value;
  ttl : Z
}.

Definition capture_value (m : match_result) : Js.value :=
  match capture1 m with
  | Some s => Str s
  | None => Undefined
  end.

(** The callback of [answers.filter]: [Some] of the answer with its
    new [key] property when the answer is kept.  An answer passes the
    first test when it is truthy and of type ['object'], that is an
    object or an array. *)
Definition candidate (dnsTxtRegex : RegExp) (a : Js.value) : option (Js.value * Js.value) :=
  match a with
  | Obj props =>
    match assoc "data" props with
    | Str data =>
      match exec dnsTxtRegex data with
      | Some m => Some (a, capture_value m)
      | None => None
      end
    | _ => None
    end
  | _ => None
  end.

Definition candidates (dnsTxtRegex : RegExp) (answers : list Js.value)
    : list (Js.value * Js.value) :=
  omap (candidate dnsTxtRegex) answers.

(** [(a, b) => a.key < b.key ? 1 : a.key > b.key ? -1 : 0] *)
Definition by_key_descending (a b : Js.value * Js.value) : Z :=
  if Js.lt a.2 b.2 then 1 else if Js.lt b.2 a.2 then -1 else 0.

(** The two statements that both parsers end with,
    [if (!Number.isSafeInteger(ttl) || ttl < 0) ttl = DEFAULT_DAT_DNS_TTL]
    and [if (ttl > MAX_DAT_DNS_TTL) ttl = MAX_DAT_DNS_TTL]: a ttl that
    is not a safe integer or is negative becomes the default, and then
    a ttl above the maximum becomes the maximum. *)
Definition limit_ttl (raw : Js.value) : Z :=
  let ttl :=
    match raw with
    | Num (Integer z) => if negb (isSafeInteger raw) || (z <? 0) then DEFAULT_DAT_DNS_TTL else z
    | _ => DEFAULT_DAT_DNS_TTL
    end in
  if ttl >? MAX_DAT_DNS_TTL then MAX_DAT_DNS_TTL else ttl.

(** [answers[0].TTL] of an answer that passed the filter. *)
Definition answer_ttl (a : Js.value) : Js.value :=
  match a with
  | Obj props => assoc "TTL" props
  | _ => Undefined
  end.

Definition parseDnsOverHttpsRecord (p : Platform) (name body : string)
    (dnsTxtRegex : RegExp) : M ProbeResult :=
  match JSON_parse p body with
  | None =>
    do _ <- emit (Failed "dns-over-https" name (Text "Failed to parse JSON response"));
    throw (Error "Invalid dns-over-https record, must provide json")
  | Some record =>
    do answers <- lift (Js.get record "Answer");
    match answers with
    | Arr items =>
      match Js.sort by_key_descending (candidates dnsTxtRegex items) with
      | [] =>
        do _ <- emit (Failed "dns-over-https" name (Text "Did not give any TXT answers"));
        throw (Error "Invalid dns-over-https record, no TXT answer given")
      | (a, k) :: _ =>
        ret {| key := k; ttl := limit_ttl (answer_ttl a) |}
      end
    | _ =>
      do _ <- emit (Failed "dns-over-https" name (Text "Did not give any TXT answers"));
      throw (Error "Invalid dns-over-https record, no answers given")
    end
  end.

(** *** fetchWellKnownRecord *)

Definition wellknown_request (name recordName : string) : Request :=
  {| host := name;
     port := None;
     path := "/.well-known/" +:+ recordName;
     query := [];
     accept := None;
     timeout := 2000 |}.

Definition fetchWellKnownRecord (w : World) (name recordName : string) : M Reply :=
  let req := wellknown_request name recordName in
  do _ <- tell (WellKnownGet req);
  ret (https_get w req).

(** *** parseWellknownDatRecord *)

(** The ttl line: [undefined] when there is no second line or it is
    empty, the number when it conforms; otherwise the [TypeError] of
    reading [[1]] of [null], which the source catches and reports. *)
Definition parse_ttl_line (lines : list string) : completion Js.value :=
  match lines !! 1%nat with
  | Some line =>
    if String.eqb line "" then Normal Undefined
    else
      match exec TTL_LINE_REGEX line with
      | Some m =>
        match capture1 m with
        | Some digits => Normal (Num (Integer (to_number digits)))
        | None => Normal (Num NaN)
        end
      | None => Throw (TypeError "Cannot read properties of null (reading '1')")
      end
  | None => Normal Undefined
  end.

Definition parseWellknownDatRecord (name body : string) (protocolRegex : RegExp)
    (recordName : string) : M ProbeResult :=
  if String.eqb body "" then
    do _ <- emit (Failed "well-known" name (Text "Empty response"));
    throw (Error "DNS record not found")
  else
    let lines := Js.split body newline in
    match exec protocolRegex (default ""%string (head lines)) with
    | None =>
      do _ <- emit (Failed "well-known" name (NotConform (source protocolRegex)));
      throw (Error ("Invalid .well-known/" +:+ recordName
                    +:+ " record, must conform to" +:+ source protocolRegex))
    | Some m =>
      let key := capture_value m in
      do raw <- try_catch (lift (parse_ttl_line lines))
                  (fun e =>
                     do _ <- emit (Failed "well-known" name (TtlLine e));
                     ret Undefined);
      ret {| key := key; ttl := limit_ttl raw |}
    end.

(** *** createDatDNS *)

(** The options of [createDatDNS]; an absent option is [None].  That
    the three patterns are [RegExp] objects is in their type. *)
Record DatDnsOpts : Type := mkOpts {
  opt_hashRegex : option RegExp;
  opt_txtRegex : option RegExp;
  opt_protocolRegex : option RegExp;
  opt_recordName : option string;
  opt_persistentCache : option PersistentCache;
  opt_dnsHost : option string;
  opt_dnsPort : option Z;
  opt_dnsPath : option string
}.

Definition no_opts : DatDnsOpts :=
  {| opt_hashRegex := None; opt_txtRegex := None; opt_protocolRegex := None;
     opt_recordName := None; opt_persistentCache := None;
     opt_dnsHost := None; opt_dnsPort := None; opt_dnsPath := None |}.

(** [s || d] for an optional string: the empty string is falsy. *)
Definition string_or (s : option string) (d : option string) : option string :=
  match s with
  | Some x => if String.eqb x "" then d else Some x
  | None => d
  end.

(** [createDatDNS(datDnsOpts)]: the closed-over variables and the
    fresh memory cache.  [pick] is
    [Math.floor(Math.random() * DEFAULT_DNS_PROVIDERS.length)]. *)
Definition createDatDNS (o : DatDnsOpts) (pick : nat) : Config * MemoryCache.t :=
  let provider :=
    match string_or (opt_dnsHost o) None, string_or (opt_dnsPath o) None with
    | Some h, Some p =>
      (h, match opt_dnsPort o with Some 0 | None => 443 | Some n => n end, p)
    | _, _ => default ("cloudflare-dns.com"%string, 443, "/dns-query"%string)
                      (DEFAULT_DNS_PROVIDERS !! pick)
    end in
  ({| hashRegex := default DAT_HASH_REGEX (opt_hashRegex o);
      dnsTxtRegex := default DAT_TXT_REGEX (opt_txtRegex o);
      protocolRegex := default DAT_PROTOCOL_REGEX (opt_protocolRegex o);
      recordName := default DAT_RECORD_NAME (string_or (opt_recordName o) None);
      pCache := opt_persistentCache o;
      dnsHost := provider.1.1;
      dnsPort := provider.1.2;
      dnsPath := provider.2 |},
   MemoryCache.init 60).

(** *** resolveName *)

(** The name after [url.parse] and the removal of the version:
    [nameParsed.hostname || nameParsed.pathname], then
    [name.replace(VERSION_REGEX, '')].  When both parts are missing
    [name] is [null] and [replace] throws, before the [try]. *)
Definition normalize (p : Platform) (name : string) : completion string :=
  let nameParsed := url_parse p name in
  match string_or (hostname nameParsed) (pathname nameParsed) with
  | Some name' => Normal (replace name' VERSION_REGEX "")
  | None => Throw (TypeError "Cannot read properties of null (reading 'replace')")
  end.

(** The variable [res] of [resolveName] between the probes:
    [undefined] while no probe has run, [false] after a failed
    DNS-over-HTTPS lookup, the result of a probe otherwise. *)
Inductive res_var : Type :=
| ResUndefined
| ResFalse
| ResObject (r : ProbeResult).

Definition res_truthy (res : res_var) : bool :=
  match res with
  | ResObject _ => true
  | _ => false
  end.

Section Call.

Variable p : Platform.
Variable cfg : Config.
Variable w : World.
Variable name : string.        (* the name after [normalize] *)
Variable opts : Options.

(** The body of the inner [try]: the DNS-over-HTTPS lookup. *)
Definition dnsOverHttps_lookup : M ProbeResult :=
  do res <- fetchDnsOverHttpsRecord w name (dnsHost cfg) (dnsPort cfg) (dnsPath cfg);
  do res <- parseDnsOverHttpsRecord p name (body res) (dnsTxtRegex cfg);
  do _ <- emit (Resolved "dns-over-https" name (key res));
  ret res.

(** The body of [if (!res && !noWellknownDat)]: the .well-known
    lookup. *)
Definition wellKnown_lookup : M ProbeResult :=
  do res <- fetchWellKnownRecord w name (recordName cfg);
  if (statusCode res =? 0) || (statusCode res =? 404) then
    do _ <- emit (Failed "well-known" name (HttpCode (statusCode res) (Some (default "undefined"%string (err res)))));
    do _ <- mCache_set w name (Bool false) (Some 60);
    throw (Error "DNS record not found")
  else if negb (statusCode res =? 200) then
    do _ <- emit (Failed "well-known" name (HttpCode (statusCode res) None));
    throw (Error "DNS record not found")
  else
    do res <- parseWellknownDatRecord name (body res) (protocolRegex cfg) (recordName cfg);
    do _ <- emit (Resolved "well-known" name (key res));
    ret res.

(** The statements after the comment [// cache].  Of [undefined],
    [res.ttl] throws; of [false], [res.ttl] and [res.key] are
    [undefined]. *)
Definition store (k : Js.value) (t : option Z) : M Js.value :=
  do _ <- when (negb (bool_decide (t = Some 0))) (mCache_set w name k t);
  do _ <- when (bool_decide (is_Some (pCache cfg))) (tell (PersistWrite name k t));
  ret k.

Definition cache_result (res : res_var) : M Js.value :=
  match res with
  | ResUndefined => throw (TypeError "Cannot read properties of undefined (reading 'ttl')")
  | ResFalse => store Undefined None
  | ResObject r => store (key r) (Some (ttl r))
  end.

(** From [var res] to the comment [// cache]: the two probes, each
    under its [if]. *)
Definition run_probes : M res_var :=
  do res <- (if negb (noDnsOverHttps opts)
             then try_catch (do r <- dnsOverHttps_lookup; ret (ResObject r))
                            (fun _ => ret ResFalse)
             else ret ResUndefined);
  if negb (res_truthy res) && negb (noWellknownDat opts)
  then do r <- wellKnown_lookup; ret (ResObject r)
  else ret res.

(** From [var res] to [return res.key]. *)
Definition probes : M Js.value :=
  do res <- run_probes;
  cache_result res.

(** The body of the outer [try]. *)
Definition lookup : M Js.value :=
  if negb (ignoreCache opts) then
    do cachedKey <- mCache_get w name;
    if negb (is_undefined cachedKey)
       && (truthy cachedKey || (negb (truthy cachedKey) && negb (ignoreCachedMiss opts)))
    then
      if truthy cachedKey then ret cachedKey
      else throw (Error "DNS record not found")
    else probes
  else probes.

(** The [catch] of the outer [try]. *)
Definition on_failure (err : JsError) : M Js.value :=
  match pCache cfg with
  | Some pc =>
    do _ <- tell (PersistRead name err);
    lift (read pc name err)
  | None => throw err
  end.

End Call.

Definition resolveName (p : Platform) (cfg : Config) (w : World)
    (name : string) (opts : Options) : M Js.value :=
  do name' <- lift (normalize p name);
  if test (hashRegex cfg) name' then ret (Str (slice0 name' 64))
  else try_catch (lookup p cfg w name' opts) (on_failure cfg name').

Definition listCache (c : MemoryCache.t) : gmap string Js.value :=
  MemoryCache.list c.

Definition flushCache : M unit :=
  fun c => (Normal tt, MemoryCache.flush c, [Emit CacheFlushed]).

End DatDns.

Import DatDns.

(* ================================================================== *)
(** ** Reading a run *)

Definition is_DohGet (e : effect) : bool :=
  match e with DohGet _ => true | _ => false end.

Definition is_WellKnownGet (e : effect) : bool :=
  match e with WellKnownGet _ => true | _ => false end.

Definition is_CacheGet (e : effect) : bool :=
  match e with CacheGet _ => true | _ => false end.

Definition is_CacheSet (e : effect) : bool :=
  match e with CacheSet _ _ _ => true | _ => false end.

Definition is_PersistRead (e : effect) : bool :=
  match e with PersistRead _ _ => true | _ => false end.

Definition is_Emit (e : effect) : bool :=
  match e with Emit _ => true | _ => false end.

(** A network access is one of the two [https.get] calls. *)
Definition is_network (e : effect) : bool := is_DohGet e || is_WellKnownGet e.

(** The characters that [[0-9a-f]] matches under the [i] flag. *)
Definition is_hex_digit (c : ascii) : bool :=
  in_range "0" "9" c || in_range "a" "f" c || in_range "A" "F" c.

(** The effects of a run other than its events. *)
Definition actions (t : list effect) : list effect :=
  List.filter (fun e => negb (is_Emit e)) t.

(** In [t], every effect that satisfies [Q] comes after one that
    satisfies [P]. *)
Definition preceded (P Q : effect -> bool) (t : list effect) : Prop :=
  forall pre e post, t = pre ++ e :: post -> Q e = true -> existsb P pre = true.

Fixpoint preceded_from (P Q : effect -> bool) (seen : bool) (t : list effect) : bool :=
  match t with
  | [] => true
  | e :: t' => (negb (Q e) || seen) && preceded_from P Q (seen || P e) t'
  end.

(** The name that the DNS-over-HTTPS request carries, and the two
    requests of a lookup of [n]. *)
Definition queried_name (n : string) : string :=
  if includes n "." && negb (endsWith n ".") then n +:+ "." else n.

Definition doh_req (cfg : Config) (n : string) : Request :=
  doh_request (dnsHost cfg) (dnsPort cfg) (dnsPath cfg) (queried_name n).

Definition wk_req (cfg : Config) (n : string) : Request :=
  wellknown_request n (recordName cfg).

(** The value that the ttl line of a well-known record stands for:
    [undefined] when the line is missing, empty or malformed. *)
Definition ttl_line_value (body : string) : Js.value :=
  match parse_ttl_line (Js.split body newline) with
  | Normal v => v
  | Throw _ => Undefined
  end.

(** The ttl policy in the words of the spec: a raw ttl that is not a
    safe integer or is negative gives the default, 3600; one above the
    maximum gives the maximum, 604800; any other is kept. *)
Definition ttl_as_specified (raw : Js.value) (t : Z) : Prop :=
  (isSafeInteger raw = false \/ (exists z, raw = Num (Integer z) /\ z < 0) -> t = 3600) /\
  (forall z, raw = Num (Integer z) -> isSafeInteger raw = true -> 0 <= z ->
             604800 < z -> t = 604800) /\
  (forall z, raw = Num (Integer z) -> isSafeInteger raw = true -> 0 <= z ->
             z <= 604800 -> t = z).


(** Whether the lookup of [name] gets past the memory cache to the
    probes: the cache is ignored, or it has no live entry, or the entry
    is a miss and misses are ignored. *)
Definition reaches_probes (w : World) (opts : Options) (c : MemoryCache.t) (name : string) : bool :=
  ignoreCache opts
  || is_undefined (MemoryCache.get c (now w) name)
  || (negb (truthy (MemoryCache.get c (now w) name)) && ignoreCachedMiss opts).

(** What a call that fails with [e] hands back: the answer of the
    persistent cache when there is one, [e] itself otherwise. *)
Definition failure_outcome (cfg : Config) (name : string) (e : JsError) : completion Js.value :=
  match pCache cfg with
  | Some pc => read pc name e
  | None => Throw e
  end.

(** The keys of the candidates that are strings. *)
Definition candidate_keys (re : RegExp) (answers : list Js.value) : list string :=
  omap (fun ak : Js.value * Js.value => match ak.2 with Str k => Some k | _ => None end)
       (candidates re answers).

(** A continuation that keeps a defined group defined. *)
Definition keeps_group (c : cont) : Prop :=
  forall x y, c x = Some y -> is_Some (group1 x) -> is_Some (group1 y).

(** Every key is a string. *)
Definition keys_are_strings (l : list (Js.value * Js.value)) : Prop :=
  forall a kv, In (a, kv) l -> exists k, kv = Str k.

(** A pattern whose every match defines capture group 1: the group is
    on the path of every match and nothing after it clears it. *)
Fixpoint always_captures (r : regex) : bool :=
  match r with
  | Grp _ => true
  | Cat r1 r2 => (always_captures r1 && negb (has_group r2)) || always_captures r2
  | _ => false
  end.

(* ================================================================== *)
(** ** Reading a run: events, writes and keys *)

(** ['resolved'] events, ['failed'] events and calls of [pCache.write]. *)
Definition is_Resolved (e : effect) : bool :=
  match e with Emit (Resolved _ _ _) => true | _ => false end.

Definition is_Failed (e : effect) : bool :=
  match e with Emit (Failed _ _ _) => true | _ => false end.

Definition is_PersistWrite (e : effect) : bool :=
  match e with PersistWrite _ _ _ => true | _ => false end.

(** The text of a key: 64 hexadecimal digits of either case. *)
Definition is_key_text (k : string) : bool :=
  Nat.eqb (String.length k) 64 && forallb is_hex_digit (list_ascii_of_string k).

(** A value that is such a text. *)
Definition is_key (v : Js.value) : bool :=
  match v with
  | Str k => is_key_text k
  | _ => false
  end.

(** *** The ways through a call

    For a name that is not a key, [resolveName] takes one of seven
    ways; each fixes the outcome of the call, the memory cache it
    leaves, its requests and cache operations in order, and its
    ['resolved'] events. *)
Inductive route : Type :=
| CacheHit (v : Js.value)            (* [if (cachedKey) return cachedKey] *)
| CachedMiss                         (* [else throw new Error(...)], the cached miss *)
| NoProbe                            (* both probes switched off: [res] stays [undefined] *)
| ByDnsOverHttps (r : ProbeResult)   (* the first probe answered *)
| ByWellKnown (r : ProbeResult)      (* the second probe answered *)
| DohFailedAlone                     (* the first probe failed, the second is switched off *)
| WellKnownFailed (e : JsError) (miss : bool).
                                     (* the second probe failed; [miss]: with status 0 or 404 *)

Section Routes.

Variable p : Platform.
Variable cfg : Config.
Variable w : World.
Variable opts : Options.
Variable c : MemoryCache.t.
Variable n : string.

(** When a way is taken. *)
Definition route_taken (rt : route) : Prop :=
  match rt with
  | CacheHit v =>
    ignoreCache opts = false /\ v = MemoryCache.get c (now w) n /\ truthy v = true
  | CachedMiss =>
    ignoreCache opts = false /\ ignoreCachedMiss opts = false /\
    is_undefined (MemoryCache.get c (now w) n) = false /\
    truthy (MemoryCache.get c (now w) n) = false
  | NoProbe =>
    reaches_probes w opts c n = true /\
    noDnsOverHttps opts = true /\ noWellknownDat opts = true
  | ByDnsOverHttps r =>
    reaches_probes w opts c n = true /\ noDnsOverHttps opts = false /\
    outcome (dnsOverHttps_lookup p cfg w n c) = Normal r
  | ByWellKnown r =>
    reaches_probes w opts c n = true /\ noWellknownDat opts = false /\
    (noDnsOverHttps opts = false ->
     exists e, outcome (dnsOverHttps_lookup p cfg w n c) = Throw e) /\
    outcome (wellKnown_lookup cfg w n c) = Normal r
  | DohFailedAlone =>
    reaches_probes w opts c n = true /\
    noDnsOverHttps opts = false /\ noWellknownDat opts = true /\
    exists e, outcome (dnsOverHttps_lookup p cfg w n c) = Throw e
  | WellKnownFailed e miss =>
    reaches_probes w opts c n = true /\ noWellknownDat opts = false /\
    (noDnsOverHttps opts = false ->
     exists e', outcome (dnsOverHttps_lookup p cfg w n c) = Throw e') /\
    outcome (wellKnown_lookup cfg w n c) = Throw e /\
    miss = (statusCode (https_get w (wk_req cfg n)) =? 0)
           || (statusCode (https_get w (wk_req cfg n)) =? 404)
  end.

(** The read of the memory cache, unless the cache is ignored. *)
Definition cache_read : list effect :=
  if ignoreCache opts then [] else [CacheGet n].

(** The DNS-over-HTTPS request, unless that probe is switched off. *)
Definition doh_sent : list effect :=
  if noDnsOverHttps opts then [] else [DohGet (doh_req cfg n)].

(** The two statements after the comment [// cache]. *)
Definition stored (k : Js.value) (t : option Z) : list effect :=
  (if bool_decide (t = Some 0) then [] else [CacheSet n k t])
  ++ (if bool_decide (is_Some (pCache cfg)) then [PersistWrite n k t] else []).

(** The read of the persistent cache in the [catch], when there is
    one. *)
Definition fallen_back (e : JsError) : list effect :=
  if bool_decide (is_Some (pCache cfg)) then [PersistRead n e] else [].

(** What [res.ttl] throws while [res] is [undefined]. *)
Definition res_undefined_error : JsError :=
  TypeError "Cannot read properties of undefined (reading 'ttl')".

(** The requests and the cache operations of a way, in order. *)
Definition route_actions (rt : route) : list effect :=
  match rt with
  | CacheHit _ => [CacheGet n]
  | CachedMiss => [CacheGet n] ++ fallen_back (Error "DNS record not found")
  | NoProbe => cache_read ++ fallen_back res_undefined_error
  | ByDnsOverHttps r =>
    cache_read ++ [DohGet (doh_req cfg n)] ++ stored (key r) (Some (ttl r))
  | ByWellKnown r =>
    cache_read ++ doh_sent ++ [WellKnownGet (wk_req cfg n)] ++ stored (key r) (Some (ttl r))
  | DohFailedAlone =>
    cache_read ++ [DohGet (doh_req cfg n)] ++ stored Undefined None
  | WellKnownFailed e miss =>
    cache_read ++ doh_sent ++ [WellKnownGet (wk_req cfg n)]
    ++ (if miss then [CacheSet n (Bool false) (Some 60)] else [])
    ++ fallen_back e
  end.

(** What the call returns or throws on a way. *)
Definition route_outcome (rt : route) : completion Js.value :=
  match rt with
  | CacheHit v => Normal v
  | CachedMiss => failure_outcome cfg n (Error "DNS record not found")
  | NoProbe => failure_outcome cfg n res_undefined_error
  | ByDnsOverHttps r | ByWellKnown r => Normal (key r)
  | DohFailedAlone => Normal Undefined
  | WellKnownFailed e _ => failure_outcome cfg n e
  end.

(** The memory cache that a way leaves. *)
Definition route_cache (rt : route) : MemoryCache.t :=
  match rt with
  | CacheHit _ | CachedMiss | NoProbe => c
  | ByDnsOverHttps r | ByWellKnown r =>
    if ttl r =? 0 then c else MemoryCache.set c (now w) n (key r) (Some (ttl r))
  | DohFailedAlone => MemoryCache.set c (now w) n Undefined None
  | WellKnownFailed _ miss =>
    if miss then MemoryCache.set c (now w) n (Bool false) (Some 60) else c
  end.

(** The ['resolved'] events of a way. *)
Definition route_resolved (rt : route) : list effect :=
  match rt with
  | ByDnsOverHttps r => [Emit (Resolved "dns-over-https" n (key r))]
  | ByWellKnown r => [Emit (Resolved "well-known" n (key r))]
  | _ => []
  end.

End Routes.

(** *** Reading a match *)

(** A continuation that hands on whatever holds of the group. *)
Definition keeps (Q : option (list ascii) -> Prop) (c : cont) : Prop :=
  forall x y, c x = Some y -> Q (group1 x) -> Q (group1 y).

(** The term inside the capture group of a pattern with
    [always_captures]. *)
Fixpoint captured_term (r : regex) : option regex :=
  match r with
  | Grp r' => Some r'
  | Cat r1 r2 =>
    if always_captures r1 && negb (has_group r2) then captured_term r1
    else captured_term r2
  | _ => None
  end.

(** The group holds [n] characters of a class. *)
Definition holds_class (i : bool) (n : nat) (ng : bool) (rs : list (ascii * ascii))
    (g : option (list ascii)) : Prop :=
  exists l, g = Some l /\ length l = n /\
            forallb (fun a => xorb ng (in_ranges i rs a)) l = true.

(** A decimal digit. *)
Definition is_decimal_digit (c : ascii) : bool := in_range "0" "9" c.

(* ================================================================== *)
(** ** Sample settings

    Concrete collaborators on which the resolver can be run. *)

Module Sample.

(** [url.parse] on a string that consists of letters, digits, [+], [-],
    [.] and [_] only: there is no protocol and no host, and the path
    is the string itself ([null] for the empty string). *)
Definition bare_url (s : string) : UrlObject :=
  {| hostname := None; pathname := if String.eqb s "" then None else Some s |}.

(** The decimal digits of a number, and the decimal text of an
    integer. *)
Fixpoint digits (fuel : nat) (n : N) (acc : string) : string :=
  match fuel with
  | O => acc
  | S fuel' =>
    let acc' := String (ascii_of_N (48 + n mod 10)) acc in
    if (n / 10 =? 0)%N then acc' else digits fuel' (n / 10)%N acc'
  end.

Definition decimal (z : Z) : string :=
  (if z <? 0 then "-" else "") +:+ digits 20 (Z.abs_N z) "".

(** A string as it stands between the quotation marks of a JSON text:
    with a backslash before every quotation mark and every backslash.
    The strings used here hold no control characters. *)
Definition backslash : ascii := ascii_of_N 92.

Fixpoint escape (s : string) : string :=
  match s with
  | EmptyString => EmptyString
  | String a s' =>
    if (Ascii.eqb a quote || Ascii.eqb a backslash)%bool
    then String backslash (String a (escape s'))
    else String a (escape s')
  end.

(** The JSON text of a value built from objects, arrays, integers and
    strings. *)
Fixpoint json_text (v : Js.value) : string :=
  match v with
  | Undefined | Null | Num Fractional | Num NaN => "null"
  | Bool true => "true"
  | Bool false => "false"
  | Num (Integer z) => decimal z
  | Str s => String quote (escape s +:+ String quote "")
  | Arr items =>
    "[" +:+ (fix members (l : list Js.value) : string :=
               match l with
               | [] => ""
               | [x] => json_text x
               | x :: l' => json_text x +:+ "," +:+ members l'
               end) items +:+ "]"
  | Obj props =>
    "{" +:+ (fix members (l : list (string * Js.value)) : string :=
               match l with
               | [] => ""
               | [(k, x)] => String quote (escape k +:+ String quote ":") +:+ json_text x
               | (k, x) :: l' =>
                 String quote (escape k +:+ String quote ":")
                 +:+ json_text x +:+ "," +:+ members l'
               end) props +:+ "}"
  end.

(** [JSON.parse] on the texts of the values of a list; every other
    body is taken to be malformed. *)
Definition parse_known (known : list Js.value) (s : string) : option Js.value :=
  List.find (fun v => String.eqb (json_text v) s) known.

(** A key that repeats one character, and a TXT answer as the
    providers return it. *)
Definition key_of (c : ascii) : string := string_of_list_ascii (replicate 64 c).

Definition txt_answer (data : string) (ttl : Z) : Js.value :=
  Obj [("name", Str "example.com."); ("type", Num (Integer 16));
       ("TTL", Num (Integer ttl)); ("data", Str data)]%string.

(** A DNS-over-HTTPS response with two keys and an unrelated record. *)
Definition two_keys : Js.value :=
  Obj [("Status", Num (Integer 0));
       ("Answer", Arr [txt_answer ("datkey=" +:+ key_of "1") 300;
                       txt_answer "v=spf1 -all" 300;
                       txt_answer ("datkey=" +:+ key_of "4") 0])]%string.

(** Two answers with the same key and different TTLs, in both orders. *)
Definition answers_a : list Js.value :=
  [txt_answer ("datkey=" +:+ key_of "a") 10; txt_answer ("datkey=" +:+ key_of "a") 20].

Definition answers_b : list Js.value :=
  [txt_answer ("datkey=" +:+ key_of "a") 20; txt_answer ("datkey=" +:+ key_of "a") 10].

Definition same_key_a : Js.value := Obj [("Answer"%string, Arr answers_a)].

Definition same_key_b : Js.value := Obj [("Answer"%string, Arr answers_b)].

Definition platform : Platform :=
  {| url_parse := bare_url;
     JSON_parse := parse_known [Obj []; two_keys; same_key_a; same_key_b] |}.

(** No network: every request fails. *)
Definition offline : World :=
  {| now := 1000;
     https_get := fun _ => {| statusCode := 0; err := Some "ENOTFOUND"%string; body := "" |} |}.

(** The DNS-over-HTTPS provider answers with [two_keys]; every other
    host serves a well-known record without a ttl line. *)
Definition online : World :=
  {| now := 1000;
     https_get := fun r =>
       if String.eqb (host r) "dns.google"
       then {| statusCode := 200; err := None; body := json_text two_keys |}
       else {| statusCode := 200; err := None;
               body := "dat://" +:+ key_of "b" |} |}.

(** The provider has no record; the host answers 503. *)
Definition unavailable : World :=
  {| now := 1000;
     https_get := fun r =>
       if String.eqb (host r) "dns.google"
       then {| statusCode := 200; err := None; body := json_text (Obj []) |}
       else {| statusCode := 503; err := None; body := "" |} |}.

(** The persistent cache of the test 'Persistent fallback cache': it
    knows one name and throws the error it is given for every other. *)
Definition knows_foo : PersistentCache :=
  {| read := fun name e =>
       if String.eqb name "foo" then Normal (Str (key_of "4")) else Throw e |}.

(** [createDatDNS()] with the second default provider, and with the
    persistent cache above. *)
Definition config : Config := (createDatDNS no_opts 1).1.

Definition config_persistent : Config :=
  (createDatDNS {| opt_hashRegex := None; opt_txtRegex := None; opt_protocolRegex := None;
                   opt_recordName := None; opt_persistentCache := Some knows_foo;
                   opt_dnsHost := None; opt_dnsPort := None; opt_dnsPath := None |} 1).1.

Definition fresh : MemoryCache.t := (createDatDNS no_opts 1).2.

Definition only_DoH : Options :=
  {| ignoreCache := false; ignoreCachedMiss := false;
     noDnsOverHttps := false; noWellknownDat := true |}.

(** A memory cache that holds a key for [example.com], and one that
    holds a miss for it, both written at the time of [offline]. *)
Definition warm : MemoryCache.t :=
  MemoryCache.set fresh 1000 "example.com" (Str (key_of "4")) (Some 3600).

Definition missed : MemoryCache.t :=
  MemoryCache.set fresh 1000 "example.com" (Bool false) (Some 60).

Definition only_wellKnown : Options :=
  {| ignoreCache := false; ignoreCachedMiss := false;
     noDnsOverHttps := true; noWellknownDat := false |}.

(** Half a minute after [offline], still without network. *)
Definition later : World :=
  {| now := 1030; https_get := https_get offline |}.

(** The provider has no record; the host serves a page that is not a
    record. *)
Definition garbled : World :=
  {| now := 1000;
     https_get := fun r =>
       if String.eqb (host r) "dns.google"
       then {| statusCode := 200; err := None; body := json_text (Obj []) |}
       else {| statusCode := 200; err := None; body := "<html></html>" |} |}.

(** As [online], but every response carries the status 500. *)
Definition grumpy : World :=
  {| now := 1000;
     https_get := fun r =>
       {| statusCode := 500; err := None; body := body (https_get online r) |} |}.

(** A DNS-over-HTTPS response with an unrelated record and one key, in
    quotation marks. *)
Definition quoted_answer : list (string * Js.value) :=
  [("name", Str "example.com."); ("type", Num (Integer 16));
   ("TTL", Num (Integer 120));
   ("data", Str (String quote ("datkey=" +:+ key_of "c" +:+ String quote "")))]%string.

Definition one_key : Js.value :=
  Obj [("Status", Num (Integer 0));
       ("Answer", Arr [txt_answer "v=spf1 -all" 300; Obj quoted_answer])]%string.

Definition platform_one : Platform :=
  {| url_parse := bare_url; JSON_parse := parse_known [one_key] |}.

(** [createDatDNS({ dnsHost: 'dns.example' })]: a host without a
    path. *)
Definition host_only : DatDnsOpts :=
  {| opt_hashRegex := None; opt_txtRegex := None; opt_protocolRegex := None;
     opt_recordName := None; opt_persistentCache := None;
     opt_dnsHost := Some "dns.example"%string; opt_dnsPort := Some 8443;
     opt_dnsPath := None |}.

(** The provider has no record; the host serves a record that is not to
    be cached. *)
Definition short_lived : World :=
  {| now := 1000;
     https_get := fun r =>
       if String.eqb (host r) "dns.google"
       then {| statusCode := 200; err := None; body := json_text (Obj []) |}
       else {| statusCode := 200; err := None;
               body := "dat://" +:+ key_of "b" +:+ String newline "TTL=0" |} |}.

(** The provider answers with [one_key]; no host serves a record. *)
Definition answering : World :=
  {| now := 1000;
     https_get := fun r =>
       if String.eqb (host r) "dns.google"
       then {| statusCode := 200; err := None; body := json_text one_key |}
       else {| statusCode := 404; err := None; body := "" |} |}.

End Sample.

(* ================================================================== *)
(** ** Regular expressions: facts *)

Section RegexFacts.

Variable i : bool.

(** A match only succeeds through its continuation. *)
Lemma repeat_matcher_through (body : cont -> cont) :
  (forall c x z, body c x = Some z -> exists y, c y = Some z) ->
  forall fuel clear min max greedy c x z,
    repeat_matcher body clear fuel min max greedy c x = Some z ->
    exists y, c y = Some z.
Proof.
  intros Hbody fuel. induction fuel as [|fuel IH]; intros clear min max greedy c x z H.
  - discriminate.
  - simpl in H.
    assert (Hd : forall xr,
      body (fun y => if Nat.eqb min 0 && Nat.eqb (endIndex y) (endIndex x) then None
                     else repeat_matcher body clear fuel (Nat.pred min) (dec_max max) greedy c y) xr
      = Some z -> exists y, c y = Some z).
    { intros xr Hb. apply Hbody in Hb as [y Hy].
      destruct (Nat.eqb min 0 && Nat.eqb (endIndex y) (endIndex x)); [discriminate|].
      eauto. }
    destruct max as [[|m]|].
    + eauto.
    + destruct (negb (Nat.eqb min 0)); [eauto|].
      destruct (negb greedy).
      * destruct (c x) eqn:Hc; [inversion H; subst; eauto | eauto].
      * match type of H with match ?b with _ => _ end = _ => destruct b eqn:Hb end;
          [inversion H; subst; eauto | eauto].
    + destruct (negb (Nat.eqb min 0)); [eauto|].
      destruct (negb greedy).
      * destruct (c x) eqn:Hc; [inversion H; subst; eauto | eauto].
      * match type of H with match ?b with _ => _ end = _ => destruct b eqn:Hb end;
          [inversion H; subst; eauto | eauto].
Qed.

Lemma matcher_through (r : regex) :
  forall c x z, matcher i r c x = Some z -> exists y, c y = Some z.
Proof.
  induction r as [| |ch|ng rs|r1 IH1 r2 IH2|min max greedy r IH|r IH]; intros c x z H; simpl in H.
  - destruct (Nat.eqb (endIndex x) 0); [eauto|discriminate].
  - destruct (rest x); [eauto|discriminate].
  - destruct (rest x); [discriminate|].
    destruct (Ascii.eqb _ _); [eauto|discriminate].
  - destruct (rest x); [discriminate|].
    destruct (xorb _ _); [eauto|discriminate].
  - apply IH1 in H as [y Hy]. eauto.
  - eapply repeat_matcher_through; eauto.
  - apply IH in H as [y Hy]. eauto.
Qed.

(** [cls{n}] consumes exactly [n] characters of the class. *)
Lemma repeat_class_exactly (ng : bool) (rs : list (ascii * ascii)) (greedy : bool) (c : cont) :
  forall n fuel x z,
    (n < fuel)%nat ->
    repeat_matcher (matcher i (Cls ng rs)) false fuel n (Some n) greedy c x = Some z ->
    exists pre t,
      rest x = pre ++ t /\ length pre = n /\
      forallb (fun a => xorb ng (in_ranges i rs a)) pre = true /\
      c {| endIndex := endIndex x + n; rest := t; group1 := group1 x |} = Some z.
Proof.
  induction n as [|n IH]; intros fuel x z Hfuel H.
  - destruct fuel as [|fuel]; [lia|]. simpl in H.
    exists [], (rest x). repeat split; auto.
    replace (endIndex x + 0)%nat with (endIndex x) by lia. destruct x; exact H.
  - destruct fuel as [|fuel]; [lia|]. simpl in H.
    destruct (rest x) as [|a t] eqn:Hrest; [discriminate|].
    destruct (xorb ng (in_ranges i rs a)) eqn:Ha; [|discriminate].
    apply IH in H as (pre & t' & Hr & Hlen & Hall & Hc); [|lia].
    simpl in Hr, Hc. subst t.
    exists (a :: pre), t'. repeat split; simpl; auto.
    + apply andb_true_intro; auto.
    + replace (endIndex x + S n)%nat with (S (endIndex x) + n)%nat by lia. exact Hc.
Qed.


(** Matching a pattern without the group leaves the group as it is. *)
Lemma repeat_matcher_keeps (body : cont -> cont) :
  (forall c, keeps_group c -> keeps_group (body c)) ->
  forall fuel min max greedy c,
    keeps_group c -> keeps_group (repeat_matcher body false fuel min max greedy c).
Proof.
  intros Hbody fuel. induction fuel as [|fuel IH]; intros min max greedy c Hc x z H Hx.
  - discriminate.
  - simpl in H.
    assert (Hd : keeps_group (fun y =>
      if Nat.eqb min 0 && Nat.eqb (endIndex y) (endIndex x) then None
      else repeat_matcher body false fuel (Nat.pred min) (dec_max max) greedy c y)).
    { intros y y' Hy Hgy.
      destruct (Nat.eqb min 0 && Nat.eqb (endIndex y) (endIndex x)); [discriminate|].
      eapply IH; eauto. }
    pose proof (Hbody _ Hd) as Hb.
    destruct max as [[|m]|].
    + eapply Hc; eauto.
    + destruct (negb (Nat.eqb min 0)); [eapply Hb; eauto|].
      destruct (negb greedy).
      * destruct (c x) eqn:E; [inversion H; subst; eapply Hc; eauto | eapply Hb; eauto].
      * match type of H with match ?b with _ => _ end = _ => destruct b eqn:E end;
          [inversion H; subst; eapply Hb; eauto | eapply Hc; eauto].
    + destruct (negb (Nat.eqb min 0)); [eapply Hb; eauto|].
      destruct (negb greedy).
      * destruct (c x) eqn:E; [inversion H; subst; eapply Hc; eauto | eapply Hb; eauto].
      * match type of H with match ?b with _ => _ end = _ => destruct b eqn:E end;
          [inversion H; subst; eapply Hb; eauto | eapply Hc; eauto].
Qed.

Lemma matcher_keeps (r : regex) :
  has_group r = false -> forall c, keeps_group c -> keeps_group (matcher i r c).
Proof.
  induction r as [| |ch|ng rs|r1 IH1 r2 IH2|min max greedy r IH|r IH];
    intros Hg c Hc x z H Hx; simpl in H, Hg.
  - destruct (Nat.eqb (endIndex x) 0); [eapply Hc; eauto|discriminate].
  - destruct (rest x); [eapply Hc; eauto|discriminate].
  - destruct (rest x); [discriminate|].
    destruct (Ascii.eqb _ _); [eapply Hc; eauto|discriminate].
  - destruct (rest x); [discriminate|].
    destruct (xorb _ _); [eapply Hc; eauto|discriminate].
  - apply orb_false_elim in Hg as [Hg1 Hg2].
    eapply (IH1 Hg1 (matcher i r2 c)); eauto.
  - rewrite Hg in H.
    eapply (repeat_matcher_keeps (matcher i r)); eauto.
  - discriminate.
Qed.

(** After a match of a pattern with [always_captures] the group is
    defined. *)
Lemma matcher_always_captures (r : regex) :
  always_captures r = true ->
  forall c x z, keeps_group c -> matcher i r c x = Some z -> is_Some (group1 z).
Proof.
  induction r as [| |ch|ng rs|r1 IH1 r2 IH2|min max greedy r IH|r IH];
    intros Ha c x z Hc H; simpl in Ha; try discriminate.
  - simpl in H. apply orb_true_iff in Ha as [Ha|Ha].
    + apply andb_true_iff in Ha as [Ha1 Ha2]. apply negb_true_iff in Ha2.
      eapply (IH1 Ha1 (matcher i r2 c)); eauto using matcher_keeps.
    + apply matcher_through in H as [y Hy]. eapply IH2; eauto.
  - simpl in H. apply matcher_through in H as [y Hy].
    eapply Hc; eauto.
Qed.

Lemma search_always_captures (r : regex) (input : list ascii) :
  always_captures r = true ->
  forall pos m, search i r pos input = Some m -> is_Some (capture1 m).
Proof.
  intros Ha. induction input as [|a input IH]; intros pos m H; simpl in H.
  - destruct (matcher i r Some _) eqn:E; [|discriminate].
    inversion H; subst; simpl.
    eapply matcher_always_captures in E as [g Hg]; eauto.
    + rewrite Hg. simpl. eauto.
    + intros x y Hxy. inversion Hxy; subst; auto.
  - destruct (matcher i r Some _) eqn:E; [|eapply IH; eauto].
    inversion H; subst; simpl.
    eapply matcher_always_captures in E as [g Hg]; eauto.
    + rewrite Hg. simpl. eauto.
    + intros x y Hxy. inversion Hxy; subst; auto.
Qed.

End RegexFacts.

(** Every match of a pattern with [always_captures] has a string as
    [m[1]]. *)
Lemma exec_always_captures (re : RegExp) (s : string) (m : match_result) :
  always_captures (pattern re) = true ->
  exec re s = Some m -> exists k, capture_value m = Str k.
Proof.
  intros Ha H. unfold exec in H.
  eapply search_always_captures in H as [k Hk]; eauto.
  unfold capture_value. rewrite Hk. eauto.
Qed.

Lemma hex_class (a : ascii) :
  is_hex_digit a = xorb false (in_ranges true [("0", "9"); ("a", "f")]%char a).
Proof. destruct a as [[] [] [] [] [] [] [] []]; vm_compute; reflexivity. Qed.




(* ================================================================== *)
(** ** The fast path for keys *)

Lemma length_list_ascii_of_string (s : string) :
  length (list_ascii_of_string s) = String.length s.
Proof. induction s as [|a s IH]; simpl; auto. Qed.


(** A name that the key pattern accepts is returned at once, cut to 64
    characters, whatever the pattern is. *)
Lemma resolveName_key (p : Platform) (cfg : Config) (w : World) (name : string)
    (opts : Options) (c : MemoryCache.t) (n : string) :
  normalize p name = Normal n ->
  test (hashRegex cfg) n = true ->
  resolveName p cfg w name opts c = (Normal (Str (slice0 n 64)), c, []).
Proof.
  intros Hn Ht. unfold resolveName, bind, lift. rewrite Hn, Ht. reflexivity.
Qed.

(** A name that the key pattern rejects goes through the lookup. *)
Lemma resolveName_lookup (p : Platform) (cfg : Config) (w : World) (name : string)
    (opts : Options) (c : MemoryCache.t) (n : string) :
  normalize p name = Normal n ->
  test (hashRegex cfg) n = false ->
  resolveName p cfg w name opts c =
  try_catch (lookup p cfg w n opts) (on_failure cfg n) c.
Proof.
  intros Hn Ht. unfold resolveName, bind, lift. rewrite Hn, Ht.
  destruct (try_catch _ _ c) as [[r c'] t]. reflexivity.
Qed.



(** The cases of [test.js] that need no network. *)
Example works_for_keys :
  outcome (resolveName Sample.platform Sample.config Sample.offline
             "40a7f6b6147ae695bcbcff432f684c7bb5291ea339c28c1755896cdeb80bd2f9"
             no_options Sample.fresh)
  = Normal (Str "40a7f6b6147ae695bcbcff432f684c7bb5291ea339c28c1755896cdeb80bd2f9").
Proof. vm_compute. reflexivity. Qed.

Example works_for_non_numeric_versioned_keys :
  outcome (resolveName Sample.platform Sample.config Sample.offline
             "40a7f6b6147ae695bcbcff432f684c7bb5291ea339c28c1755896cdeb80bd2f9+foo"
             no_options Sample.fresh)
  = Normal (Str "40a7f6b6147ae695bcbcff432f684c7bb5291ea339c28c1755896cdeb80bd2f9").
Proof. vm_compute. reflexivity. Qed.




(* ================================================================== *)
(** ** Traces *)

Lemma actions_app (t1 t2 : list effect) :
  actions (t1 ++ t2) = actions t1 ++ actions t2.
Proof. unfold actions. apply List.filter_app. Qed.

Lemma actions_events (t : list effect) :
  forallb is_Emit t = true -> actions t = [].
Proof.
  induction t as [|e t IH]; simpl; auto.
  intros H. apply andb_true_iff in H as [He Ht]. rewrite He. simpl. auto.
Qed.

Lemma existsb_actions (P : effect -> bool) (t : list effect) :
  (forall e, is_Emit e = true -> P e = false) ->
  existsb P t = existsb P (actions t).
Proof.
  intros HP. induction t as [|e t IH]; simpl; auto.
  destruct (is_Emit e) eqn:He; simpl.
  - rewrite (HP e He). simpl. exact IH.
  - rewrite IH. reflexivity.
Qed.

Lemma preceded_from_actions (P Q : effect -> bool) (t : list effect) :
  (forall e, is_Emit e = true -> P e = false) ->
  (forall e, is_Emit e = true -> Q e = false) ->
  forall seen, preceded_from P Q seen t = preceded_from P Q seen (actions t).
Proof.
  intros HP HQ. induction t as [|e t IH]; intros seen; simpl; auto.
  destruct (is_Emit e) eqn:He; simpl.
  - rewrite (HP e He), (HQ e He). simpl. rewrite orb_false_r. apply IH.
  - rewrite IH. reflexivity.
Qed.

Lemma preceded_from_sound (P Q : effect -> bool) (t : list effect) :
  forall seen, preceded_from P Q seen t = true ->
  forall pre e post, t = pre ++ e :: post -> Q e = true ->
                     seen || existsb P pre = true.
Proof.
  induction t as [|x t IH]; intros seen H pre e post Heq HQ.
  - destruct pre; discriminate.
  - simpl in H. apply andb_true_iff in H as [Hx Ht].
    destruct pre as [|y pre]; simpl in Heq; inversion Heq; subst.
    + rewrite HQ in Hx. simpl in Hx. rewrite Hx. reflexivity.
    + specialize (IH _ Ht pre e post eq_refl HQ). simpl.
      rewrite orb_assoc. exact IH.
Qed.

Lemma preceded_by_actions (P Q : effect -> bool) (t : list effect) :
  (forall e, is_Emit e = true -> P e = false) ->
  (forall e, is_Emit e = true -> Q e = false) ->
  preceded_from P Q false (actions t) = true -> preceded P Q t.
Proof.
  intros HP HQ H pre e post Heq Hq.
  rewrite <- preceded_from_actions in H by assumption.
  exact (preceded_from_sound P Q t false H pre e post Heq Hq).
Qed.

Lemma emit_not_DohGet (e : effect) : is_Emit e = true -> is_DohGet e = false.
Proof. destruct e; simpl; congruence. Qed.
Lemma emit_not_WellKnownGet (e : effect) : is_Emit e = true -> is_WellKnownGet e = false.
Proof. destruct e; simpl; congruence. Qed.
Lemma emit_not_CacheGet (e : effect) : is_Emit e = true -> is_CacheGet e = false.
Proof. destruct e; simpl; congruence. Qed.
Lemma emit_not_CacheSet (e : effect) : is_Emit e = true -> is_CacheSet e = false.
Proof. destruct e; simpl; congruence. Qed.
Lemma emit_not_PersistRead (e : effect) : is_Emit e = true -> is_PersistRead e = false.
Proof. destruct e; simpl; congruence. Qed.
Lemma emit_not_network (e : effect) : is_Emit e = true -> is_network e = false.
Proof. destruct e; simpl; intros; try reflexivity; discriminate. Qed.

(* ================================================================== *)
(** ** The probes, one by one *)

(** The answer that [parseDnsOverHttpsRecord] settles on. *)
Lemma parseDnsOverHttpsRecord_result (p : Platform) (name body : string) (re : RegExp)
    (c : MemoryCache.t) (r : ProbeResult) :
  outcome (parseDnsOverHttpsRecord p name body re c) = Normal r ->
  exists record items a others,
    JSON_parse p body = Some record /\
    Js.get record "Answer" = Normal (Arr items) /\
    Js.sort by_key_descending (candidates re items) = (a, key r) :: others /\
    ttl r = limit_ttl (answer_ttl a).
Proof.
  unfold parseDnsOverHttpsRecord, bind, lift, emit, tell, ret, throw.
  destruct (JSON_parse p body) as [record|]; [|cbn; discriminate].
  destruct (Js.get record "Answer") as [answers|e] eqn:Hg; [|cbn; discriminate].
  destruct answers as [| | | | |items|]; try (cbn; discriminate).
  destruct (Js.sort _ _) as [|[a k] l] eqn:Hs; [cbn; discriminate|].
  cbn. intros H. inversion H; subst. cbn.
  exists record, items, a, l. repeat split; auto.
Qed.

Section Blocks.

Variable p : Platform.
Variable cfg : Config.
Variable w : World.
Variable n : string.

Lemma fetchDnsOverHttpsRecord_run (c : MemoryCache.t) :
  fetchDnsOverHttpsRecord w n (dnsHost cfg) (dnsPort cfg) (dnsPath cfg) c =
  if includes n "."
  then (Normal (https_get w (doh_req cfg n)), c, [DohGet (doh_req cfg n)])
  else (Throw (Error "Domain is not a FQDN."), c,
        [Emit (Failed "dns-over-https" n (Text "Name is not a FQDN")); DohGet (doh_req cfg n)]).
Proof.
  unfold fetchDnsOverHttpsRecord, doh_req, queried_name, bind, when, emit, tell, ret, throw.
  destruct (includes n "."); reflexivity.
Qed.

Lemma parseDnsOverHttpsRecord_run (body : string) (re : RegExp) (c : MemoryCache.t) :
  exists o t,
    parseDnsOverHttpsRecord p n body re c = (o, c, t) /\ forallb is_Emit t = true.
Proof.
  unfold parseDnsOverHttpsRecord, bind, lift, emit, tell, ret, throw.
  destruct (JSON_parse p body) as [record|]; [|eauto].
  destruct (Js.get record "Answer") as [answers|e]; [|eauto].
  destruct answers; eauto.
  destruct (Js.sort _ _) as [|[a k] l]; eauto.
Qed.

Lemma dnsOverHttps_lookup_run (c : MemoryCache.t) :
  exists o t,
    dnsOverHttps_lookup p cfg w n c = (o, c, t) /\ actions t = [DohGet (doh_req cfg n)].
Proof.
  unfold dnsOverHttps_lookup. unfold bind at 1. rewrite fetchDnsOverHttpsRecord_run.
  destruct (includes n ".").
  - unfold bind at 1.
    destruct (parseDnsOverHttpsRecord_run (body (https_get w (doh_req cfg n))) (dnsTxtRegex cfg) c)
      as (o & t & Hrun & Hev).
    rewrite Hrun. destruct o as [r|e].
    + unfold bind, emit, tell, ret. eexists _, _. split; [reflexivity|].
      simpl. rewrite actions_app, (actions_events t Hev). reflexivity.
    + eexists _, _. split; [reflexivity|].
      simpl. rewrite (actions_events t Hev). reflexivity.
  - eexists _, _. split; reflexivity.
Qed.

Lemma parseWellknownDatRecord_run (body : string) (c : MemoryCache.t) :
  exists o t,
    parseWellknownDatRecord n body (protocolRegex cfg) (recordName cfg) c = (o, c, t) /\
    forallb is_Emit t = true.
Proof.
  unfold parseWellknownDatRecord.
  destruct (String.eqb body ""); [unfold bind, emit, tell, throw; eauto|].
  destruct (exec _ _) as [m|]; [|unfold bind, emit, tell, throw; eauto].
  unfold bind, try_catch, lift, emit, tell, ret.
  destruct (parse_ttl_line _); eauto.
Qed.

(** The three outcomes of the well-known request. *)
Lemma wellKnown_lookup_not_found (c : MemoryCache.t) :
  statusCode (https_get w (wk_req cfg n)) = 0 \/ statusCode (https_get w (wk_req cfg n)) = 404 ->
  exists t,
    wellKnown_lookup cfg w n c =
      (Throw (Error "DNS record not found"),
       MemoryCache.set c (now w) n (Bool false) (Some 60), t) /\
    actions t = [WellKnownGet (wk_req cfg n); CacheSet n (Bool false) (Some 60)].
Proof.
  intros Hs. unfold wellKnown_lookup, fetchWellKnownRecord, bind, tell, ret. fold (wk_req cfg n).
  replace ((statusCode (https_get w (wk_req cfg n)) =? 0) || (statusCode (https_get w (wk_req cfg n)) =? 404))
    with true by (destruct Hs as [-> | ->]; reflexivity).
  unfold emit, tell, mCache_set, throw. eexists. split; reflexivity.
Qed.

Lemma wellKnown_lookup_http_error (c : MemoryCache.t) :
  statusCode (https_get w (wk_req cfg n)) <> 0 ->
  statusCode (https_get w (wk_req cfg n)) <> 404 ->
  statusCode (https_get w (wk_req cfg n)) <> 200 ->
  exists t,
    wellKnown_lookup cfg w n c = (Throw (Error "DNS record not found"), c, t) /\
    actions t = [WellKnownGet (wk_req cfg n)].
Proof.
  intros H0 H404 H200.
  unfold wellKnown_lookup, fetchWellKnownRecord, bind, tell, ret. fold (wk_req cfg n).
  apply Z.eqb_neq in H0, H404, H200. rewrite H0, H404, H200.
  unfold emit, tell, throw. eexists. split; reflexivity.
Qed.

Lemma wellKnown_lookup_ok (c : MemoryCache.t) :
  statusCode (https_get w (wk_req cfg n)) = 200 ->
  exists o t,
    wellKnown_lookup cfg w n c = (o, c, t) /\ actions t = [WellKnownGet (wk_req cfg n)].
Proof.
  intros H200.
  unfold wellKnown_lookup, fetchWellKnownRecord. unfold bind at 1 2. unfold tell, ret. fold (wk_req cfg n).
  rewrite H200. cbn [Z.eqb Pos.eqb orb negb].
  destruct (parseWellknownDatRecord_run (body (https_get w (wk_req cfg n))) c) as (o & t & Hrun & Hev).
  unfold bind at 1. rewrite Hrun. destruct o as [r|e].
  - unfold bind, emit, tell, ret. eexists _, _. split; [reflexivity|].
    simpl. rewrite actions_app, (actions_events t Hev). reflexivity.
  - eexists _, _. split; [reflexivity|].
    simpl. rewrite (actions_events t Hev). reflexivity.
Qed.

(** Whatever the response, the lookup issues the well-known request
    first; it touches the memory cache only to record a miss, and then
    it throws. *)
Lemma wellKnown_lookup_run (c : MemoryCache.t) :
  exists o c' t,
    wellKnown_lookup cfg w n c = (o, c', t) /\
    ((actions t = [WellKnownGet (wk_req cfg n)] /\ c' = c) \/
     (actions t = [WellKnownGet (wk_req cfg n); CacheSet n (Bool false) (Some 60)] /\
      o = Throw (Error "DNS record not found"))).
Proof.
  destruct (Z.eq_dec (statusCode (https_get w (wk_req cfg n))) 0) as [H0|H0].
  { destruct (wellKnown_lookup_not_found c (or_introl H0)) as (t & -> & Ha). eauto 10. }
  destruct (Z.eq_dec (statusCode (https_get w (wk_req cfg n))) 404) as [H404|H404].
  { destruct (wellKnown_lookup_not_found c (or_intror H404)) as (t & -> & Ha). eauto 10. }
  destruct (Z.eq_dec (statusCode (https_get w (wk_req cfg n))) 200) as [H200|H200].
  { destruct (wellKnown_lookup_ok c H200) as (o & t & -> & Ha). eauto 10. }
  destruct (wellKnown_lookup_http_error c H0 H404 H200) as (t & -> & Ha). eauto 10.
Qed.

End Blocks.

(* ================================================================== *)
(** ** The stages of a lookup *)

Section Stages.

Variable p : Platform.
Variable cfg : Config.
Variable w : World.
Variable n : string.
Variable opts : Options.

Lemma run_probes_doh_ok (c : MemoryCache.t) (r : ProbeResult) (t : list effect) :
  noDnsOverHttps opts = false ->
  dnsOverHttps_lookup p cfg w n c = (Normal r, c, t) ->
  run_probes p cfg w n opts c = (Normal (ResObject r), c, t).
Proof.
  intros Hd Hrun. unfold run_probes, bind, try_catch, ret. rewrite Hd.
  cbn -[dnsOverHttps_lookup wellKnown_lookup]. rewrite Hrun.
  cbn -[dnsOverHttps_lookup wellKnown_lookup]. rewrite !app_nil_r. reflexivity.
Qed.

Lemma run_probes_fallback (c c' : MemoryCache.t) (e : JsError) (t t' : list effect)
    (o : completion ProbeResult) :
  noDnsOverHttps opts = false ->
  noWellknownDat opts = false ->
  dnsOverHttps_lookup p cfg w n c = (Throw e, c, t) ->
  wellKnown_lookup cfg w n c = (o, c', t') ->
  run_probes p cfg w n opts c =
    (match o with Normal r => Normal (ResObject r) | Throw e' => Throw e' end, c', t ++ t').
Proof.
  intros Hd Hw Hrun Hrun'. unfold run_probes, bind, try_catch, ret.
  rewrite Hd, Hw. cbn -[dnsOverHttps_lookup wellKnown_lookup]. rewrite Hrun.
  cbn -[dnsOverHttps_lookup wellKnown_lookup]. rewrite Hrun'.
  destruct o; cbn; rewrite ?app_nil_r; reflexivity.
Qed.

Lemma run_probes_doh_only_failed (c : MemoryCache.t) (e : JsError) (t : list effect) :
  noDnsOverHttps opts = false ->
  noWellknownDat opts = true ->
  dnsOverHttps_lookup p cfg w n c = (Throw e, c, t) ->
  run_probes p cfg w n opts c = (Normal ResFalse, c, t).
Proof.
  intros Hd Hw Hrun. unfold run_probes, bind, try_catch, ret.
  rewrite Hd, Hw. cbn -[dnsOverHttps_lookup wellKnown_lookup]. rewrite Hrun.
  cbn. rewrite !app_nil_r. reflexivity.
Qed.

Lemma run_probes_wk_only (c c' : MemoryCache.t) (t' : list effect)
    (o : completion ProbeResult) :
  noDnsOverHttps opts = true ->
  noWellknownDat opts = false ->
  wellKnown_lookup cfg w n c = (o, c', t') ->
  run_probes p cfg w n opts c =
    (match o with Normal r => Normal (ResObject r) | Throw e' => Throw e' end, c', t').
Proof.
  intros Hd Hw Hrun'. unfold run_probes, bind, try_catch, ret.
  rewrite Hd, Hw. cbn -[dnsOverHttps_lookup wellKnown_lookup]. rewrite Hrun'.
  destruct o; cbn; rewrite ?app_nil_r; reflexivity.
Qed.

Lemma run_probes_skipped (c : MemoryCache.t) :
  noDnsOverHttps opts = true ->
  noWellknownDat opts = true ->
  run_probes p cfg w n opts c = (Normal ResUndefined, c, []).
Proof.
  intros Hd Hw. unfold run_probes, bind, try_catch, ret. rewrite Hd, Hw. reflexivity.
Qed.

Lemma store_run (k : Js.value) (t : option Z) (c : MemoryCache.t) :
  store cfg w n k t c =
  (Normal k,
   (if bool_decide (t = Some 0) then c else MemoryCache.set c (now w) n k t),
   (if bool_decide (t = Some 0) then [] else [CacheSet n k t])
   ++ (if bool_decide (is_Some (pCache cfg)) then [PersistWrite n k t] else [])).
Proof.
  unfold store, bind, when, mCache_set, tell, ret.
  destruct (bool_decide (t = Some 0)); destruct (bool_decide (is_Some (pCache cfg)));
    reflexivity.
Qed.

Lemma lookup_cached (c : MemoryCache.t) :
  reaches_probes w opts c n = false ->
  lookup p cfg w n opts c =
  ((if truthy (MemoryCache.get c (now w) n)
    then Normal (MemoryCache.get c (now w) n)
    else Throw (Error "DNS record not found")),
   c, [CacheGet n]).
Proof.
  unfold reaches_probes, lookup, bind, mCache_get. intros H.
  apply orb_false_elim in H as [H H3]. apply orb_false_elim in H as [H1 H2].
  rewrite H1. cbn -[probes MemoryCache.get truthy is_undefined]. rewrite H2.
  destruct (truthy (MemoryCache.get c (now w) n)); cbn in *.
  - reflexivity.
  - rewrite H3. reflexivity.
Qed.

Lemma lookup_probes (c : MemoryCache.t) :
  reaches_probes w opts c n = true ->
  lookup p cfg w n opts c =
  match probes p cfg w n opts c with
  | (o, c', t) => (o, c', (if ignoreCache opts then [] else [CacheGet n]) ++ t)
  end.
Proof.
  unfold reaches_probes, lookup, bind, mCache_get. intros H.
  destruct (ignoreCache opts); cbn -[probes MemoryCache.get truthy is_undefined] in *.
  - destruct (probes p cfg w n opts c) as [[o c'] t]. reflexivity.
  - destruct (is_undefined (MemoryCache.get c (now w) n));
      cbn -[probes MemoryCache.get truthy is_undefined] in *.
    + destruct (probes p cfg w n opts c) as [[o c'] t]. reflexivity.
    + destruct (truthy (MemoryCache.get c (now w) n));
        cbn -[probes MemoryCache.get truthy is_undefined] in *; [discriminate|].
      rewrite H. cbn -[probes]. destruct (probes p cfg w n opts c) as [[o c'] t]. reflexivity.
Qed.

Lemma on_failure_run (e : JsError) (c : MemoryCache.t) :
  on_failure cfg n e c =
  (failure_outcome cfg n e, c,
   if bool_decide (is_Some (pCache cfg)) then [PersistRead n e] else []).
Proof.
  unfold on_failure, failure_outcome, bind, tell, lift, throw.
  destruct (pCache cfg); reflexivity.
Qed.

(** The whole call, once the name is known not to be a key: the lookup
    with the failure handler around it. *)
Lemma guarded_lookup_run (c : MemoryCache.t) :
  try_catch (lookup p cfg w n opts) (on_failure cfg n) c =
  match lookup p cfg w n opts c with
  | (Normal v, c', t) => (Normal v, c', t)
  | (Throw e, c', t) =>
    (failure_outcome cfg n e, c',
     t ++ (if bool_decide (is_Some (pCache cfg)) then [PersistRead n e] else []))
  end.
Proof.
  unfold try_catch. destruct (lookup p cfg w n opts c) as [[[v|e] c'] t]; [reflexivity|].
  rewrite on_failure_run. reflexivity.
Qed.

Lemma probes_run (c : MemoryCache.t) :
  probes p cfg w n opts c =
  match run_probes p cfg w n opts c with
  | (Normal res, c', t) =>
    match cache_result cfg w n res c' with
    | (o, c'', t') => (o, c'', t ++ t')
    end
  | (Throw e, c', t) => (Throw e, c', t)
  end.
Proof. reflexivity. Qed.

End Stages.

(* ================================================================== *)
(** ** The order of the probes *)

Ltac trace_facts :=
  auto using emit_not_DohGet, emit_not_WellKnownGet, emit_not_CacheGet,
             emit_not_CacheSet, emit_not_PersistRead, emit_not_network.

Ltac norm_actions :=
  rewrite ?actions_app;
  repeat match goal with
         | H : actions ?t = _ |- context [actions ?t] => rewrite H
         end;
  repeat match goal with
         | |- context [if ?b then _ else _] => destruct b
         end;
  cbn [actions List.filter is_Emit negb app].

(** Goals about where the requests and cache operations of a run
    stand are decided on its [actions]. *)
Ltac by_actions :=
  lazymatch goal with
  | |- preceded _ _ _ => apply preceded_by_actions; trace_facts; norm_actions; reflexivity
  | |- existsb ?P ?t = _ =>
    rewrite (existsb_actions P t) by trace_facts; norm_actions; reflexivity
  end.

Lemma In_actions (e : effect) (t : list effect) : In e (actions t) -> In e t.
Proof. unfold actions. intros H. apply List.filter_In in H. tauto. Qed.

Lemma preceded_nil (P Q : effect -> bool) : preceded P Q [].
Proof. intros pre e post H. destruct pre; discriminate. Qed.

(** For a name without a dot the promise is rejected, and the request
    is issued all the same. *)
Lemma dnsOverHttps_lookup_not_fqdn (p : Platform) (cfg : Config) (w : World)
    (n : string) (c : MemoryCache.t) :
  includes n "." = false ->
  dnsOverHttps_lookup p cfg w n c =
  (Throw (Error "Domain is not a FQDN."), c,
   [Emit (Failed "dns-over-https" n (Text "Name is not a FQDN"));
    DohGet (doh_req cfg n)]).
Proof.
  intros Hdot. unfold dnsOverHttps_lookup. unfold bind at 1.
  rewrite fetchDnsOverHttpsRecord_run, Hdot. reflexivity.
Qed.

(** Without a candidate among the answers the DNS-over-HTTPS lookup
    fails, and so it does when the body is not JSON. *)
Lemma dnsOverHttps_lookup_no_candidate (p : Platform) (cfg : Config) (w : World)
    (n : string) (c : MemoryCache.t) :
  JSON_parse p (body (https_get w (doh_req cfg n))) = None \/
  (exists record items,
     JSON_parse p (body (https_get w (doh_req cfg n))) = Some record /\
     Js.get record "Answer" = Normal (Arr items) /\
     candidates (dnsTxtRegex cfg) items = []) ->
  exists e, outcome (dnsOverHttps_lookup p cfg w n c) = Throw e.
Proof.
  intros H. unfold dnsOverHttps_lookup. unfold bind at 1.
  rewrite fetchDnsOverHttpsRecord_run.
  destruct (includes n "."); [|cbn; eauto].
  unfold bind at 1.
  destruct (parseDnsOverHttpsRecord p n (body (https_get w (doh_req cfg n)))
              (dnsTxtRegex cfg) c) as [[[r|e] c1] t1] eqn:Hp; [|cbn; eauto].
  exfalso.
  assert (Ho : outcome (parseDnsOverHttpsRecord p n (body (https_get w (doh_req cfg n)))
                          (dnsTxtRegex cfg) c) = Normal r) by (rewrite Hp; reflexivity).
  apply parseDnsOverHttpsRecord_result in Ho
    as (record & items & a & others & Hj & Hg & Hs & _).
  destruct H as [Hnone|(record' & items' & Hj' & Hg' & Hc)].
  - congruence.
  - rewrite Hj in Hj'. inversion Hj'; subst record'.
    rewrite Hg in Hg'. inversion Hg'; subst items'.
    rewrite Hc in Hs. discriminate.
Qed.

(** C1. In a call with both probes enabled that gets past the key
    pattern and the memory cache, the DNS-over-HTTPS request is always
    issued; the well-known request is not issued when the
    DNS-over-HTTPS lookup succeeded and is issued when it failed, that
    is when it threw; it throws, in particular, for a name without a
    dot, for a body that is not JSON and for an answer list without a
    candidate.  In every call the well-known request is never issued
    before a DNS-over-HTTPS request. *)
Theorem C1_wellknown_only_after_failed_doh (p : Platform) (cfg : Config) (w : World)
    (name : string) (opts : Options) (c : MemoryCache.t) :
  noDnsOverHttps opts = false ->
  noWellknownDat opts = false ->
  preceded is_DohGet is_WellKnownGet (effects (resolveName p cfg w name opts c)) /\
  forall n,
    normalize p name = Normal n ->
    test (hashRegex cfg) n = false ->
    reaches_probes w opts c n = true ->
    In (DohGet (doh_req cfg n)) (effects (resolveName p cfg w name opts c)) /\
    (forall r, outcome (dnsOverHttps_lookup p cfg w n c) = Normal r ->
       existsb is_WellKnownGet (effects (resolveName p cfg w name opts c)) = false) /\
    (forall e, outcome (dnsOverHttps_lookup p cfg w n c) = Throw e ->
       In (WellKnownGet (wk_req cfg n)) (effects (resolveName p cfg w name opts c))) /\
    (includes n "." = false \/
     JSON_parse p (body (https_get w (doh_req cfg n))) = None \/
     (exists record items,
        JSON_parse p (body (https_get w (doh_req cfg n))) = Some record /\
        Js.get record "Answer" = Normal (Arr items) /\
        candidates (dnsTxtRegex cfg) items = []) ->
     In (WellKnownGet (wk_req cfg n)) (effects (resolveName p cfg w name opts c))).
Proof.
  intros Hd Hw.
  enough (Hmain :
    preceded is_DohGet is_WellKnownGet (effects (resolveName p cfg w name opts c)) /\
    forall n,
      normalize p name = Normal n ->
      test (hashRegex cfg) n = false ->
      reaches_probes w opts c n = true ->
      In (DohGet (doh_req cfg n)) (effects (resolveName p cfg w name opts c)) /\
      (forall r, outcome (dnsOverHttps_lookup p cfg w n c) = Normal r ->
         existsb is_WellKnownGet (effects (resolveName p cfg w name opts c)) = false) /\
      (forall e, outcome (dnsOverHttps_lookup p cfg w n c) = Throw e ->
         In (WellKnownGet (wk_req cfg n)) (effects (resolveName p cfg w name opts c)))).
  { destruct Hmain as [Hord Hrest]. split; [exact Hord|].
    intros n Hn Ht Hr. destruct (Hrest n Hn Ht Hr) as (Hsent & Hok & Hfail).
    split; [exact Hsent|]. split; [exact Hok|]. split; [exact Hfail|].
    intros [Hdot|Hcand].
    - apply (Hfail (Error "Domain is not a FQDN.")).
      rewrite dnsOverHttps_lookup_not_fqdn by exact Hdot. reflexivity.
    - destruct (dnsOverHttps_lookup_no_candidate p cfg w n c Hcand) as [e He].
      exact (Hfail e He). }
  destruct (normalize p name) as [n|e0] eqn:Hn.
  2: { unfold resolveName, bind, lift. rewrite Hn. cbn. split; [apply preceded_nil|].
       intros n Hn'. discriminate. }
  destruct (test (hashRegex cfg) n) eqn:Ht.
  { rewrite (resolveName_key p cfg w name opts c n Hn Ht). cbn.
    split; [apply preceded_nil|]. intros n0 Hn0 Ht0. inversion Hn0; subst n0. congruence. }
  rewrite (resolveName_lookup p cfg w name opts c n Hn Ht), guarded_lookup_run.
  destruct (reaches_probes w opts c n) eqn:Hr.
  2: { rewrite lookup_cached by exact Hr.
       destruct (truthy _); cbn.
       - split; [apply preceded_by_actions; trace_facts|].
         intros n0 Hn0 _ Hr0. inversion Hn0; subst n0. congruence.
       - split; [apply preceded_by_actions; trace_facts;
                 destruct (bool_decide (is_Some (pCache cfg))); reflexivity|].
         intros n0 Hn0 _ Hr0. inversion Hn0; subst n0. congruence. }
  rewrite lookup_probes by exact Hr. rewrite probes_run.
  destruct (dnsOverHttps_lookup_run p cfg w n c) as (od & td & Hdoh & Had).
  assert (Hsent : In (DohGet (doh_req cfg n)) (actions td))
    by (rewrite Had; left; reflexivity).
  destruct od as [r|e].
  - rewrite (run_probes_doh_ok p cfg w n opts c r td Hd Hdoh).
    cbn [cache_result]. rewrite store_run. cbn [effects snd fst].
    split; [by_actions|].
    intros n0 Hn0 _ _. inversion Hn0; subst n0. split; [|split].
    + apply In_actions. rewrite !actions_app. rewrite !in_app_iff. auto.
    + intros _ _. by_actions.
    + intros e He. rewrite Hdoh in He. discriminate.
  - destruct (wellKnown_lookup_run cfg w n c) as (ow & cw & tw & Hwk & Hshape).
    rewrite (run_probes_fallback p cfg w n opts c cw e td tw ow Hd Hw Hdoh Hwk).
    assert (Hin : In (WellKnownGet (wk_req cfg n)) (actions tw)).
    { destruct Hshape as [[-> _]|[-> _]]; simpl; auto. }
    destruct ow as [r|e']; cbn [cache_result]; rewrite ?store_run; cbn [effects snd fst].
    + split; [destruct Hshape as [[Haw _]|[Haw Ho]]; [by_actions|discriminate]|].
      intros n0 Hn0 _ _. inversion Hn0; subst n0. split; [|split].
      * apply In_actions. rewrite !actions_app. rewrite !in_app_iff. auto.
      * intros r0 He. rewrite Hdoh in He. discriminate.
      * intros _ _. apply In_actions. rewrite !actions_app. rewrite !in_app_iff. auto.
    + split; [destruct Hshape as [[Haw _]|[Haw Ho]]; by_actions|].
      intros n0 Hn0 _ _. inversion Hn0; subst n0. split; [|split].
      * apply In_actions. rewrite !actions_app. rewrite !in_app_iff. auto.
      * intros r0 He. rewrite Hdoh in He. discriminate.
      * intros _ _. apply In_actions. rewrite !actions_app. rewrite !in_app_iff. auto.
Qed.

(** Without network the DNS-over-HTTPS lookup of [example.com] fails
    and the well-known request follows its request; on the sample
    network it succeeds and no well-known request is issued. *)
Lemma C1_witness :
  (In (DohGet (doh_req Sample.config "example.com"))
      (effects (resolveName Sample.platform Sample.config Sample.offline
                  "example.com" no_options Sample.fresh)) /\
   outcome (dnsOverHttps_lookup Sample.platform Sample.config Sample.offline
              "example.com" Sample.fresh)
   = Throw (Error "Invalid dns-over-https record, must provide json") /\
   In (WellKnownGet (wk_req Sample.config "example.com"))
      (effects (resolveName Sample.platform Sample.config Sample.offline
                  "example.com" no_options Sample.fresh)) /\
   preceded is_DohGet is_WellKnownGet
     (effects (resolveName Sample.platform Sample.config Sample.offline
                 "example.com" no_options Sample.fresh))) /\
  (In (DohGet (doh_req Sample.config "example.com"))
      (effects (resolveName Sample.platform Sample.config Sample.online
                  "example.com" no_options Sample.fresh)) /\
   outcome (dnsOverHttps_lookup Sample.platform Sample.config Sample.online
              "example.com" Sample.fresh)
   = Normal {| key := Str (Sample.key_of "4"); ttl := 0 |} /\
   existsb is_WellKnownGet
     (effects (resolveName Sample.platform Sample.config Sample.online
                 "example.com" no_options Sample.fresh)) = false).
Proof.
  assert (Hn : normalize Sample.platform "example.com" = Normal "example.com"%string)
    by (vm_compute; reflexivity).
  assert (Ht : test (hashRegex Sample.config) "example.com" = false)
    by (vm_compute; reflexivity).
  split.
  - assert (Hfail : outcome (dnsOverHttps_lookup Sample.platform Sample.config Sample.offline
                               "example.com" Sample.fresh)
                    = Throw (Error "Invalid dns-over-https record, must provide json"))
      by (vm_compute; reflexivity).
    destruct (C1_wellknown_only_after_failed_doh Sample.platform Sample.config
                Sample.offline "example.com" no_options Sample.fresh eq_refl eq_refl)
      as [Hord H].
    destruct (H "example.com"%string Hn Ht) as (Hsent & _ & Hwk & _);
      [vm_compute; reflexivity|].
    split; [exact Hsent|]. split; [exact Hfail|]. split; [|exact Hord].
    exact (Hwk _ Hfail).
  - assert (Hok : outcome (dnsOverHttps_lookup Sample.platform Sample.config Sample.online
                             "example.com" Sample.fresh)
                  = Normal {| key := Str (Sample.key_of "4"); ttl := 0 |})
      by (vm_compute; reflexivity).
    destruct (C1_wellknown_only_after_failed_doh Sample.platform Sample.config
                Sample.online "example.com" no_options Sample.fresh eq_refl eq_refl)
      as [_ H].
    destruct (H "example.com"%string Hn Ht) as (Hsent & Hnone & _);
      [vm_compute; reflexivity|].
    split; [exact Hsent|]. split; [exact Hok|].
    exact (Hnone _ Hok).
Defined.

(* ================================================================== *)
(** ** Failure and the persistent cache *)

(** A run of the probes that returns has left the memory cache alone. *)
Lemma run_probes_normal (p : Platform) (cfg : Config) (w : World) (n : string)
    (opts : Options) (c c' : MemoryCache.t) (res : res_var) (t : list effect) :
  run_probes p cfg w n opts c = (Normal res, c', t) ->
  c' = c /\ existsb is_CacheSet t = false /\ existsb is_PersistRead t = false /\
  (res = ResUndefined -> noDnsOverHttps opts = true /\ noWellknownDat opts = true).
Proof.
  intros H.
  destruct (dnsOverHttps_lookup_run p cfg w n c) as (od & td & Hdoh & Had).
  destruct (wellKnown_lookup_run cfg w n c) as (ow & cw & tw & Hwk & Hshape).
  destruct (noDnsOverHttps opts) eqn:Hd; destruct (noWellknownDat opts) eqn:Hw.
  - rewrite run_probes_skipped in H by assumption. inversion H; subst.
    repeat split; try reflexivity.
  - rewrite (run_probes_wk_only p cfg w n opts c cw tw ow Hd Hw Hwk) in H.
    destruct ow as [r|e]; inversion H; subst.
    destruct Hshape as [[Haw ->]|[Haw Ho]]; [|discriminate].
    repeat split; try by_actions; try discriminate.
  - destruct od as [r|e].
    + rewrite (run_probes_doh_ok p cfg w n opts c r td Hd Hdoh) in H. inversion H; subst.
      repeat split; try by_actions; try discriminate.
    + rewrite (run_probes_doh_only_failed p cfg w n opts c e td Hd Hw Hdoh) in H.
      inversion H; subst. repeat split; try by_actions; try discriminate.
  - destruct od as [r|e].
    + rewrite (run_probes_doh_ok p cfg w n opts c r td Hd Hdoh) in H. inversion H; subst.
      repeat split; try by_actions; try discriminate.
    + rewrite (run_probes_fallback p cfg w n opts c cw e td tw ow Hd Hw Hdoh Hwk) in H.
      destruct ow as [r|e']; inversion H; subst.
      destruct Hshape as [[Haw ->]|[Haw Ho]]; [|discriminate].
      repeat split; try by_actions; try discriminate.
Qed.

(** What a run of the probes that throws has done: a probe that was not
    skipped has been tried, and the one tried last is the one that
    failed. *)
Lemma run_probes_throw (p : Platform) (cfg : Config) (w : World) (n : string)
    (opts : Options) (c c' : MemoryCache.t) (e : JsError) (t : list effect) :
  run_probes p cfg w n opts c = (Throw e, c', t) ->
  noWellknownDat opts = false /\
  outcome (wellKnown_lookup cfg w n c) = Throw e /\
  In (WellKnownGet (wk_req cfg n)) t /\
  existsb is_PersistRead t = false /\
  (noDnsOverHttps opts = false ->
   In (DohGet (doh_req cfg n)) t /\
   exists e', outcome (dnsOverHttps_lookup p cfg w n c) = Throw e').
Proof.
  intros H.
  destruct (dnsOverHttps_lookup_run p cfg w n c) as (od & td & Hdoh & Had).
  destruct (wellKnown_lookup_run cfg w n c) as (ow & cw & tw & Hwk & Hshape).
  assert (Hin : In (WellKnownGet (wk_req cfg n)) (actions tw)).
  { destruct Hshape as [[-> _]|[-> _]]; simpl; auto. }
  assert (Hnr : existsb is_PersistRead tw = false).
  { destruct Hshape as [[Haw _]|[Haw _]]; by_actions. }
  destruct (noDnsOverHttps opts) eqn:Hd; destruct (noWellknownDat opts) eqn:Hw.
  - rewrite run_probes_skipped in H by assumption. discriminate.
  - rewrite (run_probes_wk_only p cfg w n opts c cw tw ow Hd Hw Hwk) in H.
    destruct ow as [r|e1]; inversion H; subst.
    rewrite Hwk. repeat split; auto using In_actions; try (intros; discriminate).
  - destruct od as [r|e1].
    + rewrite (run_probes_doh_ok p cfg w n opts c r td Hd Hdoh) in H. discriminate.
    + rewrite (run_probes_doh_only_failed p cfg w n opts c e1 td Hd Hw Hdoh) in H.
      discriminate.
  - destruct od as [r|e1].
    + rewrite (run_probes_doh_ok p cfg w n opts c r td Hd Hdoh) in H. discriminate.
    + rewrite (run_probes_fallback p cfg w n opts c cw e1 td tw ow Hd Hw Hdoh Hwk) in H.
      destruct ow as [r|e2]; inversion H; subst.
      rewrite Hwk, Hdoh. repeat split.
      * apply in_or_app. right. apply In_actions. exact Hin.
      * rewrite existsb_app, Hnr, orb_false_r. by_actions.
      * apply in_or_app. left. apply In_actions. rewrite Had. simpl. auto.
      * eauto.
Qed.

Lemma last_occurrence (P : effect -> bool) (t pre post : list effect) (x y : effect) :
  existsb P t = false ->
  t ++ [y] = pre ++ x :: post ->
  P x = true ->
  pre = t /\ x = y /\ post = [].
Proof.
  revert pre. induction t as [|a t IH]; intros pre Ht Heq Hx.
  - destruct pre as [|b pre]; simpl in Heq.
    + inversion Heq; subst. auto.
    + inversion Heq; subst. destruct pre; discriminate.
  - simpl in Ht. apply orb_false_elim in Ht as [Ha Ht].
    destruct pre as [|b pre]; simpl in Heq; inversion Heq; subst.
    + congruence.
    + destruct (IH pre Ht H1 Hx) as (-> & -> & ->). auto.
Qed.

Section Failure.

Variable p : Platform.
Variable cfg : Config.
Variable w : World.
Variable n : string.
Variable opts : Options.
Variable c : MemoryCache.t.

(** The body of the [try] never reads the persistent cache. *)
Lemma lookup_no_read :
  existsb is_PersistRead (effects (lookup p cfg w n opts c)) = false.
Proof.
  destruct (reaches_probes w opts c n) eqn:Hr.
  2: { rewrite lookup_cached by exact Hr. reflexivity. }
  rewrite lookup_probes by exact Hr. rewrite probes_run.
  destruct (run_probes p cfg w n opts c) as [[[res|e] c1] t1] eqn:Hrun.
  - apply run_probes_normal in Hrun as (-> & _ & Hnr & _).
    destruct res as [| |r]; cbn [cache_result]; rewrite ?store_run;
      cbn [throw effects snd fst]; rewrite !existsb_app, Hnr;
      repeat match goal with |- context [if ?b then _ else _] => destruct b end;
      reflexivity.
  - apply run_probes_throw in Hrun as (_ & _ & _ & Hnr & _).
    cbn [effects snd fst]. rewrite !existsb_app, Hnr.
    destruct (ignoreCache opts); reflexivity.
Qed.

(** When the body of the [try] throws after the memory cache let the
    call through, every probe that was not skipped has been tried and
    has failed. *)
Lemma lookup_throw (e : JsError) :
  reaches_probes w opts c n = true ->
  outcome (lookup p cfg w n opts c) = Throw e ->
  (noDnsOverHttps opts = false ->
   In (DohGet (doh_req cfg n)) (effects (lookup p cfg w n opts c)) /\
   exists e', outcome (dnsOverHttps_lookup p cfg w n c) = Throw e') /\
  (noWellknownDat opts = false ->
   In (WellKnownGet (wk_req cfg n)) (effects (lookup p cfg w n opts c)) /\
   outcome (wellKnown_lookup cfg w n c) = Throw e).
Proof.
  intros Hr. rewrite lookup_probes by exact Hr. rewrite probes_run.
  destruct (run_probes p cfg w n opts c) as [[[res|e1] c1] t1] eqn:Hrun.
  - apply run_probes_normal in Hrun as (-> & _ & _ & Hu).
    destruct res as [| |r]; cbn [cache_result]; rewrite ?store_run;
      cbn [throw outcome effects snd fst]; try discriminate.
    intros _. destruct (Hu eq_refl) as [Hd Hw]. split; intros H; congruence.
  - cbn [outcome effects snd fst]. intros He. inversion He; subst e1.
    apply run_probes_throw in Hrun as (Hw & Ho & Hin & _ & Hd).
    split.
    + intros H. destruct (Hd H) as [Hin' He']. split; [|exact He'].
      apply in_or_app. right. exact Hin'.
    + intros _. split; [|exact Ho]. apply in_or_app. right. exact Hin.
Qed.

End Failure.

(** A DNS-over-HTTPS lookup that fails while the well-known lookup is
    switched off does not make the call fail: [res] is [false], whose
    [ttl] and [key] are [undefined], so the call stores [undefined]
    under the name, returns it, and does not read the persistent
    cache. *)
Lemma lone_doh_failure_returns_undefined (p : Platform) (cfg : Config) (w : World)
    (name : string) (opts : Options) (c : MemoryCache.t) (n : string) (e : JsError) :
  normalize p name = Normal n ->
  test (hashRegex cfg) n = false ->
  reaches_probes w opts c n = true ->
  noDnsOverHttps opts = false ->
  noWellknownDat opts = true ->
  outcome (dnsOverHttps_lookup p cfg w n c) = Throw e ->
  outcome (resolveName p cfg w name opts c) = Normal Undefined /\
  In (CacheSet n Undefined None) (effects (resolveName p cfg w name opts c)) /\
  existsb is_PersistRead (effects (resolveName p cfg w name opts c)) = false.
Proof.
  intros Hn Ht Hr Hd Hw He.
  rewrite (resolveName_lookup p cfg w name opts c n Hn Ht), guarded_lookup_run.
  rewrite lookup_probes by exact Hr. rewrite probes_run.
  destruct (dnsOverHttps_lookup_run p cfg w n c) as (od & td & Hdoh & Had).
  rewrite Hdoh in He. cbn [outcome fst] in He. subst od.
  rewrite (run_probes_doh_only_failed p cfg w n opts c e td Hd Hw Hdoh).
  cbn [cache_result]. rewrite store_run.
  rewrite bool_decide_eq_false_2 by discriminate.
  cbn [outcome effects fst snd].
  split; [reflexivity|]. split.
  - rewrite !in_app_iff. right. right. left. left. reflexivity.
  - by_actions.
Qed.

Example lone_doh_failure_offline :
  outcome (resolveName Sample.platform Sample.config_persistent Sample.offline
             "example.com" Sample.only_DoH Sample.fresh) = Normal Undefined.
Proof. vm_compute. reflexivity. Qed.

(** C2. The code at a call that goes through the lookup.  When the
    body of the [try] throws, the call ends as the claim has it: with
    a persistent cache configured, the result of the call is exactly
    what [read name err] returns or throws, [err] being the error the
    body threw; without one, that error propagates unchanged; the
    persistent cache is read as the last effect of the call, after
    every probe that was not skipped has been tried and has failed,
    and it is not read when the body returns.  A cached miss that is
    honoured, a failed well-known probe and two skipped probes make
    the body throw.  A DNS-over-HTTPS probe that fails while the
    well-known probe is switched off does not: [res] is [false], the
    statements after the probes go on with it, and the call resolves
    with [undefined], having handed [undefined] to [mCache.set],
    without asking the persistent cache. *)
Theorem C2_persistent_cache_and_failure (p : Platform) (cfg : Config) (w : World)
    (name : string) (opts : Options) (c : MemoryCache.t) (n : string) :
  normalize p name = Normal n ->
  test (hashRegex cfg) n = false ->
  (forall e, outcome (lookup p cfg w n opts c) = Throw e ->
     (forall pc, pCache cfg = Some pc ->
        outcome (resolveName p cfg w name opts c) = read pc n e /\
        effects (resolveName p cfg w name opts c)
        = effects (lookup p cfg w n opts c) ++ [PersistRead n e]) /\
     (pCache cfg = None ->
        outcome (resolveName p cfg w name opts c) = Throw e /\
        effects (resolveName p cfg w name opts c) = effects (lookup p cfg w n opts c))) /\
  (forall v, outcome (lookup p cfg w n opts c) = Normal v ->
     outcome (resolveName p cfg w name opts c) = Normal v /\
     existsb is_PersistRead (effects (resolveName p cfg w name opts c)) = false) /\
  (forall pre x post,
     effects (resolveName p cfg w name opts c) = pre ++ x :: post ->
     is_PersistRead x = true ->
     post = [] /\
     exists e,
       x = PersistRead n e /\
       outcome (lookup p cfg w n opts c) = Throw e /\
       is_Some (pCache cfg) /\
       (reaches_probes w opts c n = true ->
        (noDnsOverHttps opts = false ->
         In (DohGet (doh_req cfg n)) pre /\
         exists e', outcome (dnsOverHttps_lookup p cfg w n c) = Throw e') /\
        (noWellknownDat opts = false ->
         In (WellKnownGet (wk_req cfg n)) pre /\
         outcome (wellKnown_lookup cfg w n c) = Throw e))) /\
  (reaches_probes w opts c n = false ->
   truthy (MemoryCache.get c (now w) n) = false ->
   outcome (lookup p cfg w n opts c) = Throw (Error "DNS record not found")) /\
  (reaches_probes w opts c n = true ->
   noDnsOverHttps opts = true -> noWellknownDat opts = true ->
   exists e, outcome (lookup p cfg w n opts c) = Throw e) /\
  (reaches_probes w opts c n = true ->
   noWellknownDat opts = false ->
   (noDnsOverHttps opts = true \/
    exists e', outcome (dnsOverHttps_lookup p cfg w n c) = Throw e') ->
   forall e, outcome (wellKnown_lookup cfg w n c) = Throw e ->
             outcome (lookup p cfg w n opts c) = Throw e) /\
  (reaches_probes w opts c n = true ->
   noDnsOverHttps opts = false ->
   noWellknownDat opts = true ->
   forall e', outcome (dnsOverHttps_lookup p cfg w n c) = Throw e' ->
     outcome (lookup p cfg w n opts c) = Normal Undefined /\
     outcome (resolveName p cfg w name opts c) = Normal Undefined /\
     In (CacheSet n Undefined None) (effects (resolveName p cfg w name opts c)) /\
     existsb is_PersistRead (effects (resolveName p cfg w name opts c)) = false).
Proof.
  intros Hn Ht.
  pose proof (lone_doh_failure_returns_undefined p cfg w name opts c n) as Hlone.
  assert (Hlone' :
    reaches_probes w opts c n = true ->
    noDnsOverHttps opts = false ->
    noWellknownDat opts = true ->
    forall e', outcome (dnsOverHttps_lookup p cfg w n c) = Throw e' ->
      outcome (lookup p cfg w n opts c) = Normal Undefined /\
      outcome (resolveName p cfg w name opts c) = Normal Undefined /\
      In (CacheSet n Undefined None) (effects (resolveName p cfg w name opts c)) /\
      existsb is_PersistRead (effects (resolveName p cfg w name opts c)) = false).
  { intros Hr Hd Hw e' He'.
    destruct (Hlone e' Hn Ht Hr Hd Hw He') as (Ho & Hin & Hnr).
    split; [|split; [exact Ho|split; [exact Hin|exact Hnr]]].
    rewrite lookup_probes, probes_run by exact Hr.
    destruct (dnsOverHttps_lookup_run p cfg w n c) as (od & td & Hdoh & _).
    rewrite Hdoh in He'. cbn [outcome fst] in He'. subst od.
    rewrite (run_probes_doh_only_failed p cfg w n opts c e' td Hd Hw Hdoh).
    cbn [cache_result]. rewrite store_run. reflexivity. }
  clear Hlone. revert Hlone'.
  rewrite (resolveName_lookup p cfg w name opts c n Hn Ht), guarded_lookup_run.
  intros Hlone.
  pose proof (lookup_no_read p cfg w n opts c) as Hnr.
  pose proof (lookup_throw p cfg w n opts c) as Hthrow.
  assert (Hkinds :
    (reaches_probes w opts c n = false ->
     truthy (MemoryCache.get c (now w) n) = false ->
     outcome (lookup p cfg w n opts c) = Throw (Error "DNS record not found")) /\
    (reaches_probes w opts c n = true ->
     noDnsOverHttps opts = true -> noWellknownDat opts = true ->
     exists e, outcome (lookup p cfg w n opts c) = Throw e) /\
    (reaches_probes w opts c n = true ->
     noWellknownDat opts = false ->
     (noDnsOverHttps opts = true \/
      exists e', outcome (dnsOverHttps_lookup p cfg w n c) = Throw e') ->
     forall e, outcome (wellKnown_lookup cfg w n c) = Throw e ->
               outcome (lookup p cfg w n opts c) = Throw e)).
  { split; [|split].
    - intros Hr Hf. rewrite lookup_cached by exact Hr. rewrite Hf. reflexivity.
    - intros Hr Hd Hw. rewrite lookup_probes, probes_run by exact Hr.
      rewrite run_probes_skipped by assumption. cbn. eauto.
    - intros Hr Hw Hdoh e He. rewrite lookup_probes, probes_run by exact Hr.
      destruct (wellKnown_lookup cfg w n c) as [[ow cw] tw] eqn:Hwk.
      cbn [outcome fst] in He. subst ow.
      destruct (dnsOverHttps_lookup_run p cfg w n c) as (od & td & Hd' & _).
      destruct (noDnsOverHttps opts) eqn:Hd.
      + rewrite (run_probes_wk_only p cfg w n opts c cw tw _ Hd Hw Hwk). reflexivity.
      + destruct Hdoh as [Hdoh|[e' He']]; [discriminate|].
        rewrite Hd' in He'. cbn [outcome fst] in He'. subst od.
        rewrite (run_probes_fallback p cfg w n opts c cw e' td tw _ Hd Hw Hd' Hwk).
        reflexivity. }
  destruct Hkinds as (Hk1 & Hk2 & Hk3).
  destruct (lookup p cfg w n opts c) as [[[v|e] c1] t1] eqn:Hl;
    cbn [outcome effects fst snd] in *.
  - split; [|split; [|split; [|split; [|split; [|split]]]]];
      [| | |exact Hk1|exact Hk2|exact Hk3|exact Hlone].
    + intros e He. discriminate.
    + intros v' Hv. inversion Hv; subst. split; [reflexivity|exact Hnr].
    + intros pre x post Heq Hx. exfalso.
      assert (H : existsb is_PersistRead (pre ++ x :: post) = true).
      { rewrite existsb_app. simpl. rewrite Hx. apply orb_true_iff. right. reflexivity. }
      rewrite <- Heq in H. congruence.
  - split; [|split; [|split; [|split; [|split; [|split]]]]];
      [| | |exact Hk1|exact Hk2|exact Hk3|exact Hlone].
    + intros e' He. inversion He; subst e'. split.
      * intros pc Hpc. unfold failure_outcome. rewrite Hpc. split; [reflexivity|].
        rewrite bool_decide_eq_true_2 by eauto. reflexivity.
      * intros Hpc. unfold failure_outcome. rewrite Hpc. split; [reflexivity|].
        rewrite bool_decide_eq_false_2 by (intros [x Hx]; discriminate).
        apply app_nil_r.
    + intros v Hv. discriminate.
    + intros pre x post Heq Hx.
      destruct (bool_decide (is_Some (pCache cfg))) eqn:Hb.
      * destruct (last_occurrence is_PersistRead t1 pre post x _ Hnr Heq Hx) as (-> & -> & ->).
        split; [reflexivity|]. exists e. split; [reflexivity|]. split; [reflexivity|].
        split; [apply bool_decide_eq_true in Hb; exact Hb|].
        intros Hr. exact (Hthrow e Hr eq_refl).
      * rewrite app_nil_r in Heq. exfalso.
        assert (H' : existsb is_PersistRead (pre ++ x :: post) = true).
        { rewrite existsb_app. simpl. rewrite Hx. apply orb_true_iff. right. reflexivity. }
        rewrite <- Heq in H'. congruence.
Qed.

(** With the persistent cache of the test 'Persistent fallback cache'
    and no network, [resolveName('foo')] fails in both probes and
    returns the key that the persistent cache holds; with
    [noWellknownDat] the DNS-over-HTTPS probe fails as before, the
    persistent cache would answer the error with the key, and the call
    returns [undefined] without asking it. *)
Lemma C2_witness :
  outcome (resolveName Sample.platform Sample.config_persistent Sample.offline
             "foo" no_options Sample.fresh)
  = Normal (Str (Sample.key_of "4")) /\
  outcome (dnsOverHttps_lookup Sample.platform Sample.config_persistent Sample.offline
             "foo" Sample.fresh)
  = Throw (Error "Domain is not a FQDN.") /\
  read Sample.knows_foo "foo" (Error "Domain is not a FQDN.")
  = Normal (Str (Sample.key_of "4")) /\
  outcome (resolveName Sample.platform Sample.config_persistent Sample.offline
             "foo" Sample.only_DoH Sample.fresh)
  = Normal Undefined /\
  existsb is_PersistRead
    (effects (resolveName Sample.platform Sample.config_persistent Sample.offline
                "foo" Sample.only_DoH Sample.fresh)) = false.
Proof.
  assert (Hn : normalize Sample.platform "foo" = Normal "foo"%string)
    by (vm_compute; reflexivity).
  assert (Ht : test (hashRegex Sample.config_persistent) "foo" = false)
    by (vm_compute; reflexivity).
  assert (Hdoh : outcome (dnsOverHttps_lookup Sample.platform Sample.config_persistent
                            Sample.offline "foo" Sample.fresh)
                 = Throw (Error "Domain is not a FQDN."))
    by (vm_compute; reflexivity).
  split; [|split; [exact Hdoh|split; [vm_compute; reflexivity|]]].
  - destruct (C2_persistent_cache_and_failure Sample.platform Sample.config_persistent
                Sample.offline "foo" no_options Sample.fresh "foo" Hn Ht) as [Hfail _].
    destruct (Hfail (Error "DNS record not found")) as [Hread _];
      [vm_compute; reflexivity|].
    destruct (Hread Sample.knows_foo eq_refl) as [Ho _].
    rewrite Ho. vm_compute. reflexivity.
  - destruct (C2_persistent_cache_and_failure Sample.platform Sample.config_persistent
                Sample.offline "foo" Sample.only_DoH Sample.fresh "foo" Hn Ht)
      as (_ & _ & _ & _ & _ & _ & Hlone).
    assert (Hr : reaches_probes Sample.offline Sample.only_DoH Sample.fresh "foo" = true)
      by (vm_compute; reflexivity).
    destruct (Hlone Hr eq_refl eq_refl _ Hdoh) as (_ & Ho & _ & Hnr).
    split; [exact Ho|exact Hnr].
Defined.

(* ================================================================== *)
(** ** The negative cache entry *)

Lemma filter_actions (P : effect -> bool) (t : list effect) :
  (forall e, is_Emit e = true -> P e = false) ->
  List.filter P t = List.filter P (actions t).
Proof.
  intros HP. induction t as [|e t IH]; simpl; auto.
  destruct (is_Emit e) eqn:He; simpl.
  - rewrite (HP e He). exact IH.
  - rewrite IH. reflexivity.
Qed.

(** The probes either do without the well-known lookup, and then they
    return and leave the memory cache alone, or they end with it. *)
Lemma run_probes_cases (p : Platform) (cfg : Config) (w : World) (n : string)
    (opts : Options) (c : MemoryCache.t) :
  (exists res t,
     run_probes p cfg w n opts c = (Normal res, c, t) /\
     actions t = (if noDnsOverHttps opts then [] else [DohGet (doh_req cfg n)])) \/
  (exists tpre,
     actions tpre = (if noDnsOverHttps opts then [] else [DohGet (doh_req cfg n)]) /\
     run_probes p cfg w n opts c =
     match wellKnown_lookup cfg w n c with
     | (ow, cw, tw) =>
       (match ow with Normal r => Normal (ResObject r) | Throw e => Throw e end,
        cw, tpre ++ tw)
     end).
Proof.
  destruct (dnsOverHttps_lookup_run p cfg w n c) as (od & td & Hdoh & Had).
  destruct (noDnsOverHttps opts) eqn:Hd; destruct (noWellknownDat opts) eqn:Hw.
  - left. rewrite run_probes_skipped by assumption. eauto.
  - right. exists []. split; [reflexivity|].
    destruct (wellKnown_lookup cfg w n c) as [[ow cw] tw] eqn:Hwk.
    apply (run_probes_wk_only p cfg w n opts c cw tw ow Hd Hw Hwk).
  - left. destruct od as [r|e].
    + rewrite (run_probes_doh_ok p cfg w n opts c r td Hd Hdoh). eauto.
    + rewrite (run_probes_doh_only_failed p cfg w n opts c e td Hd Hw Hdoh). eauto.
  - destruct od as [r|e].
    + left. rewrite (run_probes_doh_ok p cfg w n opts c r td Hd Hdoh). eauto.
    + right. exists td. split; [exact Had|].
      destruct (wellKnown_lookup cfg w n c) as [[ow cw] tw] eqn:Hwk.
      apply (run_probes_fallback p cfg w n opts c cw e td tw ow Hd Hw Hdoh Hwk).
Qed.

(** C5. When the well-known request of a call comes back with status 0
    or 404, the call writes a miss for the normalized name into the
    memory cache with a ttl of exactly 60 (its only write) and fails
    with "DNS record not found"; with any other status but 200 it fails
    with that error without writing to the memory cache at all.  The
    failure is subject to the persistent cache as every failure is. *)
Theorem C5_negative_entry_on_not_found (p : Platform) (cfg : Config) (w : World)
    (name : string) (opts : Options) (c : MemoryCache.t) (n : string) :
  normalize p name = Normal n ->
  existsb is_WellKnownGet (effects (resolveName p cfg w name opts c)) = true ->
  (statusCode (https_get w (wk_req cfg n)) = 0 \/
   statusCode (https_get w (wk_req cfg n)) = 404 ->
   List.filter is_CacheSet (effects (resolveName p cfg w name opts c))
   = [CacheSet n (Bool false) (Some 60)] /\
   cache_after (resolveName p cfg w name opts c)
   = MemoryCache.set c (now w) n (Bool false) (Some 60) /\
   MemoryCache.entries (cache_after (resolveName p cfg w name opts c)) !! n
   = Some {| MemoryCache.value := Bool false; MemoryCache.expiresAt := now w + 60 |} /\
   outcome (resolveName p cfg w name opts c)
   = failure_outcome cfg n (Error "DNS record not found")) /\
  (statusCode (https_get w (wk_req cfg n)) <> 0 ->
   statusCode (https_get w (wk_req cfg n)) <> 404 ->
   statusCode (https_get w (wk_req cfg n)) <> 200 ->
   existsb is_CacheSet (effects (resolveName p cfg w name opts c)) = false /\
   cache_after (resolveName p cfg w name opts c) = c /\
   outcome (resolveName p cfg w name opts c)
   = failure_outcome cfg n (Error "DNS record not found")).
Proof.
  intros Hn.
  destruct (test (hashRegex cfg) n) eqn:Ht.
  { rewrite (resolveName_key p cfg w name opts c n Hn Ht). cbn. discriminate. }
  rewrite (resolveName_lookup p cfg w name opts c n Hn Ht), guarded_lookup_run.
  destruct (reaches_probes w opts c n) eqn:Hr.
  2: { rewrite lookup_cached by exact Hr.
       destruct (truthy _); cbn; [discriminate|].
       destruct (bool_decide (is_Some (pCache cfg))); discriminate. }
  rewrite lookup_probes by exact Hr. rewrite probes_run.
  destruct (run_probes_cases p cfg w n opts c) as [(res & t & -> & Ha)|(tpre & Hpre & ->)].
  { destruct res as [| |r]; cbn [cache_result]; rewrite ?store_run;
      cbn [throw effects snd fst]; intros Hwk; exfalso; revert Hwk;
      rewrite (existsb_actions is_WellKnownGet) by trace_facts;
      rewrite ?actions_app, Ha;
      repeat match goal with |- context [if ?b then _ else _] => destruct b end;
      discriminate. }
  intros _. split.
  - intros Hs.
    destruct (wellKnown_lookup_not_found cfg w n c Hs) as (tw & -> & Hw).
    cbn [effects cache_after outcome fst snd].
    split; [|split; [reflexivity|split; [|reflexivity]]].
    + rewrite (filter_actions is_CacheSet) by trace_facts.
      rewrite !actions_app, Hpre, Hw.
      repeat match goal with |- context [if ?b then _ else _] => destruct b end;
        reflexivity.
    + unfold MemoryCache.set. cbn. apply lookup_insert_eq.
  - intros H0 H404 H200.
    destruct (wellKnown_lookup_http_error cfg w n c H0 H404 H200) as (tw & -> & Hw).
    cbn [effects cache_after outcome fst snd].
    split; [|split; reflexivity].
    rewrite (existsb_actions is_CacheSet) by trace_facts.
    rewrite !actions_app, Hpre, Hw.
    repeat match goal with |- context [if ?b then _ else _] => destruct b end;
      reflexivity.
Qed.

Lemma C5_witness :
  normalize Sample.platform "example.com" = Normal "example.com"%string /\
  List.filter is_CacheSet
    (effects (resolveName Sample.platform Sample.config Sample.offline
                "example.com" no_options Sample.fresh))
  = [CacheSet "example.com" (Bool false) (Some 60)] /\
  existsb is_CacheSet
    (effects (resolveName Sample.platform Sample.config Sample.unavailable
                "example.com" no_options Sample.fresh)) = false.
Proof.
  assert (Hn : normalize Sample.platform "example.com" = Normal "example.com"%string)
    by (vm_compute; reflexivity).
  split; [exact Hn|]. split.
  - destruct (C5_negative_entry_on_not_found Sample.platform Sample.config Sample.offline
                "example.com" no_options Sample.fresh "example.com" Hn)
      as [H _]; [vm_compute; reflexivity|].
    destruct H as [H _]; [left; vm_compute; reflexivity|]. exact H.
  - destruct (C5_negative_entry_on_not_found Sample.platform Sample.config Sample.unavailable
                "example.com" no_options Sample.fresh "example.com" Hn)
      as [_ H]; [vm_compute; reflexivity|].
    destruct H as [H _]; try (vm_compute; discriminate). exact H.
Defined.

(* ================================================================== *)
(** ** Results that are not to be cached *)

(** C9. When the probes of a call succeed with a result whose ttl is 0,
    the call returns the key of that result and leaves the memory cache
    as it found it: it makes no write to the memory cache. *)
Theorem C9_zero_ttl_not_cached (p : Platform) (cfg : Config) (w : World)
    (name : string) (opts : Options) (c c1 : MemoryCache.t) (n : string)
    (res : ProbeResult) (t : list effect) :
  normalize p name = Normal n ->
  test (hashRegex cfg) n = false ->
  reaches_probes w opts c n = true ->
  run_probes p cfg w n opts c = (Normal (ResObject res), c1, t) ->
  ttl res = 0 ->
  outcome (resolveName p cfg w name opts c) = Normal (key res) /\
  cache_after (resolveName p cfg w name opts c) = c /\
  existsb is_CacheSet (effects (resolveName p cfg w name opts c)) = false.
Proof.
  intros Hn Ht Hr Hrun Hz.
  rewrite (resolveName_lookup p cfg w name opts c n Hn Ht), guarded_lookup_run.
  rewrite lookup_probes by exact Hr. rewrite probes_run, Hrun.
  apply run_probes_normal in Hrun as (-> & Hns & _ & _).
  cbn [cache_result]. rewrite store_run, Hz.
  cbn [outcome cache_after effects fst snd].
  rewrite bool_decide_eq_true_2 by reflexivity.
  split; [reflexivity|]. split; [reflexivity|].
  rewrite !existsb_app, Hns.
  destruct (ignoreCache opts); destruct (bool_decide (is_Some (pCache cfg))); reflexivity.
Qed.

Lemma C9_witness :
  outcome (resolveName Sample.platform Sample.config Sample.online
             "example.com" no_options Sample.fresh)
  = Normal (Str (Sample.key_of "4")) /\
  cache_after (resolveName Sample.platform Sample.config Sample.online
                 "example.com" no_options Sample.fresh) = Sample.fresh /\
  existsb is_CacheSet
    (effects (resolveName Sample.platform Sample.config Sample.online
                "example.com" no_options Sample.fresh)) = false.
Proof.
  apply (C9_zero_ttl_not_cached Sample.platform Sample.config Sample.online
           "example.com" no_options Sample.fresh Sample.fresh "example.com"
           {| key := Str (Sample.key_of "4"); ttl := 0 |}
           (effects (run_probes Sample.platform Sample.config Sample.online
                       "example.com" no_options Sample.fresh)));
    vm_compute; reflexivity.
Defined.

(* ================================================================== *)
(** ** Names without a dot, and the empty name *)

(** C7. The code at a name without a dot: [fetchDnsOverHttpsRecord]
    rejects with the not-a-FQDN error, but only after it has gone on to
    issue the request, for the name as it is. *)
Theorem C7_request_issued_without_dot (w : World) (name : string)
    (cfg_host : string) (cfg_port : Z) (cfg_path : string) (c : MemoryCache.t) :
  includes name "." = false ->
  outcome (fetchDnsOverHttpsRecord w name cfg_host cfg_port cfg_path c)
  = Throw (Error "Domain is not a FQDN.") /\
  effects (fetchDnsOverHttpsRecord w name cfg_host cfg_port cfg_path c)
  = [Emit (Failed "dns-over-https" name (Text "Name is not a FQDN"));
     DohGet (doh_request cfg_host cfg_port cfg_path name)] /\
  existsb is_network (effects (fetchDnsOverHttpsRecord w name cfg_host cfg_port cfg_path c))
  = true.
Proof.
  intros Hdot.
  unfold fetchDnsOverHttpsRecord, bind, when, emit, tell, ret, throw.
  rewrite Hdot. cbn. repeat split.
Qed.

Lemma C7_witness :
  outcome (fetchDnsOverHttpsRecord Sample.offline "bad-dat-domain-name"
             "dns.google" 443 "/resolve" Sample.fresh)
  = Throw (Error "Domain is not a FQDN.") /\
  effects (fetchDnsOverHttpsRecord Sample.offline "bad-dat-domain-name"
             "dns.google" 443 "/resolve" Sample.fresh)
  = [Emit (Failed "dns-over-https" "bad-dat-domain-name" (Text "Name is not a FQDN"));
     DohGet (doh_request "dns.google" 443 "/resolve" "bad-dat-domain-name")] /\
  existsb is_network
    (effects (fetchDnsOverHttpsRecord Sample.offline "bad-dat-domain-name"
                "dns.google" 443 "/resolve" Sample.fresh)) = true.
Proof.
  apply (C7_request_issued_without_dot Sample.offline "bad-dat-domain-name"
           "dns.google" 443 "/resolve" Sample.fresh).
  vm_compute. reflexivity.
Defined.

(** The lazy [{64}?] of the key pattern against an optional group,
    [/^(?:[0-9a-f]{64})?$/i]: only the latter accepts the empty
    string. *)
Example lazy_is_not_optional :
  test DAT_HASH_REGEX "" = false /\
  test {| source := "/^(?:[0-9a-f]{64})?$/i";
          pattern := Cat Bol (Cat (opt (exactly 64 true hex)) Eol);
          ignoreCase := true |} "" = true.
Proof. vm_compute. split; reflexivity. Qed.

(** C10, as the spec has it, fails: ["+5"] normalizes to the empty
    string, which the key pattern rejects; the call goes on to the
    memory cache and the network and fails. *)
Lemma C10_counterexample :
  normalize Sample.platform "+5" = Normal ""%string /\
  test DAT_HASH_REGEX "" = false /\
  outcome (resolveName Sample.platform Sample.config Sample.offline
             "+5" no_options Sample.fresh)
  = Throw (Error "DNS record not found") /\
  existsb is_network
    (effects (resolveName Sample.platform Sample.config Sample.offline
                "+5" no_options Sample.fresh)) = true /\
  existsb is_CacheGet
    (effects (resolveName Sample.platform Sample.config Sample.offline
                "+5" no_options Sample.fresh)) = true /\
  cache_after (resolveName Sample.platform Sample.config Sample.offline
                 "+5" no_options Sample.fresh) <> Sample.fresh.
Proof. vm_compute. repeat split. discriminate. Qed.

(** C10, amended. For every input whose normalized form is the empty
    string, the default key pattern does not match (its [{64}?] repeats
    exactly 64 times), so [resolveName] does not return at once: it
    runs the lookup of the empty name, which reads the memory cache
    first unless told to ignore it; past the cache, the DNS-over-HTTPS
    lookup fails for want of a dot and, unless it is switched off, the
    well-known request follows. *)
Theorem C10_empty_name_is_looked_up (p : Platform) (cfg : Config) (w : World)
    (name : string) (opts : Options) (c : MemoryCache.t) :
  hashRegex cfg = DAT_HASH_REGEX ->
  normalize p name = Normal ""%string ->
  test DAT_HASH_REGEX "" = false /\
  resolveName p cfg w name opts c
  = try_catch (lookup p cfg w "" opts) (on_failure cfg "") c /\
  (ignoreCache opts = false ->
   exists t, effects (resolveName p cfg w name opts c) = CacheGet "" :: t) /\
  (reaches_probes w opts c "" = true ->
   noDnsOverHttps opts = false ->
   outcome (dnsOverHttps_lookup p cfg w "" c) = Throw (Error "Domain is not a FQDN.") /\
   (noWellknownDat opts = false ->
    In (WellKnownGet (wk_req cfg "")) (effects (resolveName p cfg w name opts c)))).
Proof.
  intros Hcfg Hn.
  assert (Ht : test (hashRegex cfg) "" = false) by (rewrite Hcfg; vm_compute; reflexivity).
  split; [vm_compute; reflexivity|].
  rewrite (resolveName_lookup p cfg w name opts c "" Hn Ht).
  split; [reflexivity|].
  rewrite guarded_lookup_run. split.
  - intros Hi. destruct (reaches_probes w opts c "") eqn:Hr.
    + rewrite lookup_probes by exact Hr. rewrite Hi.
      destruct (probes p cfg w "" opts c) as [[[v|e] c1] t1]; cbn; eauto.
    + rewrite lookup_cached by exact Hr. destruct (truthy _); cbn; eauto.
  - intros Hr Hd.
    pose proof (dnsOverHttps_lookup_not_fqdn p cfg w "" c eq_refl) as Hdoh.
    split; [rewrite Hdoh; reflexivity|].
    intros Hw.
    destruct (wellKnown_lookup_run cfg w "" c) as (ow & cw & tw & Hwk & Hshape).
    assert (Hin : In (WellKnownGet (wk_req cfg "")) tw).
    { apply In_actions. destruct Hshape as [[-> _]|[-> _]]; simpl; auto. }
    rewrite lookup_probes by exact Hr. rewrite probes_run.
    rewrite (run_probes_fallback p cfg w "" opts c cw _ _ tw ow Hd Hw Hdoh Hwk).
    destruct ow as [r|e].
    + destruct (cache_result cfg w "" (ResObject r) cw) as [[[v|e] c2] t2];
        cbn [effects snd]; rewrite ?in_app_iff; simpl; auto.
    + cbn [effects snd]; rewrite ?in_app_iff; simpl; auto.
Qed.

Lemma C10_witness :
  test DAT_HASH_REGEX "" = false /\
  resolveName Sample.platform Sample.config Sample.offline "+5" no_options Sample.fresh
  = try_catch (lookup Sample.platform Sample.config Sample.offline "" no_options)
              (on_failure Sample.config "") Sample.fresh /\
  (ignoreCache no_options = false ->
   exists t, effects (resolveName Sample.platform Sample.config Sample.offline
                        "+5" no_options Sample.fresh) = CacheGet "" :: t) /\
  (reaches_probes Sample.offline no_options Sample.fresh "" = true ->
   noDnsOverHttps no_options = false ->
   outcome (dnsOverHttps_lookup Sample.platform Sample.config Sample.offline "" Sample.fresh)
   = Throw (Error "Domain is not a FQDN.") /\
   (noWellknownDat no_options = false ->
    In (WellKnownGet (wk_req Sample.config ""))
       (effects (resolveName Sample.platform Sample.config Sample.offline
                   "+5" no_options Sample.fresh)))).
Proof.
  apply (C10_empty_name_is_looked_up Sample.platform Sample.config Sample.offline
           "+5" no_options Sample.fresh); vm_compute; reflexivity.
Defined.

(* ================================================================== *)
(** ** The ttl of a result *)

Lemma limit_ttl_as_specified (raw : Js.value) : ttl_as_specified raw (limit_ttl raw).
Proof.
  unfold ttl_as_specified, limit_ttl, DEFAULT_DAT_DNS_TTL, MAX_DAT_DNS_TTL.
  change (3600 * 24 * 7) with 604800.
  split; [|split].
  - intros [Hns|(z & -> & Hz)].
    + destruct raw as [| | |[z| |]| | |]; try reflexivity.
      rewrite Hns. reflexivity.
    + apply Z.ltb_lt in Hz. rewrite Hz, orb_true_r. reflexivity.
  - intros z -> Hs H0 Hmax. rewrite Hs.
    apply Z.ltb_ge in H0. rewrite H0. cbn [negb orb].
    destruct (z >? 604800) eqn:E; [reflexivity|]. lia.
  - intros z -> Hs H0 Hmax. rewrite Hs.
    apply Z.ltb_ge in H0. rewrite H0. cbn [negb orb].
    destruct (z >? 604800) eqn:E; [lia|reflexivity].
Qed.

Lemma parseWellknownDatRecord_ttl (name body : string) (re : RegExp) (rn : string)
    (c : MemoryCache.t) (r : ProbeResult) :
  outcome (parseWellknownDatRecord name body re rn c) = Normal r ->
  ttl r = limit_ttl (ttl_line_value body).
Proof.
  unfold parseWellknownDatRecord, ttl_line_value.
  destruct (String.eqb body ""); [cbn; discriminate|].
  destruct (exec _ _) as [m|]; [|cbn; discriminate].
  unfold bind, try_catch, lift, emit, tell, ret.
  destruct (parse_ttl_line _) as [v|e]; cbn; intros H; inversion H; subst; reflexivity.
Qed.

(** C6. The ttl of every result of a probe follows the policy of the
    spec, applied to the [TTL] field of the answer that won
    (DNS-over-HTTPS) or to the ttl line (well-known): the default,
    3600, for a raw ttl that is not a safe integer or is negative;
    otherwise the maximum, 604800, for one above the maximum; otherwise
    the raw ttl unchanged. *)
Theorem C6_ttl_follows_policy :
  DEFAULT_DAT_DNS_TTL = 3600 /\
  MAX_DAT_DNS_TTL = 604800 /\
  (forall (p : Platform) (name body : string) (re : RegExp) (c : MemoryCache.t)
          (r : ProbeResult),
     outcome (parseDnsOverHttpsRecord p name body re c) = Normal r ->
     exists record items a others,
       JSON_parse p body = Some record /\
       Js.get record "Answer" = Normal (Arr items) /\
       Js.sort by_key_descending (candidates re items) = (a, key r) :: others /\
       ttl_as_specified (answer_ttl a) (ttl r)) /\
  (forall (name body : string) (re : RegExp) (rn : string) (c : MemoryCache.t)
          (r : ProbeResult),
     outcome (parseWellknownDatRecord name body re rn c) = Normal r ->
     ttl_as_specified (ttl_line_value body) (ttl r)).
Proof.
  split; [reflexivity|]. split; [reflexivity|]. split.
  - intros p name body re c r H.
    destruct (parseDnsOverHttpsRecord_result p name body re c r H)
      as (record & items & a & others & H1 & H2 & H3 & H4).
    exists record, items, a, others. rewrite H4.
    repeat split; auto; apply limit_ttl_as_specified.
  - intros name body re rn c r H.
    rewrite (parseWellknownDatRecord_ttl name body re rn c r H).
    apply limit_ttl_as_specified.
Qed.

Lemma C6_witness :
  ttl_as_specified (ttl_line_value ("dat://" +:+ Sample.key_of "b"
                                    +:+ String newline "TTL=100000000"))
                   604800 /\
  ttl_as_specified (ttl_line_value ("dat://" +:+ Sample.key_of "b"
                                    +:+ String newline "ttl=soon"))
                   3600.
Proof.
  destruct C6_ttl_follows_policy as (_ & _ & _ & Hwk).
  split.
  - apply (Hwk "example.com"%string _ DAT_PROTOCOL_REGEX "dat"%string Sample.fresh
             {| key := Str (Sample.key_of "b"); ttl := 604800 |}).
    vm_compute. reflexivity.
  - apply (Hwk "example.com"%string _ DAT_PROTOCOL_REGEX "dat"%string Sample.fresh
             {| key := Str (Sample.key_of "b"); ttl := 3600 |}).
    vm_compute. reflexivity.
Defined.

(* ================================================================== *)
(** ** The order of keys *)

Lemma ascii_compare_lt_trans (a b c : ascii) :
  Ascii.compare a b = Lt -> Ascii.compare b c = Lt -> Ascii.compare a c = Lt.
Proof.
  unfold Ascii.compare. rewrite !N.compare_lt_iff. lia.
Qed.

Lemma string_compare_lt_trans (s1 : string) :
  forall s2 s3, String.compare s1 s2 = Lt -> String.compare s2 s3 = Lt ->
                String.compare s1 s3 = Lt.
Proof.
  induction s1 as [|a s1 IH]; intros [|b s2] [|c s3]; simpl; try congruence.
  destruct (Ascii.compare a b) eqn:Eab; try discriminate;
    destruct (Ascii.compare b c) eqn:Ebc; try discriminate; intros H12 H23.
  - apply Ascii.compare_eq_iff in Eab, Ebc. subst.
    replace (Ascii.compare c c) with Eq
      by (symmetry; unfold Ascii.compare; apply N.compare_refl).
    eauto.
  - apply Ascii.compare_eq_iff in Eab. subst. rewrite Ebc. reflexivity.
  - apply Ascii.compare_eq_iff in Ebc. subst. rewrite Eab. reflexivity.
  - rewrite (ascii_compare_lt_trans a b c Eab Ebc). reflexivity.
Qed.

Lemma string_compare_refl (s : string) : String.compare s s = Eq.
Proof.
  induction s as [|a s IH]; simpl; auto.
  replace (Ascii.compare a a) with Eq
    by (symmetry; unfold Ascii.compare; apply N.compare_refl).
  exact IH.
Qed.

Lemma string_leb_refl (s : string) : String.leb s s = true.
Proof. unfold String.leb. rewrite string_compare_refl. reflexivity. Qed.

Lemma string_leb_trans (s1 s2 s3 : string) :
  String.leb s1 s2 = true -> String.leb s2 s3 = true -> String.leb s1 s3 = true.
Proof.
  unfold String.leb.
  destruct (String.compare s1 s2) eqn:E12; try discriminate;
    destruct (String.compare s2 s3) eqn:E23; try discriminate; intros _ _.
  - apply String.compare_eq_iff in E12, E23. subst. rewrite string_compare_refl. reflexivity.
  - apply String.compare_eq_iff in E12. subst. rewrite E23. reflexivity.
  - apply String.compare_eq_iff in E23. subst. rewrite E12. reflexivity.
  - rewrite (string_compare_lt_trans s1 s2 s3 E12 E23). reflexivity.
Qed.

(** In the order of [sort], [x] may stand before [y] exactly when the
    key of [y] is at most the key of [x]. *)
Lemma by_key_descending_le (a b : Js.value) (k1 k2 : string) :
  (by_key_descending (a, Str k1) (b, Str k2) <=? 0) = String.leb k2 k1.
Proof.
  unfold by_key_descending, Js.lt, String.ltb, String.leb. cbn [snd].
  rewrite (String.compare_antisym k1 k2).
  destruct (String.compare k2 k1); reflexivity.
Qed.

Section SortHead.

Context {A : Type} (cmp : A -> A -> Z).

Lemma sort_insert_head (x : A) (l : list A) :
  head (sort_insert cmp x l) =
  Some (match head l with
        | None => x
        | Some h => if cmp x h <=? 0 then x else h
        end).
Proof.
  destruct l as [|h l]; simpl; [reflexivity|].
  destruct (cmp x h <=? 0); reflexivity.
Qed.

Lemma sort_head (x : A) (l : list A) :
  head (Js.sort cmp (x :: l)) =
  Some (match head (Js.sort cmp l) with
        | None => x
        | Some h => if cmp x h <=? 0 then x else h
        end).
Proof. simpl. apply sort_insert_head. Qed.

Lemma sort_head_None (l : list A) : head (Js.sort cmp l) = None -> l = [].
Proof.
  destruct l as [|x l]; [reflexivity|]. rewrite sort_head. discriminate.
Qed.

End SortHead.

(** The head of the sorted candidates carries the greatest key. *)
Lemma sort_head_greatest (l : list (Js.value * Js.value)) :
  keys_are_strings l ->
  forall a kv,
    head (Js.sort by_key_descending l) = Some (a, kv) ->
    exists k, kv = Str k /\ In (a, Str k) l /\
              forall b k', In (b, Str k') l -> String.leb k' k = true.
Proof.
  induction l as [|[x kx] l IH]; intros Hstr a kv Hhd.
  - discriminate.
  - rewrite sort_head in Hhd.
    assert (Hstr' : keys_are_strings l) by (intros b kb Hb; eapply Hstr; right; eauto).
    destruct (Hstr x kx (or_introl eq_refl)) as [k0 ->].
    destruct (head (Js.sort by_key_descending l)) as [[h kh]|] eqn:Hh.
    + destruct (IH Hstr' h kh eq_refl) as (k1 & -> & Hin & Hmax).
      rewrite by_key_descending_le in Hhd.
      destruct (String.leb k1 k0) eqn:Hle; inversion Hhd; subst.
      * exists k0. split; [reflexivity|]. split; [left; reflexivity|].
        intros b k' [Heq|Hb].
        -- inversion Heq; subst. apply string_leb_refl.
        -- eapply string_leb_trans; [eapply Hmax; eauto|exact Hle].
      * exists k1. split; [reflexivity|]. split; [right; exact Hin|].
        intros b k' [Heq|Hb].
        -- inversion Heq; subst.
           destruct (String.leb_total k' k1) as [H|H]; [exact H|congruence].
        -- eapply Hmax; eauto.
    + apply sort_head_None in Hh. subst l. inversion Hhd; subst.
      exists k0. split; [reflexivity|]. split; [left; reflexivity|].
      intros b k' [Heq|[]]. inversion Heq; subst. apply string_leb_refl.
Qed.

Lemma candidates_keys_are_strings (re : RegExp) (items : list Js.value) :
  always_captures (pattern re) = true ->
  keys_are_strings (candidates re items).
Proof.
  intros Ha a kv Hin. unfold candidates in Hin.
  apply list_elem_of_In in Hin. apply list_elem_of_omap in Hin as (v & _ & Hc).
  unfold candidate in Hc.
  destruct v as [| | | | | |props]; try discriminate.
  destruct (assoc "data" props) as [| | | |data| |]; try discriminate.
  destruct (exec re data) as [m|] eqn:Hm; [|discriminate].
  inversion Hc; subst. eapply exec_always_captures; eauto.
Qed.

Lemma In_candidate_keys (re : RegExp) (items : list Js.value) (k : string) :
  In k (candidate_keys re items) <-> exists a, In (a, Str k) (candidates re items).
Proof.
  unfold candidate_keys. rewrite <- list_elem_of_In, list_elem_of_omap. split.
  - intros ([a kv] & Hin & Hk). cbn in Hk. destruct kv; try discriminate.
    inversion Hk; subst. exists a. apply list_elem_of_In. exact Hin.
  - intros [a Hin]. exists (a, Str k). split; [apply list_elem_of_In; exact Hin|reflexivity].
Qed.

(** With a candidate among the answers, [parseDnsOverHttpsRecord]
    returns, and what it returns is read off the head of the sorted
    candidates. *)
Lemma parseDnsOverHttpsRecord_candidates (p : Platform) (name body : string) (re : RegExp)
    (c : MemoryCache.t) (record : Js.value) (items : list Js.value) :
  JSON_parse p body = Some record ->
  Js.get record "Answer" = Normal (Arr items) ->
  candidates re items <> [] ->
  exists a kv,
    head (Js.sort by_key_descending (candidates re items)) = Some (a, kv) /\
    parseDnsOverHttpsRecord p name body re c
    = (Normal {| key := kv; ttl := limit_ttl (answer_ttl a) |}, c, []).
Proof.
  intros Hj Hg Hne. unfold parseDnsOverHttpsRecord, bind, lift, ret.
  rewrite Hj, Hg.
  destruct (Js.sort by_key_descending (candidates re items)) as [|[a kv] l] eqn:Hs.
  - exfalso. apply Hne. apply (sort_head_None by_key_descending). rewrite Hs. reflexivity.
  - exists a, kv. split; reflexivity.
Qed.

(** C3, as the spec has it, fails: the two answer lists below are
    permutations of each other and hold a candidate, and
    [parseDnsOverHttpsRecord] returns two different results for them.
    The key is the same; the ttl is that of whichever answer with that
    key comes first. *)
Lemma C3_counterexample :
  Permutation Sample.answers_a Sample.answers_b /\
  candidates DAT_TXT_REGEX Sample.answers_a <> [] /\
  outcome (parseDnsOverHttpsRecord Sample.platform "example.com"
             (Sample.json_text Sample.same_key_a)
             DAT_TXT_REGEX Sample.fresh)
  = Normal {| key := Str (Sample.key_of "a"); ttl := 10 |} /\
  outcome (parseDnsOverHttpsRecord Sample.platform "example.com"
             (Sample.json_text Sample.same_key_b)
             DAT_TXT_REGEX Sample.fresh)
  = Normal {| key := Str (Sample.key_of "a"); ttl := 20 |} /\
  outcome (parseDnsOverHttpsRecord Sample.platform "example.com"
             (Sample.json_text Sample.same_key_a)
             DAT_TXT_REGEX Sample.fresh)
  <> outcome (parseDnsOverHttpsRecord Sample.platform "example.com"
             (Sample.json_text Sample.same_key_b)
                DAT_TXT_REGEX Sample.fresh).
Proof.
  split; [apply perm_swap|].
  split; [vm_compute; discriminate|].
  split; [vm_compute; reflexivity|].
  split; [vm_compute; reflexivity|].
  vm_compute. discriminate.
Qed.

(** C3, amended. For every DNS-over-HTTPS response body whose answer
    list holds at least one candidate, [parseDnsOverHttpsRecord]
    returns the greatest candidate key in the order of strings, and
    the key it returns is the same for every permutation of the answer
    list; the whole result is the same as well when the candidates
    that carry the greatest key agree on their [TTL] field. *)
Theorem C3_greatest_key_chosen (p : Platform) (name body : string) (c : MemoryCache.t)
    (record : Js.value) (items : list Js.value) :
  JSON_parse p body = Some record ->
  Js.get record "Answer" = Normal (Arr items) ->
  candidates DAT_TXT_REGEX items <> [] ->
  exists r k,
    outcome (parseDnsOverHttpsRecord p name body DAT_TXT_REGEX c) = Normal r /\
    key r = Str k /\
    In k (candidate_keys DAT_TXT_REGEX items) /\
    (forall k', In k' (candidate_keys DAT_TXT_REGEX items) -> String.leb k' k = true) /\
    forall (name' body' : string) (c' : MemoryCache.t) (record' : Js.value)
           (items' : list Js.value),
      JSON_parse p body' = Some record' ->
      Js.get record' "Answer" = Normal (Arr items') ->
      Permutation items items' ->
      exists r',
        outcome (parseDnsOverHttpsRecord p name' body' DAT_TXT_REGEX c') = Normal r' /\
        key r' = key r /\
        ((forall a a', In (a, Str k) (candidates DAT_TXT_REGEX items) ->
                       In (a', Str k) (candidates DAT_TXT_REGEX items) ->
                       answer_ttl a = answer_ttl a') ->
         r' = r).
Proof.
  intros Hj Hg Hne.
  assert (Hcap : always_captures (pattern DAT_TXT_REGEX) = true) by reflexivity.
  pose proof (candidates_keys_are_strings DAT_TXT_REGEX items Hcap) as Hstr.
  destruct (parseDnsOverHttpsRecord_candidates p name body DAT_TXT_REGEX c record items
              Hj Hg Hne) as (a & kv & Hhd & Hrun).
  destruct (sort_head_greatest _ Hstr a kv Hhd) as (k & -> & Hin & Hmax).
  exists {| key := Str k; ttl := limit_ttl (answer_ttl a) |}, k.
  rewrite Hrun. split; [reflexivity|]. split; [reflexivity|].
  split; [apply In_candidate_keys; eauto|].
  split; [intros k' Hk'; apply In_candidate_keys in Hk' as [b Hb]; eauto|].
  intros name' body' c' record' items' Hj' Hg' Hperm.
  assert (Hperm' : Permutation (candidates DAT_TXT_REGEX items)
                               (candidates DAT_TXT_REGEX items'))
    by (unfold candidates; apply omap_Permutation; exact Hperm).
  assert (Hne' : candidates DAT_TXT_REGEX items' <> []).
  { intros E. apply Hne. apply Permutation_nil. rewrite <- E. symmetry. exact Hperm'. }
  pose proof (candidates_keys_are_strings DAT_TXT_REGEX items' Hcap) as Hstr'.
  destruct (parseDnsOverHttpsRecord_candidates p name' body' DAT_TXT_REGEX c' record' items'
              Hj' Hg' Hne') as (a' & kv' & Hhd' & Hrun').
  destruct (sort_head_greatest _ Hstr' a' kv' Hhd') as (k' & -> & Hin' & Hmax').
  assert (Hk : k' = k).
  { apply String.leb_antisym.
    - eapply Hmax. eapply Permutation_in; [symmetry; exact Hperm'|exact Hin'].
    - eapply Hmax'. eapply Permutation_in; [exact Hperm'|exact Hin]. }
  subst k'.
  exists {| key := Str k; ttl := limit_ttl (answer_ttl a') |}.
  rewrite Hrun'. split; [reflexivity|]. split; [reflexivity|].
  intros Hsame. f_equal. f_equal. apply Hsame; [|exact Hin].
  eapply Permutation_in; [symmetry; exact Hperm'|exact Hin'].
Qed.

Lemma C3_witness :
  JSON_parse Sample.platform (Sample.json_text Sample.two_keys) = Some Sample.two_keys /\
  exists r k,
    outcome (parseDnsOverHttpsRecord Sample.platform "example.com"
               (Sample.json_text Sample.two_keys) DAT_TXT_REGEX Sample.fresh) = Normal r /\
    key r = Str k /\
    In k (candidate_keys DAT_TXT_REGEX
            [Sample.txt_answer ("datkey=" +:+ Sample.key_of "1") 300;
             Sample.txt_answer "v=spf1 -all" 300;
             Sample.txt_answer ("datkey=" +:+ Sample.key_of "4") 0]) /\
    String.leb (Sample.key_of "4") k = true.
Proof.
  split; [vm_compute; reflexivity|].
  destruct (C3_greatest_key_chosen Sample.platform "example.com"
              (Sample.json_text Sample.two_keys) Sample.fresh
              Sample.two_keys
              [Sample.txt_answer ("datkey=" +:+ Sample.key_of "1") 300;
               Sample.txt_answer "v=spf1 -all" 300;
               Sample.txt_answer ("datkey=" +:+ Sample.key_of "4") 0])
    as (r & k & Ho & Hk & Hin & Hmax & _).
  - vm_compute. reflexivity.
  - vm_compute. reflexivity.
  - vm_compute. discriminate.
  - exists r, k. split; [exact Ho|]. split; [exact Hk|]. split; [exact Hin|].
    apply Hmax. vm_compute. right. left. reflexivity.
Defined.

(* ================================================================== *)
(** ** The probes in full: requests, events and results *)

Lemma failures_are_events (t : list effect) :
  forallb is_Failed t = true ->
  forallb is_Emit t = true /\ List.filter is_Resolved t = [].
Proof.
  induction t as [|e t IH]; [auto|].
  cbn [forallb List.filter]. intros H. apply andb_true_iff in H as [He Ht].
  destruct (IH Ht) as [IH1 IH2].
  destruct e as [| |[| |]| | | |]; try discriminate. cbn. auto.
Qed.

Section Probes.

Variable p : Platform.
Variable cfg : Config.
Variable w : World.
Variable n : string.

Lemma parseDnsOverHttpsRecord_failures (body : string) (re : RegExp) (c : MemoryCache.t) :
  exists o t,
    parseDnsOverHttpsRecord p n body re c = (o, c, t) /\ forallb is_Failed t = true.
Proof.
  unfold parseDnsOverHttpsRecord, bind, lift, emit, tell, ret, throw.
  destruct (JSON_parse p body) as [record|]; [|eauto].
  destruct (Js.get record "Answer") as [answers|e]; [|eauto].
  destruct answers; eauto.
  destruct (Js.sort _ _) as [|[a k] l]; eauto.
Qed.

Lemma parseWellknownDatRecord_failures (body : string) (c : MemoryCache.t) :
  exists o t,
    parseWellknownDatRecord n body (protocolRegex cfg) (recordName cfg) c = (o, c, t) /\
    forallb is_Failed t = true.
Proof.
  unfold parseWellknownDatRecord.
  destruct (String.eqb body ""); [unfold bind, emit, tell, throw; eauto|].
  destruct (exec _ _) as [m|]; [|unfold bind, emit, tell, throw; eauto].
  unfold bind, try_catch, lift, emit, tell, ret.
  destruct (parse_ttl_line _); eauto.
Qed.

(** The DNS-over-HTTPS lookup: one request, a ['resolved'] event
    exactly when it returns, and what it returns is what the parser
    made of the body of the response. *)
Lemma dnsOverHttps_lookup_full (c : MemoryCache.t) :
  exists o t,
    dnsOverHttps_lookup p cfg w n c = (o, c, t) /\
    actions t = [DohGet (doh_req cfg n)] /\
    List.filter is_Resolved t =
      match o with
      | Normal r => [Emit (Resolved "dns-over-https" n (key r))]
      | Throw _ => []
      end /\
    (forall r, o = Normal r ->
       includes n "." = true /\
       outcome (parseDnsOverHttpsRecord p n (body (https_get w (doh_req cfg n)))
                  (dnsTxtRegex cfg) c) = Normal r).
Proof.
  unfold dnsOverHttps_lookup. unfold bind at 1. rewrite fetchDnsOverHttpsRecord_run.
  destruct (includes n ".").
  - unfold bind at 1.
    destruct (parseDnsOverHttpsRecord_failures (body (https_get w (doh_req cfg n)))
                (dnsTxtRegex cfg) c) as (o & t & Hrun & Hf).
    destruct (failures_are_events t Hf) as [Hev Hres].
    rewrite Hrun. destruct o as [r|e].
    + unfold bind, emit, tell, ret. eexists _, _. split; [reflexivity|].
      cbn [app]. split; [|split].
      * simpl. rewrite actions_app, (actions_events t Hev). reflexivity.
      * cbn [List.filter is_Resolved]. rewrite List.filter_app, Hres. reflexivity.
      * intros r0 H0. inversion H0; subst r0. split; reflexivity.
    + eexists _, _. split; [reflexivity|]. split; [|split].
      * simpl. rewrite (actions_events t Hev). reflexivity.
      * cbn [app List.filter is_Resolved]. exact Hres.
      * intros r0 H0. discriminate.
  - eexists _, _. split; [reflexivity|]. split; [reflexivity|]. split; [reflexivity|].
    intros r0 H0. discriminate.
Qed.

(** The well-known lookup: one request; a miss is recorded exactly for
    the statuses 0 and 404; a ['resolved'] event exactly when the
    lookup returns, and then the status was 200 and the result is what
    the parser made of the body. *)
Lemma wellKnown_lookup_full (c : MemoryCache.t) :
  exists o c' t,
    wellKnown_lookup cfg w n c = (o, c', t) /\
    List.filter is_Resolved t =
      match o with
      | Normal r => [Emit (Resolved "well-known" n (key r))]
      | Throw _ => []
      end /\
    ((actions t = [WellKnownGet (wk_req cfg n)] /\ c' = c /\
      (statusCode (https_get w (wk_req cfg n)) =? 0)
      || (statusCode (https_get w (wk_req cfg n)) =? 404) = false) \/
     (actions t = [WellKnownGet (wk_req cfg n); CacheSet n (Bool false) (Some 60)] /\
      c' = MemoryCache.set c (now w) n (Bool false) (Some 60) /\
      o = Throw (Error "DNS record not found") /\
      (statusCode (https_get w (wk_req cfg n)) =? 0)
      || (statusCode (https_get w (wk_req cfg n)) =? 404) = true)) /\
    (forall r, o = Normal r ->
       statusCode (https_get w (wk_req cfg n)) = 200 /\
       outcome (parseWellknownDatRecord n (body (https_get w (wk_req cfg n)))
                  (protocolRegex cfg) (recordName cfg) c) = Normal r).
Proof.
  unfold wellKnown_lookup, fetchWellKnownRecord. unfold bind at 1 2. unfold tell at 1, ret at 1.
  fold (wk_req cfg n).
  destruct ((statusCode (https_get w (wk_req cfg n)) =? 0)
            || (statusCode (https_get w (wk_req cfg n)) =? 404)) eqn:Hmiss.
  { unfold bind, emit, tell, mCache_set, throw. eexists _, _, _. split; [reflexivity|].
    split; [reflexivity|]. split; [right; repeat split|]. intros r H. discriminate. }
  destruct (statusCode (https_get w (wk_req cfg n)) =? 200) eqn:H200; cbn [negb].
  2: { unfold bind, emit, tell, throw. eexists _, _, _. split; [reflexivity|].
       split; [reflexivity|]. split; [left; repeat split|]. intros r H. discriminate. }
  apply Z.eqb_eq in H200.
  destruct (parseWellknownDatRecord_failures (body (https_get w (wk_req cfg n))) c)
    as (o & t & Hrun & Hf).
  destruct (failures_are_events t Hf) as [Hev Hres].
  unfold bind at 1. rewrite Hrun. destruct o as [r|e].
  - unfold bind, emit, tell, ret. eexists _, _, _. split; [reflexivity|].
    cbn [app]. split; [|split].
    + cbn [List.filter is_Resolved]. rewrite List.filter_app, Hres. reflexivity.
    + left. split; [|split; reflexivity]. simpl.
      rewrite actions_app, (actions_events t Hev). reflexivity.
    + intros r0 H0. inversion H0; subst r0. split; [exact H200|reflexivity].
  - eexists _, _, _. split; [reflexivity|]. split; [|split].
    + cbn [app List.filter is_Resolved]. exact Hres.
    + left. split; [|split; reflexivity]. simpl. rewrite (actions_events t Hev). reflexivity.
    + intros r0 H0. discriminate.
Qed.

End Probes.

(* ================================================================== *)
(** ** The ways through a call *)

Lemma bool_decide_ttl_zero (t : Z) : bool_decide (Some t = Some 0) = (t =? 0).
Proof.
  destruct (Z.eqb_spec t 0) as [->|H].
  - apply bool_decide_eq_true_2. reflexivity.
  - apply bool_decide_eq_false_2. intros E. inversion E. contradiction.
Qed.

(** Every call for a name that is not a key takes one of the seven
    ways, and the way fixes what the call returns, the memory cache it
    leaves, its requests and cache operations, and its ['resolved']
    events. *)
Lemma resolveName_route (p : Platform) (cfg : Config) (w : World) (name : string)
    (opts : Options) (c : MemoryCache.t) (n : string) :
  normalize p name = Normal n ->
  test (hashRegex cfg) n = false ->
  exists rt,
    route_taken p cfg w opts c n rt /\
    outcome (resolveName p cfg w name opts c) = route_outcome cfg n rt /\
    cache_after (resolveName p cfg w name opts c) = route_cache w c n rt /\
    actions (effects (resolveName p cfg w name opts c)) = route_actions cfg opts n rt /\
    List.filter is_Resolved (effects (resolveName p cfg w name opts c)) = route_resolved n rt.
Proof.
  intros Hn Ht.
  rewrite (resolveName_lookup p cfg w name opts c n Hn Ht), guarded_lookup_run.
  destruct (reaches_probes w opts c n) eqn:Hr.
  2: { rewrite lookup_cached by exact Hr.
       unfold reaches_probes in Hr.
       apply orb_false_elim in Hr as [Hr H3]. apply orb_false_elim in Hr as [H1 H2].
       destruct (truthy (MemoryCache.get c (now w) n)) eqn:Hv.
       - exists (CacheHit (MemoryCache.get c (now w) n)). cbn. repeat split; auto.
       - exists CachedMiss. cbn in H3. cbn -[MemoryCache.get].
         unfold fallen_back.
         destruct (bool_decide (is_Some (pCache cfg))); repeat split; auto. }
  rewrite lookup_probes by exact Hr. rewrite probes_run.
  destruct (dnsOverHttps_lookup_full p cfg w n c) as (od & td & Hdoh & Had & Hrd & _).
  destruct (wellKnown_lookup_full cfg w n c) as (ow & cw & tw & Hwk & Hrw & Hshape & _).
  assert (Hod : outcome (dnsOverHttps_lookup p cfg w n c) = od) by (rewrite Hdoh; reflexivity).
  assert (How : outcome (wellKnown_lookup cfg w n c) = ow) by (rewrite Hwk; reflexivity).
  destruct (noDnsOverHttps opts) eqn:Hd; destruct (noWellknownDat opts) eqn:Hw.
  - (* no probe *)
    rewrite run_probes_skipped by assumption. exists NoProbe.
    cbn [cache_result throw]. unfold route_taken, route_outcome, route_cache, route_actions,
      route_resolved, cache_read, fallen_back, res_undefined_error.
    cbn [outcome cache_after effects fst snd].
    destruct (ignoreCache opts); destruct (bool_decide (is_Some (pCache cfg)));
      repeat split; auto.
  - (* well-known only *)
    rewrite (run_probes_wk_only p cfg w n opts c cw tw ow Hd Hw Hwk).
    destruct ow as [r|e].
    + exists (ByWellKnown r).
      destruct Hshape as [(Haw & -> & Hst)|(_ & _ & Ho & _)]; [|discriminate].
      cbn [cache_result]. rewrite store_run, bool_decide_ttl_zero.
      unfold route_taken, route_outcome, route_cache, route_actions, route_resolved,
        cache_read, doh_sent, stored.
      rewrite Hd, bool_decide_ttl_zero.
      cbn [outcome cache_after effects fst snd].
      split; [repeat split; auto; intros; discriminate|].
      split; [reflexivity|]. split; [reflexivity|]. split.
      * rewrite !actions_app, Haw.
        destruct (ignoreCache opts); destruct (ttl r =? 0);
          destruct (bool_decide (is_Some (pCache cfg))); reflexivity.
      * rewrite !List.filter_app, Hrw.
        destruct (ignoreCache opts); destruct (ttl r =? 0);
          destruct (bool_decide (is_Some (pCache cfg))); reflexivity.
    + destruct Hshape as [(Haw & -> & Hst)|(Haw & -> & Ho & Hst)].
      * exists (WellKnownFailed e false).
        unfold route_taken, route_outcome, route_cache, route_actions, route_resolved,
          cache_read, doh_sent, fallen_back.
        rewrite Hd. cbn [outcome cache_after effects fst snd].
        split; [repeat split; auto; intros; discriminate|].
        split; [reflexivity|]. split; [reflexivity|]. split.
        -- rewrite !actions_app, Haw.
           destruct (ignoreCache opts); destruct (bool_decide (is_Some (pCache cfg))); reflexivity.
        -- rewrite !List.filter_app, Hrw.
           destruct (ignoreCache opts); destruct (bool_decide (is_Some (pCache cfg))); reflexivity.
      * exists (WellKnownFailed e true).
        unfold route_taken, route_outcome, route_cache, route_actions, route_resolved,
          cache_read, doh_sent, fallen_back.
        rewrite Hd. cbn [outcome cache_after effects fst snd].
        split; [repeat split; auto; intros; try discriminate; congruence|].
        split; [reflexivity|]. split; [reflexivity|]. split.
        -- rewrite !actions_app, Haw.
           destruct (ignoreCache opts); destruct (bool_decide (is_Some (pCache cfg))); reflexivity.
        -- rewrite !List.filter_app, Hrw.
           destruct (ignoreCache opts); destruct (bool_decide (is_Some (pCache cfg))); reflexivity.
  - (* DNS-over-HTTPS only *)
    destruct od as [r|e].
    + rewrite (run_probes_doh_ok p cfg w n opts c r td Hd Hdoh). exists (ByDnsOverHttps r).
      cbn [cache_result]. rewrite store_run, bool_decide_ttl_zero.
      unfold route_taken, route_outcome, route_cache, route_actions, route_resolved,
        cache_read, stored.
      rewrite bool_decide_ttl_zero.
      cbn [outcome cache_after effects fst snd].
      split; [repeat split; auto|].
      split; [reflexivity|]. split; [reflexivity|]. split.
      * rewrite !actions_app, Had.
        destruct (ignoreCache opts); destruct (ttl r =? 0);
          destruct (bool_decide (is_Some (pCache cfg))); reflexivity.
      * rewrite !List.filter_app, Hrd.
        destruct (ignoreCache opts); destruct (ttl r =? 0);
          destruct (bool_decide (is_Some (pCache cfg))); reflexivity.
    + rewrite (run_probes_doh_only_failed p cfg w n opts c e td Hd Hw Hdoh).
      exists DohFailedAlone.
      cbn [cache_result]. rewrite store_run.
      unfold route_taken, route_outcome, route_cache, route_actions, route_resolved,
        cache_read, stored.
      rewrite bool_decide_eq_false_2 by discriminate.
      cbn [outcome cache_after effects fst snd].
      split; [repeat split; eauto|].
      split; [reflexivity|]. split; [reflexivity|]. split.
      * rewrite !actions_app, Had.
        destruct (ignoreCache opts); destruct (bool_decide (is_Some (pCache cfg))); reflexivity.
      * rewrite !List.filter_app, Hrd.
        destruct (ignoreCache opts); destruct (bool_decide (is_Some (pCache cfg))); reflexivity.
  - (* both probes *)
    destruct od as [r|e].
    + rewrite (run_probes_doh_ok p cfg w n opts c r td Hd Hdoh). exists (ByDnsOverHttps r).
      cbn [cache_result]. rewrite store_run, bool_decide_ttl_zero.
      unfold route_taken, route_outcome, route_cache, route_actions, route_resolved,
        cache_read, stored.
      rewrite bool_decide_ttl_zero.
      cbn [outcome cache_after effects fst snd].
      split; [repeat split; auto|].
      split; [reflexivity|]. split; [reflexivity|]. split.
      * rewrite !actions_app, Had.
        destruct (ignoreCache opts); destruct (ttl r =? 0);
          destruct (bool_decide (is_Some (pCache cfg))); reflexivity.
      * rewrite !List.filter_app, Hrd.
        destruct (ignoreCache opts); destruct (ttl r =? 0);
          destruct (bool_decide (is_Some (pCache cfg))); reflexivity.
    + rewrite (run_probes_fallback p cfg w n opts c cw e td tw ow Hd Hw Hdoh Hwk).
      destruct ow as [r|e'].
      * exists (ByWellKnown r).
        destruct Hshape as [(Haw & -> & Hst)|(_ & _ & Ho & _)]; [|discriminate].
        cbn [cache_result]. rewrite store_run, bool_decide_ttl_zero.
        unfold route_taken, route_outcome, route_cache, route_actions, route_resolved,
          cache_read, doh_sent, stored.
        rewrite Hd, bool_decide_ttl_zero.
        cbn [outcome cache_after effects fst snd].
        split; [repeat split; eauto|].
        split; [reflexivity|]. split; [reflexivity|]. split.
        -- rewrite !actions_app, Had, Haw.
           destruct (ignoreCache opts); destruct (ttl r =? 0);
             destruct (bool_decide (is_Some (pCache cfg))); reflexivity.
        -- rewrite !List.filter_app, Hrd, Hrw.
           destruct (ignoreCache opts); destruct (ttl r =? 0);
             destruct (bool_decide (is_Some (pCache cfg))); reflexivity.
      * destruct Hshape as [(Haw & -> & Hst)|(Haw & -> & Ho & Hst)].
        -- exists (WellKnownFailed e' false).
           unfold route_taken, route_outcome, route_cache, route_actions, route_resolved,
             cache_read, doh_sent, fallen_back.
           rewrite Hd. cbn [outcome cache_after effects fst snd].
           split; [repeat split; eauto; intros; discriminate|].
           split; [reflexivity|]. split; [reflexivity|]. split.
           ++ rewrite !actions_app, Had, Haw.
              destruct (ignoreCache opts); destruct (bool_decide (is_Some (pCache cfg)));
                reflexivity.
           ++ rewrite !List.filter_app, Hrd, Hrw.
              destruct (ignoreCache opts); destruct (bool_decide (is_Some (pCache cfg)));
                reflexivity.
        -- exists (WellKnownFailed e' true).
           unfold route_taken, route_outcome, route_cache, route_actions, route_resolved,
             cache_read, doh_sent, fallen_back.
           rewrite Hd. cbn [outcome cache_after effects fst snd].
           split; [repeat split; eauto; intros; congruence|].
           split; [reflexivity|]. split; [reflexivity|]. split.
           ++ rewrite !actions_app, Had, Haw.
              destruct (ignoreCache opts); destruct (bool_decide (is_Some (pCache cfg)));
                reflexivity.
           ++ rewrite !List.filter_app, Hrd, Hrw.
              destruct (ignoreCache opts); destruct (bool_decide (is_Some (pCache cfg)));
                reflexivity.
Qed.

Lemma hit_blocks_probes (w : World) (opts : Options) (c : MemoryCache.t) (n : string) :
  ignoreCache opts = false ->
  truthy (MemoryCache.get c (now w) n) = true ->
  reaches_probes w opts c n = false.
Proof.
  intros Hi Hv. unfold reaches_probes. rewrite Hi, Hv.
  destruct (MemoryCache.get c (now w) n); try reflexivity; discriminate.
Qed.

Lemma miss_blocks_probes (w : World) (opts : Options) (c : MemoryCache.t) (n : string) :
  ignoreCache opts = false ->
  ignoreCachedMiss opts = false ->
  is_undefined (MemoryCache.get c (now w) n) = false ->
  reaches_probes w opts c n = false.
Proof.
  intros Hi Hm Hu. unfold reaches_probes. rewrite Hi, Hm, Hu.
  destruct (truthy _); reflexivity.
Qed.

(** The ways exclude one another. *)
Lemma route_taken_unique (p : Platform) (cfg : Config) (w : World) (opts : Options)
    (c : MemoryCache.t) (n : string) (rt rt' : route) :
  route_taken p cfg w opts c n rt -> route_taken p cfg w opts c n rt' -> rt = rt'.
Proof.
  intros H H'.
  destruct rt, rt'; cbn [route_taken] in H, H';
    repeat match goal with
           | H : _ /\ _ |- _ => destruct H
           | H : exists _, _ |- _ => destruct H
           end;
    try congruence;
    try (exfalso;
         match goal with
         | Hi : ignoreCache opts = false, Hv : truthy _ = true,
           Hr : reaches_probes _ _ _ _ = true |- _ =>
           subst; rewrite hit_blocks_probes in Hr by assumption; discriminate
         | Hi : ignoreCache opts = false, Hm : ignoreCachedMiss opts = false,
           Hu : is_undefined _ = false, Hr : reaches_probes _ _ _ _ = true |- _ =>
           rewrite miss_blocks_probes in Hr by assumption; discriminate
         end);
    try (exfalso;
         match goal with
         | Hf : noDnsOverHttps opts = false -> _, Hd : noDnsOverHttps opts = false |- _ =>
           destruct (Hf Hd); congruence
         end).
Qed.

(** What a call does on the way it takes. *)
Lemma route_run (p : Platform) (cfg : Config) (w : World) (name : string)
    (opts : Options) (c : MemoryCache.t) (n : string) (rt : route) :
  normalize p name = Normal n ->
  test (hashRegex cfg) n = false ->
  route_taken p cfg w opts c n rt ->
  outcome (resolveName p cfg w name opts c) = route_outcome cfg n rt /\
  cache_after (resolveName p cfg w name opts c) = route_cache w c n rt /\
  actions (effects (resolveName p cfg w name opts c)) = route_actions cfg opts n rt /\
  List.filter is_Resolved (effects (resolveName p cfg w name opts c)) = route_resolved n rt.
Proof.
  intros Hn Ht Hrt.
  destruct (resolveName_route p cfg w name opts c n Hn Ht) as (rt' & Hrt' & H).
  rewrite (route_taken_unique p cfg w opts c n rt rt' Hrt Hrt'). exact H.
Qed.

Lemma emit_not_PersistWrite (e : effect) : is_Emit e = true -> is_PersistWrite e = false.
Proof. destruct e; simpl; congruence. Qed.

Lemma In_filter_actions (P : effect -> bool) (e : effect) (t : list effect) :
  (forall x, is_Emit x = true -> P x = false) ->
  P e = true -> In e t -> In e (actions t).
Proof.
  intros HP He Hin. unfold actions. apply List.filter_In. split; [exact Hin|].
  destruct (is_Emit e) eqn:E; [|reflexivity]. rewrite (HP e E) in He. discriminate.
Qed.

(* ================================================================== *)
(** ** The memory cache in front of the probes *)

(** A live entry with a key is returned as it is. *)
Lemma lookup_hit (p : Platform) (cfg : Config) (w : World)
    (name : string) (opts : Options) (c : MemoryCache.t) (n : string) :
  normalize p name = Normal n ->
  test (hashRegex cfg) n = false ->
  ignoreCache opts = false ->
  truthy (MemoryCache.get c (now w) n) = true ->
  resolveName p cfg w name opts c
  = (Normal (MemoryCache.get c (now w) n), c, [CacheGet n]).
Proof.
  intros Hn Ht Hi Hv.
  rewrite (resolveName_lookup p cfg w name opts c n Hn Ht), guarded_lookup_run.
  rewrite lookup_cached by (apply hit_blocks_probes; assumption).
  rewrite Hv. reflexivity.
Qed.

(** X1. A live entry with a key answers the call by itself: the call
    returns the entry, and its only effect is the read of the memory
    cache; there is no request, no event and no write, and the
    [ignoreCachedMiss], [noDnsOverHttps] and [noWellknownDat] options
    play no part. *)
Theorem cached_key_answers_alone (p : Platform) (cfg : Config) (w : World)
    (name : string) (opts : Options) (c : MemoryCache.t) (n : string) :
  normalize p name = Normal n ->
  test (hashRegex cfg) n = false ->
  ignoreCache opts = false ->
  truthy (MemoryCache.get c (now w) n) = true ->
  resolveName p cfg w name opts c
  = (Normal (MemoryCache.get c (now w) n), c, [CacheGet n]).
Proof.
  intros Hn Ht Hi Hv.
  rewrite (resolveName_lookup p cfg w name opts c n Hn Ht), guarded_lookup_run.
  rewrite (lookup_cached p cfg w n opts c (hit_blocks_probes w opts c n Hi Hv)).
  rewrite Hv. reflexivity.
Qed.

(** X2. A live entry that records a miss makes the call fail with
    "DNS record not found" (subject to the persistent cache) without
    any request and without touching the entry; with
    [ignoreCachedMiss] the entry is passed over and the first probe
    that is not switched off is tried. *)
Theorem cached_miss_answers_alone (p : Platform) (cfg : Config) (w : World)
    (name : string) (opts : Options) (c : MemoryCache.t) (n : string) :
  normalize p name = Normal n ->
  test (hashRegex cfg) n = false ->
  ignoreCache opts = false ->
  is_undefined (MemoryCache.get c (now w) n) = false ->
  truthy (MemoryCache.get c (now w) n) = false ->
  (ignoreCachedMiss opts = false ->
   outcome (resolveName p cfg w name opts c)
   = failure_outcome cfg n (Error "DNS record not found") /\
   cache_after (resolveName p cfg w name opts c) = c /\
   actions (effects (resolveName p cfg w name opts c))
   = CacheGet n :: fallen_back cfg n (Error "DNS record not found")) /\
  (ignoreCachedMiss opts = true ->
   (noDnsOverHttps opts = false ->
    In (DohGet (doh_req cfg n)) (effects (resolveName p cfg w name opts c))) /\
   (noDnsOverHttps opts = true -> noWellknownDat opts = false ->
    In (WellKnownGet (wk_req cfg n)) (effects (resolveName p cfg w name opts c)))).
Proof.
  intros Hn Ht Hi Hu Hv. split.
  - intros Hm.
    assert (Hrt : route_taken p cfg w opts c n CachedMiss) by (cbn; auto).
    destruct (route_run p cfg w name opts c n _ Hn Ht Hrt) as (Ho & Hc & Ha & _).
    auto.
  - intros Hm.
    assert (Hr : reaches_probes w opts c n = true).
    { unfold reaches_probes. rewrite Hv, Hm. cbn. apply orb_true_r. }
    destruct (resolveName_route p cfg w name opts c n Hn Ht) as (rt & Hrt & _ & _ & Ha & _).
    split.
    + intros Hd. apply In_actions. rewrite Ha.
      destruct rt; cbn [route_taken] in Hrt; cbn [route_actions]; unfold doh_sent;
        rewrite ?Hd, ?in_app_iff; cbn [In]; auto; exfalso.
      * destruct Hrt as (_ & -> & Hv'). congruence.
      * destruct Hrt as (_ & Hm' & _). congruence.
      * destruct Hrt as (_ & Hd' & _). congruence.
    + intros Hd Hk. apply In_actions. rewrite Ha.
      destruct rt; cbn [route_taken] in Hrt; cbn [route_actions];
        rewrite ?in_app_iff; cbn [In]; auto; exfalso.
      * destruct Hrt as (_ & -> & Hv'). congruence.
      * destruct Hrt as (_ & Hm' & _). congruence.
      * destruct Hrt as (_ & _ & Hk'). congruence.
      * destruct Hrt as (_ & Hd' & _). congruence.
      * destruct Hrt as (_ & Hd' & _). congruence.
Qed.

(* ================================================================== *)
(** ** What a call never does *)

(** X3. A probe that is switched off is never requested, a cache that
    is to be ignored is never read, and without a persistent cache
    there is neither a read nor a write of one: whatever the name, the
    memory cache and the network. *)
Theorem switched_off_is_never_used (p : Platform) (cfg : Config) (w : World)
    (name : string) (opts : Options) (c : MemoryCache.t) :
  (noDnsOverHttps opts = true ->
   existsb is_DohGet (effects (resolveName p cfg w name opts c)) = false) /\
  (noWellknownDat opts = true ->
   existsb is_WellKnownGet (effects (resolveName p cfg w name opts c)) = false) /\
  (ignoreCache opts = true ->
   existsb is_CacheGet (effects (resolveName p cfg w name opts c)) = false) /\
  (pCache cfg = None ->
   existsb is_PersistRead (effects (resolveName p cfg w name opts c)) = false /\
   existsb is_PersistWrite (effects (resolveName p cfg w name opts c)) = false).
Proof.
  destruct (normalize p name) as [n|e0] eqn:Hn.
  2: { unfold resolveName, bind, lift. rewrite Hn. cbn. auto. }
  destruct (test (hashRegex cfg) n) eqn:Ht.
  { rewrite (resolveName_key p cfg w name opts c n Hn Ht). cbn. auto. }
  destruct (resolveName_route p cfg w name opts c n Hn Ht) as (rt & Hrt & _ & _ & Ha & _).
  rewrite (existsb_actions is_DohGet) by trace_facts.
  rewrite (existsb_actions is_WellKnownGet) by trace_facts.
  rewrite (existsb_actions is_CacheGet) by trace_facts.
  rewrite (existsb_actions is_PersistRead) by trace_facts.
  rewrite (existsb_actions is_PersistWrite) by (apply emit_not_PersistWrite).
  rewrite Ha. clear Ha.
  split; [|split; [|split]].
  - intros Hd.
    destruct rt; cbn [route_taken] in Hrt; cbn [route_actions];
      unfold cache_read, doh_sent, stored, fallen_back; rewrite ?Hd;
      try (exfalso; intuition congruence);
      repeat match goal with |- context [if ?b then _ else _] => destruct b end; reflexivity.
  - intros Hk.
    destruct rt; cbn [route_taken] in Hrt; cbn [route_actions];
      unfold cache_read, doh_sent, stored, fallen_back;
      try (exfalso; intuition congruence);
      repeat match goal with |- context [if ?b then _ else _] => destruct b end; reflexivity.
  - intros Hi.
    destruct rt; cbn [route_taken] in Hrt; cbn [route_actions];
      unfold cache_read, doh_sent, stored, fallen_back; rewrite ?Hi;
      try (exfalso; intuition congruence);
      repeat match goal with |- context [if ?b then _ else _] => destruct b end; reflexivity.
  - intros Hp.
    assert (Hb : bool_decide (is_Some (pCache cfg)) = false).
    { apply bool_decide_eq_false_2. rewrite Hp. intros [x Hx]. discriminate. }
    destruct rt; cbn [route_actions];
      unfold cache_read, doh_sent, stored, fallen_back; rewrite ?Hb;
      repeat match goal with |- context [if ?b then _ else _] => destruct b end;
      split; reflexivity.
Qed.

(** X4. A call reads the memory cache at most once, then sends at most
    one DNS-over-HTTPS request, then at most one well-known request, in
    this order and each for the normalized name: no probe is retried
    within a call. *)
Theorem requests_of_a_call (p : Platform) (cfg : Config) (w : World)
    (name : string) (opts : Options) (c : MemoryCache.t) (n : string) :
  normalize p name = Normal n ->
  exists g d k : bool,
    List.filter (fun e => is_CacheGet e || is_network e)
                (effects (resolveName p cfg w name opts c))
    = (if g then [CacheGet n] else [])
      ++ (if d then [DohGet (doh_req cfg n)] else [])
      ++ (if k then [WellKnownGet (wk_req cfg n)] else []).
Proof.
  intros Hn.
  destruct (test (hashRegex cfg) n) eqn:Ht.
  { rewrite (resolveName_key p cfg w name opts c n Hn Ht). exists false, false, false.
    reflexivity. }
  destruct (resolveName_route p cfg w name opts c n Hn Ht) as (rt & Hrt & _ & _ & Ha & _).
  rewrite (filter_actions (fun e => is_CacheGet e || is_network e))
    by (intros e He; rewrite emit_not_CacheGet, emit_not_network by exact He; reflexivity).
  rewrite Ha. clear Ha.
  destruct rt; cbn [route_actions]; unfold cache_read, doh_sent, stored, fallen_back.
  - exists true, false, false. reflexivity.
  - exists true, false, false.
    destruct (bool_decide (is_Some (pCache cfg))); reflexivity.
  - exists (negb (ignoreCache opts)), false, false.
    destruct (ignoreCache opts); destruct (bool_decide (is_Some (pCache cfg))); reflexivity.
  - exists (negb (ignoreCache opts)), true, false.
    destruct (ignoreCache opts); destruct (bool_decide (Some (ttl r) = Some 0));
      destruct (bool_decide (is_Some (pCache cfg))); reflexivity.
  - exists (negb (ignoreCache opts)), (negb (noDnsOverHttps opts)), true.
    destruct (ignoreCache opts); destruct (noDnsOverHttps opts);
      destruct (bool_decide (Some (ttl r) = Some 0));
      destruct (bool_decide (is_Some (pCache cfg))); reflexivity.
  - exists (negb (ignoreCache opts)), true, false.
    destruct (ignoreCache opts); destruct (bool_decide (is_Some (pCache cfg))); reflexivity.
  - exists (negb (ignoreCache opts)), (negb (noDnsOverHttps opts)), true.
    destruct (ignoreCache opts); destruct (noDnsOverHttps opts); destruct miss;
      destruct (bool_decide (is_Some (pCache cfg))); reflexivity.
Qed.

(* ================================================================== *)
(** ** Storing a result *)

Lemma emit_not_stored (e : effect) :
  is_Emit e = true -> is_CacheSet e || is_PersistWrite e || is_PersistRead e = false.
Proof. destruct e; simpl; congruence. Qed.

(** X5. When a probe answers, the call returns the key of the answer,
    writes it to the memory cache under the normalized name with the
    ttl of the answer (unless that ttl is 0), then hands name, key and
    ttl to [pCache.write] when there is a persistent cache; these are
    all its writes, and it does not read the persistent cache. *)
Theorem answer_is_stored (p : Platform) (cfg : Config) (w : World)
    (name : string) (opts : Options) (c : MemoryCache.t) (n : string) (r : ProbeResult) :
  normalize p name = Normal n ->
  test (hashRegex cfg) n = false ->
  reaches_probes w opts c n = true ->
  (noDnsOverHttps opts = false /\
   outcome (dnsOverHttps_lookup p cfg w n c) = Normal r) \/
  (noWellknownDat opts = false /\
   (noDnsOverHttps opts = false ->
    exists e, outcome (dnsOverHttps_lookup p cfg w n c) = Throw e) /\
   outcome (wellKnown_lookup cfg w n c) = Normal r) ->
  outcome (resolveName p cfg w name opts c) = Normal (key r) /\
  cache_after (resolveName p cfg w name opts c)
  = (if ttl r =? 0 then c else MemoryCache.set c (now w) n (key r) (Some (ttl r))) /\
  List.filter (fun e => is_CacheSet e || is_PersistWrite e || is_PersistRead e)
              (effects (resolveName p cfg w name opts c))
  = (if ttl r =? 0 then [] else [CacheSet n (key r) (Some (ttl r))])
    ++ (if bool_decide (is_Some (pCache cfg))
        then [PersistWrite n (key r) (Some (ttl r))] else []).
Proof.
  intros Hn Ht Hr Hans.
  rewrite (filter_actions (fun e => is_CacheSet e || is_PersistWrite e || is_PersistRead e))
    by (apply emit_not_stored).
  destruct Hans as [[Hd Ho]|(Hk & Hd & Ho)].
  - assert (Hrt : route_taken p cfg w opts c n (ByDnsOverHttps r)) by (cbn; auto).
    destruct (route_run p cfg w name opts c n _ Hn Ht Hrt) as (-> & -> & -> & _).
    cbn [route_outcome route_cache route_actions]. unfold cache_read, stored.
    rewrite bool_decide_ttl_zero.
    split; [reflexivity|]. split; [reflexivity|].
    destruct (ignoreCache opts); destruct (ttl r =? 0);
      destruct (bool_decide (is_Some (pCache cfg))); reflexivity.
  - assert (Hrt : route_taken p cfg w opts c n (ByWellKnown r)) by (cbn; auto).
    destruct (route_run p cfg w name opts c n _ Hn Ht Hrt) as (-> & -> & -> & _).
    cbn [route_outcome route_cache route_actions]. unfold cache_read, doh_sent, stored.
    rewrite bool_decide_ttl_zero.
    split; [reflexivity|]. split; [reflexivity|].
    destruct (ignoreCache opts); destruct (noDnsOverHttps opts); destruct (ttl r =? 0);
      destruct (bool_decide (is_Some (pCache cfg))); reflexivity.
Qed.

(** X6. What a call hands to [pCache.write] is what it returns: a write
    to the persistent cache is made under the normalized name, with the
    value that the call returns, by a call that went past the memory
    cache; a call that fails, and a call answered by the memory cache,
    write nothing to it. *)
Theorem persistent_write_is_the_result (p : Platform) (cfg : Config) (w : World)
    (name : string) (opts : Options) (c : MemoryCache.t) (n : string)
    (nm : string) (k : Js.value) (t : option Z) :
  normalize p name = Normal n ->
  In (PersistWrite nm k t) (effects (resolveName p cfg w name opts c)) ->
  nm = n /\
  outcome (resolveName p cfg w name opts c) = Normal k /\
  reaches_probes w opts c n = true /\
  is_Some (pCache cfg) /\
  List.filter is_PersistWrite (effects (resolveName p cfg w name opts c))
  = [PersistWrite nm k t].
Proof.
  intros Hn Hin.
  destruct (test (hashRegex cfg) n) eqn:Ht.
  { rewrite (resolveName_key p cfg w name opts c n Hn Ht) in Hin. destruct Hin. }
  destruct (resolveName_route p cfg w name opts c n Hn Ht) as (rt & Hrt & Ho & _ & Ha & _).
  apply (In_filter_actions is_PersistWrite) in Hin;
    [|apply emit_not_PersistWrite|reflexivity].
  rewrite (filter_actions is_PersistWrite) by (apply emit_not_PersistWrite).
  rewrite Ho. rewrite Ha in Hin |- *. clear Ho Ha.
  destruct rt; cbn [route_taken] in Hrt; cbn [route_actions route_outcome] in Hin |- *;
    unfold cache_read, doh_sent, stored, fallen_back in Hin |- *;
    revert Hin;
    repeat match goal with |- context [if ?b then _ else _] => destruct b eqn:? end;
    cbn [app In List.filter is_PersistWrite];
    intros Hin; repeat (destruct Hin as [Hin|Hin]; try discriminate);
    try contradiction;
    inversion Hin; subst;
    repeat split; try reflexivity; try tauto;
    match goal with
    | H : bool_decide (is_Some (pCache cfg)) = true |- _ =>
      apply bool_decide_eq_true in H; exact H
    end.
Qed.

(* ================================================================== *)
(** ** The events of a call *)

(** X7. A call emits at most one ['resolved'] event; the event carries
    the normalized name, the method of the probe that answered and the
    key that the call returns.  A call answered by the memory cache,
    and a call that fails, emit none. *)
Theorem resolved_event_is_the_result (p : Platform) (cfg : Config) (w : World)
    (name : string) (opts : Options) (c : MemoryCache.t) (n : string)
    (method nm : string) (k : Js.value) :
  normalize p name = Normal n ->
  In (Emit (Resolved method nm k)) (effects (resolveName p cfg w name opts c)) ->
  nm = n /\
  (method = "dns-over-https"%string \/ method = "well-known"%string) /\
  outcome (resolveName p cfg w name opts c) = Normal k /\
  reaches_probes w opts c n = true /\
  List.filter is_Resolved (effects (resolveName p cfg w name opts c))
  = [Emit (Resolved method nm k)].
Proof.
  intros Hn Hin.
  destruct (test (hashRegex cfg) n) eqn:Ht.
  { rewrite (resolveName_key p cfg w name opts c n Hn Ht) in Hin. destruct Hin. }
  destruct (resolveName_route p cfg w name opts c n Hn Ht) as (rt & Hrt & Ho & _ & _ & He).
  assert (Hin' : In (Emit (Resolved method nm k))
                    (List.filter is_Resolved (effects (resolveName p cfg w name opts c)))).
  { apply List.filter_In. split; [exact Hin|reflexivity]. }
  rewrite Ho. rewrite He in Hin' |- *. clear Ho He Hin.
  destruct rt; cbn [route_taken] in Hrt; cbn [route_resolved route_outcome] in Hin' |- *;
    try contradiction;
    destruct Hin' as [Hin'|[]]; inversion Hin'; subst;
    repeat split; auto; tauto.
Qed.

(* ================================================================== *)
(** ** The bounds of a ttl *)

Lemma limit_ttl_bounds (raw : Js.value) : 0 <= limit_ttl raw <= MAX_DAT_DNS_TTL.
Proof.
  unfold limit_ttl, DEFAULT_DAT_DNS_TTL, MAX_DAT_DNS_TTL.
  change (3600 * 24 * 7) with 604800.
  destruct raw as [| | |[z| |]| | |]; cbn; try lia.
  destruct (negb _ || (z <? 0)) eqn:E; cbn; [lia|].
  apply orb_false_elim in E as [_ E]. apply Z.ltb_ge in E.
  destruct (z >? 604800) eqn:E'; lia.
Qed.

Lemma dnsOverHttps_lookup_ttl (p : Platform) (cfg : Config) (w : World) (n : string)
    (c : MemoryCache.t) (r : ProbeResult) :
  outcome (dnsOverHttps_lookup p cfg w n c) = Normal r ->
  0 <= ttl r <= MAX_DAT_DNS_TTL.
Proof.
  intros Ho.
  destruct (dnsOverHttps_lookup_full p cfg w n c) as (od & td & Hdoh & _ & _ & Hp).
  rewrite Hdoh in Ho. cbn in Ho. destruct (Hp r Ho) as [_ Hparse].
  apply parseDnsOverHttpsRecord_result in Hparse as (record & items & a & others & _ & _ & _ & ->).
  apply limit_ttl_bounds.
Qed.

Lemma wellKnown_lookup_ttl (cfg : Config) (w : World) (n : string)
    (c : MemoryCache.t) (r : ProbeResult) :
  outcome (wellKnown_lookup cfg w n c) = Normal r ->
  0 <= ttl r <= MAX_DAT_DNS_TTL.
Proof.
  intros Ho.
  destruct (wellKnown_lookup_full cfg w n c) as (ow & cw & tw & Hwk & _ & _ & Hp).
  rewrite Hwk in Ho. cbn in Ho. destruct (Hp r Ho) as [_ Hparse].
  rewrite (parseWellknownDatRecord_ttl _ _ _ _ _ _ Hparse).
  apply limit_ttl_bounds.
Qed.

(** X8. Every ttl that a call hands to the memory cache is a number
    between 1 and [MAX_DAT_DNS_TTL], a week, and every ttl that it
    hands to [pCache.write] a number between 0 and a week, with one
    exception: after a DNS-over-HTTPS probe that failed while the
    well-known probe is switched off, both are handed [undefined] as
    key and as ttl.  Both writes are made under the normalized name. *)
Theorem stored_ttl_is_bounded (p : Platform) (cfg : Config) (w : World)
    (name : string) (opts : Options) (c : MemoryCache.t) (n : string)
    (nm : string) (v : Js.value) (t : option Z) :
  normalize p name = Normal n ->
  (In (CacheSet nm v t) (effects (resolveName p cfg w name opts c)) ->
   nm = n /\
   ((exists z, t = Some z /\ 1 <= z <= 604800) \/
    (t = None /\ v = Undefined /\
     noDnsOverHttps opts = false /\ noWellknownDat opts = true /\
     exists e, outcome (dnsOverHttps_lookup p cfg w n c) = Throw e))) /\
  (In (PersistWrite nm v t) (effects (resolveName p cfg w name opts c)) ->
   nm = n /\
   ((exists z, t = Some z /\ 0 <= z <= 604800) \/
    (t = None /\ v = Undefined /\
     noDnsOverHttps opts = false /\ noWellknownDat opts = true /\
     exists e, outcome (dnsOverHttps_lookup p cfg w n c) = Throw e))).
Proof.
  intros Hn.
  destruct (test (hashRegex cfg) n) eqn:Ht.
  { rewrite (resolveName_key p cfg w name opts c n Hn Ht). split; intros []. }
  destruct (resolveName_route p cfg w name opts c n Hn Ht) as (rt & Hrt & _ & _ & Ha & _).
  assert (Hb : forall r, rt = ByDnsOverHttps r \/ rt = ByWellKnown r ->
                         0 <= ttl r <= 604800).
  { intros r [-> | ->]; cbn [route_taken] in Hrt.
    - destruct Hrt as (_ & _ & Ho). exact (dnsOverHttps_lookup_ttl p cfg w n c r Ho).
    - destruct Hrt as (_ & _ & _ & Ho). exact (wellKnown_lookup_ttl cfg w n c r Ho). }
  assert (Hlone : rt = DohFailedAlone ->
                  noDnsOverHttps opts = false /\ noWellknownDat opts = true /\
                  exists e, outcome (dnsOverHttps_lookup p cfg w n c) = Throw e).
  { intros ->. cbn [route_taken] in Hrt. destruct Hrt as (_ & Hd & Hw & He). auto. }
  clear Hrt.
  split; intros Hin.
  - apply (In_filter_actions is_CacheSet) in Hin; [|apply emit_not_CacheSet|reflexivity].
    rewrite Ha in Hin. clear Ha.
    destruct rt; cbn [route_actions] in Hin;
      unfold cache_read, doh_sent, stored, fallen_back in Hin;
      try rewrite bool_decide_ttl_zero in Hin;
      try (specialize (Hb r); destruct (Z.eqb_spec (ttl r) 0));
      revert Hin;
      repeat match goal with |- context [if ?b then _ else _] => destruct b eqn:? end;
      cbn [app In]; intros Hin;
      repeat (destruct Hin as [Hin|Hin]; try discriminate); try contradiction;
      inversion Hin; subst; (split; [reflexivity|]);
      first [ right; destruct (Hlone eq_refl) as (Hd & Hw & He); now auto
            | left; eexists; split; [reflexivity|];
              first [lia | assert (0 <= ttl r <= 604800) by auto; lia] ].
  - apply (In_filter_actions is_PersistWrite) in Hin; [|apply emit_not_PersistWrite|reflexivity].
    rewrite Ha in Hin. clear Ha.
    destruct rt; cbn [route_actions] in Hin;
      unfold cache_read, doh_sent, stored, fallen_back in Hin;
      revert Hin;
      repeat match goal with |- context [if ?b then _ else _] => destruct b eqn:? end;
      cbn [app In]; intros Hin;
      repeat (destruct Hin as [Hin|Hin]; try discriminate); try contradiction;
      inversion Hin; subst; (split; [reflexivity|]);
      first [ right; destruct (Hlone eq_refl) as (Hd & Hw & He); now auto
            | left; eexists; split; [reflexivity|]; auto ].
Qed.

(* ================================================================== *)
(** ** A well-known record that cannot be used *)

Lemma wellKnown_lookup_200 (cfg : Config) (w : World) (n : string) (c : MemoryCache.t) :
  statusCode (https_get w (wk_req cfg n)) = 200 ->
  outcome (wellKnown_lookup cfg w n c)
  = outcome (parseWellknownDatRecord n (body (https_get w (wk_req cfg n)))
               (protocolRegex cfg) (recordName cfg) c).
Proof.
  intros H200.
  unfold wellKnown_lookup, fetchWellKnownRecord. unfold bind at 1 2. unfold tell at 1, ret at 1.
  fold (wk_req cfg n). rewrite H200. cbn [Z.eqb Pos.eqb orb negb].
  unfold bind at 1.
  destruct (parseWellknownDatRecord n _ _ _ c) as [[[r|e] c1] t1]; reflexivity.
Qed.

(** X9. A well-known response with status 200 whose body cannot be
    parsed makes the call fail with the error of the parser, subject to
    the persistent cache as every failure; unlike a 404 it leaves no
    miss in the memory cache, so the next call for the name probes
    again. *)
Theorem unusable_record_is_not_remembered (p : Platform) (cfg : Config) (w : World)
    (name : string) (opts : Options) (c : MemoryCache.t) (n : string) (e : JsError) :
  normalize p name = Normal n ->
  test (hashRegex cfg) n = false ->
  reaches_probes w opts c n = true ->
  noWellknownDat opts = false ->
  (noDnsOverHttps opts = false ->
   exists e', outcome (dnsOverHttps_lookup p cfg w n c) = Throw e') ->
  statusCode (https_get w (wk_req cfg n)) = 200 ->
  outcome (parseWellknownDatRecord n (body (https_get w (wk_req cfg n)))
             (protocolRegex cfg) (recordName cfg) c) = Throw e ->
  outcome (resolveName p cfg w name opts c) = failure_outcome cfg n e /\
  cache_after (resolveName p cfg w name opts c) = c /\
  existsb is_CacheSet (effects (resolveName p cfg w name opts c)) = false /\
  forall w' opts',
    reaches_probes w' opts' (cache_after (resolveName p cfg w name opts c)) n
    = reaches_probes w' opts' c n.
Proof.
  intros Hn Ht Hr Hk Hd H200 Hparse.
  assert (Hrt : route_taken p cfg w opts c n (WellKnownFailed e false)).
  { cbn [route_taken]. rewrite wellKnown_lookup_200 by exact H200. rewrite H200.
    repeat split; auto. }
  destruct (route_run p cfg w name opts c n _ Hn Ht Hrt) as (Ho & Hc & Ha & _).
  rewrite Ho, Hc. cbn [route_outcome route_cache].
  split; [reflexivity|]. split; [reflexivity|]. split; [|reflexivity].
  rewrite (existsb_actions is_CacheSet) by trace_facts. rewrite Ha.
  cbn [route_actions]. unfold cache_read, doh_sent, fallen_back.
  repeat match goal with |- context [if ?b then _ else _] => destruct b end; reflexivity.
Qed.

(* ================================================================== *)
(** ** What the DNS-over-HTTPS lookup reads of a response *)

Lemma dnsOverHttps_lookup_body (p : Platform) (cfg : Config) (w : World)
    (n : string) (c : MemoryCache.t) :
  dnsOverHttps_lookup p cfg w n c =
  if includes n "."
  then match parseDnsOverHttpsRecord p n (body (https_get w (doh_req cfg n)))
               (dnsTxtRegex cfg) c with
       | (Normal r, c1, t) =>
         (Normal r, c1,
          DohGet (doh_req cfg n) :: t ++ [Emit (Resolved "dns-over-https" n (key r))])
       | (Throw e, c1, t) => (Throw e, c1, DohGet (doh_req cfg n) :: t)
       end
  else (Throw (Error "Domain is not a FQDN."), c,
        [Emit (Failed "dns-over-https" n (Text "Name is not a FQDN"));
         DohGet (doh_req cfg n)]).
Proof.
  unfold dnsOverHttps_lookup. unfold bind at 1. rewrite fetchDnsOverHttpsRecord_run.
  destruct (includes n "."); [|reflexivity].
  unfold bind at 1.
  destruct (parseDnsOverHttpsRecord p n _ _ c) as [[[r|e] c1] t]; [|reflexivity].
  unfold bind, emit, tell, ret. cbn. rewrite ?app_nil_r. reflexivity.
Qed.

(** X10. The DNS-over-HTTPS lookup reads the body of the response only:
    two networks that answer the request with the same body, whatever
    the status codes, give the same lookup. *)
Theorem doh_status_is_not_read (p : Platform) (cfg : Config) (w1 w2 : World)
    (n : string) (c : MemoryCache.t) :
  body (https_get w1 (doh_req cfg n)) = body (https_get w2 (doh_req cfg n)) ->
  dnsOverHttps_lookup p cfg w1 n c = dnsOverHttps_lookup p cfg w2 n c.
Proof.
  intros Hb. rewrite !dnsOverHttps_lookup_body, Hb. reflexivity.
Qed.

(* ================================================================== *)
(** ** A name that cannot be parsed *)

(** X11. When [url.parse] returns neither a host name nor a path for
    the name (the empty string counts as none), the call fails with a
    [TypeError] before the [try]: it has no effect at all, and the
    persistent cache, configured or not, is not asked.  When the name
    has come through [url.parse] and the removal of the version, and
    a persistent cache is configured, a call that fails has asked
    it. *)
Theorem unparsable_name_skips_the_persistent_cache (p : Platform) (cfg : Config)
    (w : World) (name : string) (opts : Options) (c : MemoryCache.t) :
  (string_or (hostname (url_parse p name)) (pathname (url_parse p name)) = None ->
   resolveName p cfg w name opts c
   = (Throw (TypeError "Cannot read properties of null (reading 'replace')"), c, [])) /\
  (forall n e,
     normalize p name = Normal n ->
     is_Some (pCache cfg) ->
     outcome (resolveName p cfg w name opts c) = Throw e ->
     existsb is_PersistRead (effects (resolveName p cfg w name opts c)) = true).
Proof.
  split.
  - intros H. unfold resolveName, normalize, bind, lift. rewrite H. reflexivity.
  - intros n e Hn Hpc Ho.
    destruct (test (hashRegex cfg) n) eqn:Ht.
    { rewrite (resolveName_key p cfg w name opts c _ Hn Ht) in Ho. discriminate. }
    destruct (resolveName_route p cfg w name opts c _ Hn Ht) as (rt & _ & Ho' & _ & Ha & _).
    rewrite (existsb_actions is_PersistRead) by trace_facts.
    rewrite Ha. rewrite Ho' in Ho. clear Ha Ho'.
    assert (Hb : bool_decide (is_Some (pCache cfg)) = true)
      by (apply bool_decide_eq_true_2; exact Hpc).
    destruct rt; cbn [route_outcome] in Ho; try discriminate;
      cbn [route_actions]; unfold fallen_back; rewrite Hb;
      rewrite !existsb_app; cbn [existsb is_PersistRead];
      rewrite ?orb_true_r; reflexivity.
Qed.

(* ================================================================== *)
(** ** One call after another *)

Lemma get_after_set (c : MemoryCache.t) (t0 t1 : Z) (n : string) (v : Js.value) (t : Z) :
  t <> 0 -> t1 < t0 + t ->
  MemoryCache.get (MemoryCache.set c t0 n v (Some t)) t1 n = v.
Proof.
  intros Hz Hlt. unfold MemoryCache.get, MemoryCache.set. cbn [from_option id].
  apply Z.eqb_neq in Hz. rewrite Hz. cbn [MemoryCache.entries].
  rewrite lookup_insert_eq. cbn [MemoryCache.expiresAt MemoryCache.value].
  apply Z.ltb_lt in Hlt. rewrite Hlt. reflexivity.
Qed.

(** X12. After a call whose well-known request came back with status 0
    or 404, a call for the same name within the next 60 seconds fails
    with "DNS record not found" (subject to the persistent cache)
    without any request, unless it ignores the cache or cached misses;
    the memory cache is the one modelled in [MemoryCache]. *)
Theorem miss_dampens_the_next_call (p : Platform) (cfg : Config) (w w' : World)
    (name : string) (opts opts' : Options) (c : MemoryCache.t) (n : string) :
  normalize p name = Normal n ->
  existsb is_WellKnownGet (effects (resolveName p cfg w name opts c)) = true ->
  statusCode (https_get w (wk_req cfg n)) = 0 \/
  statusCode (https_get w (wk_req cfg n)) = 404 ->
  now w' < now w + 60 ->
  ignoreCache opts' = false ->
  ignoreCachedMiss opts' = false ->
  outcome (resolveName p cfg w' name opts' (cache_after (resolveName p cfg w name opts c)))
  = failure_outcome cfg n (Error "DNS record not found") /\
  cache_after (resolveName p cfg w' name opts' (cache_after (resolveName p cfg w name opts c)))
  = cache_after (resolveName p cfg w name opts c) /\
  existsb is_network
    (effects (resolveName p cfg w' name opts' (cache_after (resolveName p cfg w name opts c))))
  = false.
Proof.
  intros Hn Hsent Hs Hlt Hi Hm.
  destruct (test (hashRegex cfg) n) eqn:Ht.
  { rewrite (resolveName_key p cfg w name opts c n Hn Ht) in Hsent. discriminate. }
  assert (Hc : cache_after (resolveName p cfg w name opts c)
               = MemoryCache.set c (now w) n (Bool false) (Some 60)).
  { destruct (resolveName_route p cfg w name opts c n Hn Ht) as (rt & Hrt & _ & Hc & Ha & _).
    rewrite (existsb_actions is_WellKnownGet) in Hsent by trace_facts.
    rewrite Ha in Hsent. rewrite Hc. clear Ha Hc.
    assert (Hst : (statusCode (https_get w (wk_req cfg n)) =? 0)
                  || (statusCode (https_get w (wk_req cfg n)) =? 404) = true)
      by (destruct Hs as [-> | ->]; reflexivity).
    destruct rt; cbn [route_taken] in Hrt; cbn [route_actions] in Hsent;
      unfold cache_read, doh_sent, stored, fallen_back in Hsent;
      try (exfalso; revert Hsent;
           repeat match goal with |- context [if ?b then _ else _] => destruct b end;
           discriminate).
    - exfalso. destruct Hrt as (_ & _ & _ & Ho).
      destruct (wellKnown_lookup_not_found cfg w n c Hs) as (tw & Hrun & _).
      rewrite Hrun in Ho. discriminate.
    - destruct Hrt as (_ & _ & _ & _ & ->). rewrite Hst. reflexivity. }
  rewrite Hc.
  assert (Hget : MemoryCache.get (MemoryCache.set c (now w) n (Bool false) (Some 60)) (now w') n
                 = Bool false) by (apply get_after_set; [discriminate|exact Hlt]).
  assert (Hrt : route_taken p cfg w' opts'
                  (MemoryCache.set c (now w) n (Bool false) (Some 60)) n CachedMiss).
  { cbn [route_taken]. rewrite Hget. auto. }
  destruct (route_run p cfg w' name opts' _ n _ Hn Ht Hrt) as (Ho & Hc' & Ha & _).
  split; [exact Ho|]. split; [exact Hc'|].
  rewrite (existsb_actions is_network) by trace_facts. rewrite Ha.
  cbn [route_actions]. unfold fallen_back.
  destruct (bool_decide (is_Some (pCache cfg))); reflexivity.
Qed.

(** X13. After a call that a probe answered with a key and a ttl other
    than 0, a call for the same name before the ttl has run out returns
    the same key from the memory cache: its only effect is the read of
    the cache.  The memory cache is the one modelled in
    [MemoryCache]. *)
Theorem answer_is_served_from_cache (p : Platform) (cfg : Config) (w w' : World)
    (name : string) (opts opts' : Options) (c : MemoryCache.t) (n : string)
    (r : ProbeResult) :
  normalize p name = Normal n ->
  test (hashRegex cfg) n = false ->
  reaches_probes w opts c n = true ->
  (noDnsOverHttps opts = false /\
   outcome (dnsOverHttps_lookup p cfg w n c) = Normal r) \/
  (noWellknownDat opts = false /\
   (noDnsOverHttps opts = false ->
    exists e, outcome (dnsOverHttps_lookup p cfg w n c) = Throw e) /\
   outcome (wellKnown_lookup cfg w n c) = Normal r) ->
  truthy (key r) = true ->
  ttl r <> 0 ->
  now w' < now w + ttl r ->
  ignoreCache opts' = false ->
  outcome (resolveName p cfg w name opts c) = Normal (key r) /\
  resolveName p cfg w' name opts' (cache_after (resolveName p cfg w name opts c))
  = (Normal (key r), cache_after (resolveName p cfg w name opts c), [CacheGet n]).
Proof.
  intros Hn Ht Hr Hans Hk Hz Hlt Hi.
  assert (Hrun : outcome (resolveName p cfg w name opts c) = Normal (key r) /\
                 cache_after (resolveName p cfg w name opts c)
                 = MemoryCache.set c (now w) n (key r) (Some (ttl r))).
  { apply Z.eqb_neq in Hz.
    destruct Hans as [[Hd Ho]|(Hw & Hd & Ho)].
    - assert (Hrt : route_taken p cfg w opts c n (ByDnsOverHttps r)) by (cbn; auto).
      destruct (route_run p cfg w name opts c n _ Hn Ht Hrt) as (-> & -> & _).
      cbn [route_outcome route_cache]. rewrite Hz. auto.
    - assert (Hrt : route_taken p cfg w opts c n (ByWellKnown r)) by (cbn; auto).
      destruct (route_run p cfg w name opts c n _ Hn Ht Hrt) as (-> & -> & _).
      cbn [route_outcome route_cache]. rewrite Hz. auto. }
  destruct Hrun as [Ho Hc]. split; [exact Ho|]. rewrite Hc.
  assert (Hget : MemoryCache.get (MemoryCache.set c (now w) n (key r) (Some (ttl r))) (now w') n
                 = key r) by (apply get_after_set; assumption).
  rewrite (lookup_hit p cfg w' name opts' _ n Hn Ht Hi)
    by (rewrite Hget; exact Hk).
  rewrite Hget. reflexivity.
Qed.

(* ================================================================== *)
(** ** What the capture group holds *)

Section Captures.

Variable i : bool.

Lemma repeat_matcher_keeps_any (Q : option (list ascii) -> Prop) (body : cont -> cont) :
  (forall c, keeps Q c -> keeps Q (body c)) ->
  forall fuel min max greedy c,
    keeps Q c -> keeps Q (repeat_matcher body false fuel min max greedy c).
Proof.
  intros Hbody fuel. induction fuel as [|fuel IH]; intros min max greedy c Hc x z H Hx.
  - discriminate.
  - simpl in H.
    assert (Hd : keeps Q (fun y =>
      if Nat.eqb min 0 && Nat.eqb (endIndex y) (endIndex x) then None
      else repeat_matcher body false fuel (Nat.pred min) (dec_max max) greedy c y)).
    { intros y y' Hy Hgy.
      destruct (Nat.eqb min 0 && Nat.eqb (endIndex y) (endIndex x)); [discriminate|].
      eapply IH; eauto. }
    pose proof (Hbody _ Hd) as Hb.
    destruct max as [[|m]|].
    + eapply Hc; eauto.
    + destruct (negb (Nat.eqb min 0)); [eapply Hb; eauto|].
      destruct (negb greedy).
      * destruct (c x) eqn:E; [inversion H; subst; eapply Hc; eauto | eapply Hb; eauto].
      * match type of H with match ?b with _ => _ end = _ => destruct b eqn:E end;
          [inversion H; subst; eapply Hb; eauto | eapply Hc; eauto].
    + destruct (negb (Nat.eqb min 0)); [eapply Hb; eauto|].
      destruct (negb greedy).
      * destruct (c x) eqn:E; [inversion H; subst; eapply Hc; eauto | eapply Hb; eauto].
      * match type of H with match ?b with _ => _ end = _ => destruct b eqn:E end;
          [inversion H; subst; eapply Hb; eauto | eapply Hc; eauto].
Qed.

(** Matching a pattern without the group leaves the group as it is,
    whatever it holds. *)
Lemma matcher_keeps_any (Q : option (list ascii) -> Prop) (r : regex) :
  has_group r = false -> forall c, keeps Q c -> keeps Q (matcher i r c).
Proof.
  induction r as [| |ch|ng rs|r1 IH1 r2 IH2|min max greedy r IH|r IH];
    intros Hg c Hc x z H Hx; simpl in H, Hg.
  - destruct (Nat.eqb (endIndex x) 0); [eapply Hc; eauto|discriminate].
  - destruct (rest x); [eapply Hc; eauto|discriminate].
  - destruct (rest x); [discriminate|].
    destruct (Ascii.eqb _ _); [eapply Hc; eauto|discriminate].
  - destruct (rest x); [discriminate|].
    destruct (xorb _ _); [eapply Hc; eauto|discriminate].
  - apply orb_false_elim in Hg as [Hg1 Hg2].
    eapply (IH1 Hg1 (matcher i r2 c)); eauto.
  - rewrite Hg in H.
    eapply (repeat_matcher_keeps_any Q (matcher i r)); eauto.
  - discriminate.
Qed.

(** When the group of a pattern is [cls{n}], every match leaves [n]
    characters of the class in the group. *)
Lemma matcher_captured (r : regex) (n : nat) (g ng : bool) (rs : list (ascii * ascii)) :
  captured_term r = Some (Rep n (Some n) g (Cls ng rs)) ->
  forall c x z,
    keeps (holds_class i n ng rs) c ->
    matcher i r c x = Some z -> holds_class i n ng rs (group1 z).
Proof.
  induction r as [| |ch|ng' rs'|r1 IH1 r2 IH2|min max greedy r IH|r IH];
    intros Hcap c x z Hc H; simpl in Hcap; try discriminate.
  - simpl in H. destruct (always_captures r1 && negb (has_group r2)) eqn:E.
    + apply andb_true_iff in E as [_ E]. apply negb_true_iff in E.
      eapply (IH1 Hcap (matcher i r2 c)); eauto using matcher_keeps_any.
    + apply matcher_through in H as [y Hy]. eapply IH2; eauto.
  - inversion Hcap; subst r. simpl in H.
    apply repeat_class_exactly in H as (pre & t & Hr & Hlen & Hall & Hz); [|lia].
    cbn [endIndex rest] in Hz.
    eapply Hc; [exact Hz|]. cbn [group1].
    exists pre. split; [|split; assumption].
    rewrite Hr. f_equal.
    replace (endIndex x + n - endIndex x)%nat with (length pre) by lia.
    apply take_app_length.
Qed.

Lemma search_captured (r : regex) (n : nat) (g ng : bool) (rs : list (ascii * ascii))
    (input : list ascii) :
  captured_term r = Some (Rep n (Some n) g (Cls ng rs)) ->
  forall pos m, search i r pos input = Some m ->
    exists l, capture1 m = Some (string_of_list_ascii l) /\ length l = n /\
              forallb (fun a => xorb ng (in_ranges i rs a)) l = true.
Proof.
  intros Hcap.
  assert (Hsome : keeps (holds_class i n ng rs) Some).
  { intros x y Hxy. inversion Hxy; subst; auto. }
  induction input as [|a input IH]; intros pos m H; simpl in H.
  - destruct (matcher i r Some _) eqn:E; [|discriminate].
    inversion H; subst; simpl.
    eapply matcher_captured in E as (l & Hl & Hlen & Hall); eauto.
    rewrite Hl. simpl. eauto.
  - destruct (matcher i r Some _) eqn:E; [|eapply IH; eauto].
    inversion H; subst; simpl.
    eapply matcher_captured in E as (l & Hl & Hlen & Hall); eauto.
    rewrite Hl. simpl. eauto.
Qed.

End Captures.

Lemma hex_digits_class (l : list ascii) :
  forallb (fun a => xorb false (in_ranges true [("0", "9"); ("a", "f")]%char a)) l
  = forallb is_hex_digit l.
Proof.
  induction l as [|a l IH]; [reflexivity|]. cbn [forallb]. rewrite IH, hex_class. reflexivity.
Qed.

(** A match of a pattern whose group is [[0-9a-f]{64}] under the [i]
    flag has a key as [m[1]]. *)
Lemma exec_captures_key (re : RegExp) (s : string) (m : match_result) (g : bool) :
  ignoreCase re = true ->
  captured_term (pattern re) = Some (Rep 64 (Some 64%nat) g hex) ->
  exec re s = Some m -> is_key (capture_value m) = true.
Proof.
  intros Hi Hcap H. unfold exec in H. rewrite Hi in H.
  eapply search_captured in H as (l & Hl & Hlen & Hall); [|exact Hcap].
  unfold capture_value. rewrite Hl. cbn [is_key]. unfold is_key_text.
  rewrite <- length_list_ascii_of_string, list_ascii_of_string_of_list_ascii, Hlen.
  rewrite hex_digits_class in Hall. rewrite Hall. reflexivity.
Qed.

(* ================================================================== *)
(** ** The shape of the keys that the probes find *)

Lemma candidates_are_keys (re : RegExp) (g : bool) (items : list Js.value)
    (a kv : Js.value) :
  ignoreCase re = true ->
  captured_term (pattern re) = Some (Rep 64 (Some 64%nat) g hex) ->
  In (a, kv) (candidates re items) -> is_key kv = true.
Proof.
  intros Hi Hcap Hin. unfold candidates in Hin.
  apply list_elem_of_In in Hin. apply list_elem_of_omap in Hin as (v & _ & Hc).
  unfold candidate in Hc.
  destruct v as [| | | | | |props]; try discriminate.
  destruct (assoc "data" props) as [| | | |data| |]; try discriminate.
  destruct (exec re data) as [m|] eqn:Hm; [|discriminate].
  inversion Hc; subst. eapply exec_captures_key; eauto.
Qed.

Lemma In_sort_insert {A : Type} (cmp : A -> A -> Z) (x y : A) (l : list A) :
  In y (sort_insert cmp x l) -> y = x \/ In y l.
Proof.
  induction l as [|b l IH]; simpl.
  - intros [H|[]]; auto.
  - destruct (cmp x b <=? 0); simpl.
    + intros [H|[H|H]]; auto.
    + intros [H|H]; auto. destruct (IH H); auto.
Qed.

Lemma In_sort {A : Type} (cmp : A -> A -> Z) (y : A) (l : list A) :
  In y (Js.sort cmp l) -> In y l.
Proof.
  induction l as [|a l IH]; simpl; [auto|].
  intros H. apply In_sort_insert in H as [H|H]; auto.
Qed.

Lemma parseDnsOverHttpsRecord_key (p : Platform) (name body : string) (re : RegExp)
    (g : bool) (c : MemoryCache.t) (r : ProbeResult) :
  ignoreCase re = true ->
  captured_term (pattern re) = Some (Rep 64 (Some 64%nat) g hex) ->
  outcome (parseDnsOverHttpsRecord p name body re c) = Normal r ->
  is_key (key r) = true.
Proof.
  intros Hi Hcap H.
  apply parseDnsOverHttpsRecord_result in H as (record & items & a & others & _ & _ & Hs & _).
  apply (candidates_are_keys re g items a (key r) Hi Hcap).
  apply (In_sort by_key_descending). rewrite Hs. left. reflexivity.
Qed.

Lemma parseWellknownDatRecord_match (name body : string) (re : RegExp) (rn : string)
    (c : MemoryCache.t) (r : ProbeResult) :
  outcome (parseWellknownDatRecord name body re rn c) = Normal r ->
  body <> ""%string /\
  exists m, exec re (default ""%string (head (Js.split body newline))) = Some m /\
            key r = capture_value m.
Proof.
  unfold parseWellknownDatRecord.
  destruct (String.eqb_spec body ""); [cbn; discriminate|].
  destruct (exec _ _) as [m|]; [|cbn; discriminate].
  unfold bind, try_catch, lift, emit, tell, ret.
  destruct (parse_ttl_line _) as [v|e]; cbn; intros H; inversion H; subst; eauto.
Qed.

Lemma parseWellknownDatRecord_key (name body : string) (re : RegExp) (g : bool)
    (rn : string) (c : MemoryCache.t) (r : ProbeResult) :
  ignoreCase re = true ->
  captured_term (pattern re) = Some (Rep 64 (Some 64%nat) g hex) ->
  outcome (parseWellknownDatRecord name body re rn c) = Normal r ->
  is_key (key r) = true.
Proof.
  intros Hi Hcap H.
  apply parseWellknownDatRecord_match in H as (_ & m & Hm & ->).
  eapply exec_captures_key; eauto.
Qed.

(** X14. With the default patterns, the key of every result of
    [parseDnsOverHttpsRecord] and of [parseWellknownDatRecord] is a
    string of exactly 64 hexadecimal digits, whatever the response
    was. *)
Theorem probe_results_are_keys :
  (forall (p : Platform) (name body : string) (c : MemoryCache.t) (r : ProbeResult),
     outcome (parseDnsOverHttpsRecord p name body DAT_TXT_REGEX c) = Normal r ->
     exists k, key r = Str k /\ String.length k = 64%nat /\
               forallb is_hex_digit (list_ascii_of_string k) = true) /\
  (forall (name body rn : string) (c : MemoryCache.t) (r : ProbeResult),
     outcome (parseWellknownDatRecord name body DAT_PROTOCOL_REGEX rn c) = Normal r ->
     exists k, key r = Str k /\ String.length k = 64%nat /\
               forallb is_hex_digit (list_ascii_of_string k) = true).
Proof.
  assert (Hkey : forall v, is_key v = true ->
            exists k, v = Str k /\ String.length k = 64%nat /\
                      forallb is_hex_digit (list_ascii_of_string k) = true).
  { intros v Hv. destruct v; try discriminate. cbn in Hv. unfold is_key_text in Hv.
    apply andb_true_iff in Hv as [Hlen Hhex]. apply Nat.eqb_eq in Hlen. eauto. }
  split.
  - intros p name body c r H. apply Hkey.
    apply (parseDnsOverHttpsRecord_key p name body DAT_TXT_REGEX true c r); auto.
  - intros name body rn c r H. apply Hkey.
    apply (parseWellknownDatRecord_key name body DAT_PROTOCOL_REGEX true rn c r); auto.
Qed.

(** X15. In a resolver with the default patterns, every ['resolved']
    event carries a key of 64 hexadecimal digits; what a call writes to
    the memory cache is such a key, [false] for a miss, or [undefined];
    what it hands to [pCache.write] is such a key or [undefined]. *)
Theorem default_patterns_store_keys (p : Platform) (cfg : Config) (w : World)
    (name : string) (opts : Options) (c : MemoryCache.t) :
  dnsTxtRegex cfg = DAT_TXT_REGEX ->
  protocolRegex cfg = DAT_PROTOCOL_REGEX ->
  (forall method nm k,
     In (Emit (Resolved method nm k)) (effects (resolveName p cfg w name opts c)) ->
     is_key k = true) /\
  (forall nm v t,
     In (CacheSet nm v t) (effects (resolveName p cfg w name opts c)) ->
     is_key v = true \/ v = Bool false \/ v = Undefined) /\
  (forall nm v t,
     In (PersistWrite nm v t) (effects (resolveName p cfg w name opts c)) ->
     is_key v = true \/ v = Undefined).
Proof.
  intros Htxt Hproto.
  destruct (normalize p name) as [n|e0] eqn:Hn.
  2: { unfold resolveName, bind, lift. rewrite Hn. cbn. repeat split; intros; contradiction. }
  destruct (test (hashRegex cfg) n) eqn:Ht.
  { rewrite (resolveName_key p cfg w name opts c n Hn Ht). cbn.
    repeat split; intros; contradiction. }
  destruct (resolveName_route p cfg w name opts c n Hn Ht) as (rt & Hrt & _ & _ & Ha & He).
  assert (Hk : forall r, rt = ByDnsOverHttps r \/ rt = ByWellKnown r -> is_key (key r) = true).
  { intros r [-> | ->]; cbn [route_taken] in Hrt.
    - destruct Hrt as (_ & _ & Ho).
      destruct (dnsOverHttps_lookup_full p cfg w n c) as (od & td & Hdoh & _ & _ & Hp).
      rewrite Hdoh in Ho. cbn in Ho. destruct (Hp r Ho) as [_ Hparse].
      rewrite Htxt in Hparse.
      exact (parseDnsOverHttpsRecord_key p n _ DAT_TXT_REGEX true c r eq_refl eq_refl Hparse).
    - destruct Hrt as (_ & _ & _ & Ho).
      destruct (wellKnown_lookup_full cfg w n c) as (ow & cw & tw & Hwk & _ & _ & Hp).
      rewrite Hwk in Ho. cbn in Ho. destruct (Hp r Ho) as [_ Hparse].
      rewrite Hproto in Hparse.
      exact (parseWellknownDatRecord_key n _ DAT_PROTOCOL_REGEX true _ c r
               eq_refl eq_refl Hparse). }
  split; [|split].
  - intros method nm k Hin.
    assert (Hin' : In (Emit (Resolved method nm k))
                      (List.filter is_Resolved (effects (resolveName p cfg w name opts c)))).
    { apply List.filter_In. split; [exact Hin|reflexivity]. }
    rewrite He in Hin'. clear He Ha Hin.
    destruct rt; cbn [route_resolved] in Hin'; try contradiction;
      destruct Hin' as [Hin'|[]]; inversion Hin'; subst; apply Hk; auto.
  - intros nm v t Hin.
    apply (In_filter_actions is_CacheSet) in Hin; [|apply emit_not_CacheSet|reflexivity].
    rewrite Ha in Hin. clear Ha He.
    destruct rt; cbn [route_actions] in Hin;
      unfold cache_read, doh_sent, stored, fallen_back in Hin;
      try (specialize (Hk r));
      revert Hin;
      repeat match goal with |- context [if ?b then _ else _] => destruct b eqn:? end;
      cbn [app In]; intros Hin;
      repeat (destruct Hin as [Hin|Hin]; try discriminate); try contradiction;
      inversion Hin; subst; auto.
  - intros nm v t Hin.
    apply (In_filter_actions is_PersistWrite) in Hin; [|apply emit_not_PersistWrite|reflexivity].
    rewrite Ha in Hin. clear Ha He.
    destruct rt; cbn [route_actions] in Hin;
      unfold cache_read, doh_sent, stored, fallen_back in Hin;
      try (specialize (Hk r));
      revert Hin;
      repeat match goal with |- context [if ?b then _ else _] => destruct b eqn:? end;
      cbn [app In]; intros Hin;
      repeat (destruct Hin as [Hin|Hin]; try discriminate); try contradiction;
      inversion Hin; subst; auto.
Qed.

(* ================================================================== *)
(** ** Matching a text that has the expected form *)

Section Accepts.

Variable i : bool.

Lemma mstate_eta (x : mstate) :
  {| endIndex := endIndex x; rest := rest x; group1 := group1 x |} = x.
Proof. destruct x; reflexivity. Qed.

(** A literal is matched by every text with the same canonical
    form. *)
Lemma matcher_lit (tail : regex) (c : cont) :
  forall (s s' : list ascii) (x : mstate) (t : list ascii),
    rest x = s' ++ t ->
    map (canonicalize i) s' = map (canonicalize i) s ->
    matcher i (lit s tail) c x
    = matcher i tail c
        {| endIndex := endIndex x + length s; rest := t; group1 := group1 x |}.
Proof.
  induction s as [|ch s IH]; intros s' x t Hr Hs.
  - destruct s'; [|discriminate]. cbn [lit length]. cbn [app] in Hr.
    rewrite Nat.add_0_r, <- Hr, mstate_eta. reflexivity.
  - destruct s' as [|a s']; [discriminate|]. cbn [map] in Hs. inversion Hs as [[Ha Hs']].
    cbn [lit matcher]. rewrite Hr. cbn [app]. rewrite Ha, Ascii.eqb_refl.
    rewrite (IH s' (advance x (s' ++ t)) t eq_refl Hs'). cbn [advance endIndex group1 length].
    replace (S (endIndex x) + length s)%nat with (endIndex x + S (length s))%nat by lia.
    reflexivity.
Qed.

Lemma matcher_cls_in (ng : bool) (rs : list (ascii * ascii)) (d : cont) (x : mstate)
    (a : ascii) (t : list ascii) :
  rest x = a :: t ->
  xorb ng (in_ranges i rs a) = true ->
  matcher i (Cls ng rs) d x = d (advance x t).
Proof. intros Hr Ha. cbn [matcher]. rewrite Hr, Ha. reflexivity. Qed.

Lemma matcher_cls_end (ng : bool) (rs : list (ascii * ascii)) (d : cont) (x : mstate) :
  rest x = [] -> matcher i (Cls ng rs) d x = None.
Proof. intros Hr. cbn [matcher]. rewrite Hr. reflexivity. Qed.

Lemma matcher_chr_in (q : ascii) (d : cont) (x : mstate) (a : ascii) (t : list ascii) :
  rest x = a :: t ->
  canonicalize i a = canonicalize i q ->
  matcher i (Chr q) d x = d (advance x t).
Proof. intros Hr Ha. cbn [matcher]. rewrite Hr, Ha, Ascii.eqb_refl. reflexivity. Qed.

Lemma matcher_chr_out (q : ascii) (d : cont) (x : mstate) :
  match rest x with
  | a :: _ => Ascii.eqb (canonicalize i a) (canonicalize i q) = false
  | [] => True
  end ->
  matcher i (Chr q) d x = None.
Proof.
  intros H. cbn [matcher]. destruct (rest x) as [|a t]; [reflexivity|].
  rewrite H. reflexivity.
Qed.

(** [cls{n}] accepts [n] characters of the class. *)
Lemma repeat_class_accepts (ng : bool) (rs : list (ascii * ascii)) (greedy : bool) (c : cont) :
  forall (pre : list ascii) (fuel : nat) (x : mstate) (t : list ascii),
    (length pre < fuel)%nat ->
    rest x = pre ++ t ->
    forallb (fun a => xorb ng (in_ranges i rs a)) pre = true ->
    repeat_matcher (matcher i (Cls ng rs)) false fuel (length pre) (Some (length pre)) greedy c x
    = c {| endIndex := endIndex x + length pre; rest := t; group1 := group1 x |}.
Proof.
  induction pre as [|a pre IH]; intros fuel x t Hfuel Hr Hall.
  - destruct fuel as [|fuel]; [cbn in Hfuel; lia|]. cbn [length repeat_matcher].
    cbn [app] in Hr. rewrite Nat.add_0_r, <- Hr, mstate_eta. reflexivity.
  - destruct fuel as [|fuel]; [cbn in Hfuel; lia|].
    cbn [forallb] in Hall. apply andb_true_iff in Hall as [Ha Hall].
    cbn [length repeat_matcher Nat.eqb negb andb Nat.pred dec_max fmap option_fmap option_map].
    rewrite (matcher_cls_in ng rs _ x a (pre ++ t) Hr Ha).
    rewrite (IH fuel (advance x (pre ++ t)) t) by (cbn in Hfuel; auto; lia).
    cbn [advance endIndex group1].
    replace (S (endIndex x) + length pre)%nat with (endIndex x + S (length pre))%nat by lia.
    reflexivity.
Qed.

(** A group that is [cls{n}] accepts [n] characters of the class and
    records them. *)
Lemma matcher_group_accepts (ng : bool) (rs : list (ascii * ascii)) (greedy : bool) (c : cont)
    (pre : list ascii) (x : mstate) (t : list ascii) :
  rest x = pre ++ t ->
  forallb (fun a => xorb ng (in_ranges i rs a)) pre = true ->
  matcher i (Grp (Rep (length pre) (Some (length pre)) greedy (Cls ng rs))) c x
  = c {| endIndex := endIndex x + length pre; rest := t; group1 := Some pre |}.
Proof.
  intros Hr Hall.
  change (matcher i (Grp (Rep (length pre) (Some (length pre)) greedy (Cls ng rs))) c x)
    with (repeat_matcher (matcher i (Cls ng rs)) false
            (length pre + length (rest x) + 1) (length pre) (Some (length pre)) greedy
            (fun y => c {| endIndex := endIndex y; rest := rest y;
                           group1 := Some (take (endIndex y - endIndex x) (rest x)) |})
            x).
  rewrite (repeat_class_accepts ng rs greedy _ pre _ x t) by (auto; lia).
  cbn [endIndex rest]. rewrite Hr.
  replace (endIndex x + length pre - endIndex x)%nat with (length pre) by lia.
  rewrite take_app_length. reflexivity.
Qed.

(** A greedy [cls+] or [cls*] at the end of the input takes all of it
    when all of it is in the class. *)
Lemma repeat_class_takes_all (ng : bool) (rs : list (ascii * ascii)) (c : cont) :
  forall (v : list ascii) (fuel min : nat) (x : mstate) (z : mstate),
    forallb (fun a => xorb ng (in_ranges i rs a)) v = true ->
    rest x = v ->
    (length v < fuel)%nat ->
    (min <= length v)%nat ->
    c {| endIndex := endIndex x + length v; rest := []; group1 := group1 x |} = Some z ->
    repeat_matcher (matcher i (Cls ng rs)) false fuel min None true c x = Some z.
Proof.
  induction v as [|a v IH]; intros fuel min x z Hall Hr Hfuel Hmin Hc.
  - destruct fuel as [|fuel]; [cbn in Hfuel; lia|].
    cbn in Hmin. assert (min = 0)%nat by lia. subst min.
    cbn [repeat_matcher Nat.eqb negb]. rewrite (matcher_cls_end ng rs _ x Hr).
    cbn [length] in Hc. rewrite Nat.add_0_r, <- Hr, mstate_eta in Hc. exact Hc.
  - destruct fuel as [|fuel]; [cbn in Hfuel; lia|].
    cbn [forallb] in Hall. apply andb_true_iff in Hall as [Ha Hall].
    assert (Hnext : repeat_matcher (matcher i (Cls ng rs)) false fuel (Nat.pred min) None true c
                      (advance x v) = Some z).
    { apply IH; auto.
      - cbn in Hfuel. lia.
      - cbn in Hmin. lia.
      - cbn [advance endIndex group1]. cbn [length] in Hc.
        replace (S (endIndex x) + length v)%nat with (endIndex x + S (length v))%nat by lia.
        exact Hc. }
    cbn [repeat_matcher dec_max fmap option_fmap option_map].
    rewrite (matcher_cls_in ng rs _ x a v Hr Ha).
    cbn [advance endIndex].
    replace (Nat.eqb (S (endIndex x)) (endIndex x)) with false
      by (symmetry; apply Nat.eqb_neq; lia).
    rewrite andb_false_r. cbn [advance] in Hnext. rewrite Hnext.
    destruct (negb (Nat.eqb min 0)); reflexivity.
Qed.

(** An optional character that is not there is passed over; one that
    is there is taken when the rest matches. *)
Lemma matcher_opt_absent (q : ascii) (c : cont) (x : mstate) :
  match rest x with
  | a :: _ => Ascii.eqb (canonicalize i a) (canonicalize i q) = false
  | [] => True
  end ->
  matcher i (opt (Chr q)) c x = c x.
Proof.
  intros H.
  change (matcher i (opt (Chr q)) c x)
    with (repeat_matcher (matcher i (Chr q)) false (0 + length (rest x) + 1) 0 (Some 1%nat)
            true c x).
  rewrite Nat.add_1_r. cbn [repeat_matcher Nat.eqb negb].
  rewrite (matcher_chr_out q _ x H). reflexivity.
Qed.

Lemma matcher_opt_present (q a : ascii) (c : cont) (x z : mstate) (t : list ascii) :
  rest x = a :: t ->
  canonicalize i a = canonicalize i q ->
  c (advance x t) = Some z ->
  matcher i (opt (Chr q)) c x = Some z.
Proof.
  intros Hr Ha Hc.
  change (matcher i (opt (Chr q)) c x)
    with (repeat_matcher (matcher i (Chr q)) false (0 + length (rest x) + 1) 0 (Some 1%nat)
            true c x).
  rewrite Hr. cbn [length]. rewrite Nat.add_1_r.
  cbn [Nat.add repeat_matcher Nat.eqb negb dec_max fmap option_fmap option_map Nat.pred].
  rewrite (matcher_chr_in q _ x a t Hr Ha). cbn [advance endIndex andb].
  replace (Nat.eqb (S (endIndex x)) (endIndex x)) with false
    by (symmetry; apply Nat.eqb_neq; lia).
  cbn [advance] in Hc. rewrite Hc. reflexivity.
Qed.

(** An optional character never fails a match, and it leaves the group
    as it is. *)
Lemma matcher_opt_total (q : ascii) (x : mstate) :
  exists z, matcher i (opt (Chr q)) Some x = Some z /\ group1 z = group1 x.
Proof.
  assert (Hsome : exists z, matcher i (opt (Chr q)) Some x = Some z).
  { change (matcher i (opt (Chr q)) Some x)
      with (repeat_matcher (matcher i (Chr q)) false (0 + length (rest x) + 1) 0 (Some 1%nat)
              true Some x).
    rewrite Nat.add_1_r. cbn [repeat_matcher Nat.eqb negb].
    match goal with |- exists z, match ?b with _ => _ end = _ => destruct b end; eauto. }
  destruct Hsome as [z Hz]. exists z. split; [exact Hz|].
  assert (Hk : keeps (fun g => g = group1 x) (matcher i (opt (Chr q)) Some)).
  { apply matcher_keeps_any; [reflexivity|].
    intros y y' Hy. inversion Hy; subst. auto. }
  exact (Hk x z Hz eq_refl).
Qed.

End Accepts.

(* ================================================================== *)
(** ** Strings and their characters *)

Lemma list_ascii_of_string_append (s1 s2 : string) :
  list_ascii_of_string (s1 +:+ s2) = list_ascii_of_string s1 ++ list_ascii_of_string s2.
Proof.
  induction s1 as [|a s1 IH]; [reflexivity|].
  change (String a s1 +:+ s2) with (String a (s1 +:+ s2)).
  cbn [list_ascii_of_string app]. rewrite IH. reflexivity.
Qed.

Lemma string_append_empty (s : string) : s +:+ "" = s.
Proof.
  induction s as [|a s IH]; [reflexivity|].
  change (String a s +:+ "") with (String a (s +:+ "")). rewrite IH. reflexivity.
Qed.

Lemma string_of_list_ascii_app (l1 l2 : list ascii) :
  string_of_list_ascii (l1 ++ l2) = string_of_list_ascii l1 +:+ string_of_list_ascii l2.
Proof.
  induction l1 as [|a l1 IH]; [reflexivity|].
  cbn [app string_of_list_ascii]. rewrite IH. reflexivity.
Qed.

(** A start position at which the pattern matches ends the search. *)
Lemma search_here (i : bool) (r : regex) (pos : nat) (input : list ascii) (y : mstate) :
  matcher i r Some {| endIndex := pos; rest := input; group1 := None |} = Some y ->
  search i r pos input
  = Some {| index := pos;
            matched := string_of_list_ascii (take (endIndex y - pos) input);
            capture1 := string_of_list_ascii <$> group1 y;
            after := rest y |}.
Proof. intros H. destruct input; cbn [search]; rewrite H; reflexivity. Qed.

Lemma matcher_bol (i : bool) (r : regex) (c : cont) (x : mstate) :
  endIndex x = 0%nat -> matcher i (Cat Bol r) c x = matcher i r c x.
Proof. intros H. cbn [matcher]. rewrite H. reflexivity. Qed.

Lemma matcher_cat (i : bool) (r1 r2 : regex) (c : cont) (x : mstate) :
  matcher i (Cat r1 r2) c x = matcher i r1 (matcher i r2 c) x.
Proof. reflexivity. Qed.

(* ================================================================== *)
(** ** The version of a name *)

Lemma not_slash_class (a : ascii) :
  xorb true (in_ranges false [("/", "/")]%char a) = negb (Ascii.eqb "/" a).
Proof. destruct a as [[] [] [] [] [] [] [] []]; vm_compute; reflexivity. Qed.

Lemma version_matcher_start (c : cont) (x : mstate) :
  matcher false (pattern VERSION_REGEX) c x
  = matcher false (Chr "+")
      (matcher false (plus not_slash)
         (fun y => matcher false Eol c
                     {| endIndex := endIndex y; rest := rest y;
                        group1 := Some (take (endIndex y - endIndex x) (rest x)) |}))
      x.
Proof. reflexivity. Qed.

(** The version pattern does not match where there is no [+]. *)
Lemma version_matcher_fails (c : cont) (x : mstate) :
  match rest x with
  | a :: _ => Ascii.eqb "+" a = false
  | [] => True
  end ->
  matcher false (pattern VERSION_REGEX) c x = None.
Proof.
  intros H. rewrite version_matcher_start. apply matcher_chr_out.
  destruct (rest x) as [|a t]; [exact I|].
  cbn [canonicalize]. rewrite Ascii.eqb_sym. exact H.
Qed.

(** At a [+] that is followed, up to the end of the name, by one or
    more characters other than [/], the version pattern matches up to
    the end. *)
Lemma version_matcher_accepts (x : mstate) (v : list ascii) :
  rest x = "+"%char :: v ->
  v <> [] ->
  existsb (Ascii.eqb "/") v = false ->
  exists z, matcher false (pattern VERSION_REGEX) Some x = Some z /\ rest z = [].
Proof.
  intros Hr Hne Hslash. rewrite version_matcher_start.
  rewrite (matcher_chr_in false "+" _ x "+" v Hr eq_refl).
  change (matcher false (plus not_slash) ?c ?y)
    with (repeat_matcher (matcher false (Cls true [("/", "/")]%char)) false
            (1 + length (rest y) + 1) 1 None true c y).
  eexists. split.
  - apply (repeat_class_takes_all false true [("/", "/")]%char _ v).
    + clear Hr Hne. induction v as [|a v IH]; [reflexivity|].
      cbn [existsb] in Hslash. apply orb_false_elim in Hslash as [Ha Hv].
      cbn [forallb]. rewrite not_slash_class, Ha, (IH Hv). reflexivity.
    + reflexivity.
    + cbn [advance rest]. lia.
    + destruct v; [contradiction|]. cbn. lia.
    + cbn [matcher rest]. reflexivity.
  - reflexivity.
Qed.

Lemma version_search_skips (base : list ascii) :
  existsb (Ascii.eqb "+") base = false ->
  forall pos tl,
    search false (pattern VERSION_REGEX) pos (base ++ tl)
    = search false (pattern VERSION_REGEX) (pos + length base) tl.
Proof.
  induction base as [|a base IH]; intros H pos tl.
  - cbn [app length]. rewrite Nat.add_0_r. reflexivity.
  - cbn [existsb] in H. apply orb_false_elim in H as [Ha Hb].
    cbn [app search]. rewrite version_matcher_fails by exact Ha.
    rewrite (IH Hb). cbn [length]. f_equal. lia.
Qed.

(** [name.replace(VERSION_REGEX, '')] leaves a name without [+] as it
    is, and cuts a name at its first [+] when what follows is not empty
    and has no [/]. *)
Lemma replace_version_none (s : string) :
  includes s "+" = false -> replace s VERSION_REGEX "" = s.
Proof.
  intros H. unfold replace, exec. cbn [ignoreCase VERSION_REGEX].
  rewrite <- (app_nil_r (list_ascii_of_string s)).
  rewrite version_search_skips by exact H.
  cbn [search]. rewrite version_matcher_fails by exact I. reflexivity.
Qed.

Lemma replace_version_some (base v : string) :
  includes base "+" = false ->
  v <> ""%string ->
  includes v "/" = false ->
  replace (base +:+ "+" +:+ v) VERSION_REGEX "" = base.
Proof.
  intros Hb Hv Hs. unfold replace, exec. cbn [ignoreCase VERSION_REGEX].
  rewrite !list_ascii_of_string_append.
  rewrite version_search_skips by exact Hb.
  destruct (version_matcher_accepts
              {| endIndex := 0 + length (list_ascii_of_string base);
                 rest := list_ascii_of_string "+" ++ list_ascii_of_string v;
                 group1 := None |} (list_ascii_of_string v)) as (z & Hz & Hrest).
  { reflexivity. }
  { destruct v; [contradiction|discriminate]. }
  { exact Hs. }
  rewrite (search_here _ _ _ _ z Hz). cbn [index after].
  rewrite Hrest. cbn [Nat.add]. rewrite take_app_length.
  rewrite string_of_list_ascii_of_string. cbn [string_of_list_ascii].
  rewrite !string_append_empty. reflexivity.
Qed.

(** X16. The version of a name is ignored: when the host name (or, for
    want of one, the path) that [url.parse] finds is [base+version],
    with no [+] in [base] and a version that is not empty and has no
    [/], the name is resolved as [base]; a name without [+] is
    resolved as it is. *)
Theorem version_is_stripped (p : Platform) (name base v : string) :
  includes base "+" = false ->
  (string_or (hostname (url_parse p name)) (pathname (url_parse p name)) = Some base ->
   normalize p name = Normal base) /\
  (v <> ""%string ->
   includes v "/" = false ->
   string_or (hostname (url_parse p name)) (pathname (url_parse p name))
   = Some (base +:+ "+" +:+ v) ->
   normalize p name = Normal base).
Proof.
  intros Hb. split.
  - intros Hu. unfold normalize. rewrite Hu, replace_version_none by exact Hb. reflexivity.
  - intros Hv Hs Hu. unfold normalize.
    rewrite Hu, replace_version_some by assumption. reflexivity.
Qed.

(* ================================================================== *)
(** ** Records in the documented form *)

Lemma key_text_class (k : string) :
  is_key_text k = true ->
  length (list_ascii_of_string k) = 64%nat /\
  forallb (fun a => xorb false (in_ranges true [("0", "9"); ("a", "f")]%char a))
          (list_ascii_of_string k) = true.
Proof.
  unfold is_key_text. intros H. apply andb_true_iff in H as [Hlen Hhex].
  apply Nat.eqb_eq in Hlen. rewrite length_list_ascii_of_string, hex_digits_class. auto.
Qed.

Lemma matcher_key_group (c : cont) (x : mstate) (k t : list ascii) (greedy : bool) :
  rest x = k ++ t ->
  length k = 64%nat ->
  forallb (fun a => xorb false (in_ranges true [("0", "9"); ("a", "f")]%char a)) k = true ->
  matcher true (Grp (exactly 64 greedy hex)) c x
  = c {| endIndex := endIndex x + 64; rest := t; group1 := Some k |}.
Proof.
  intros Hr Hlen Hall. unfold exactly, hex. rewrite <- Hlen.
  apply matcher_group_accepts; assumption.
Qed.

(** The default pattern of the well-known record on a line that starts
    with [dat://] and a key. *)
Lemma protocol_pattern_accepts (k : string) (t : list ascii) :
  is_key_text k = true ->
  exists m,
    search true (pattern DAT_PROTOCOL_REGEX) 0
      (list_ascii_of_string "dat://" ++ list_ascii_of_string k ++ t) = Some m /\
    capture_value m = Str k.
Proof.
  intros Hk. destruct (key_text_class k Hk) as [Hlen Hall].
  eexists. split.
  - apply search_here. unfold DAT_PROTOCOL_REGEX. cbn [pattern]. unfold text.
    rewrite matcher_bol by reflexivity.
    rewrite (matcher_lit true _ _ (list_ascii_of_string "dat://")
               (list_ascii_of_string "dat://")
               {| endIndex := 0;
                  rest := list_ascii_of_string "dat://" ++ list_ascii_of_string k ++ t;
                  group1 := None |}
               (list_ascii_of_string k ++ t) eq_refl eq_refl).
    rewrite (matcher_key_group _ _ (list_ascii_of_string k) t true)
      by (first [reflexivity|assumption]).
    reflexivity.
  - unfold capture_value. cbn [capture1 group1 fmap option_fmap option_map].
    rewrite string_of_list_ascii_of_string. reflexivity.
Qed.

(** The default pattern of the TXT record on data that starts with
    [datkey=] and a key, with or without a quotation mark in front. *)
Lemma txt_pattern_tail (x : mstate) (k : string) (t : list ascii) :
  is_key_text k = true ->
  rest x = list_ascii_of_string "datkey=" ++ list_ascii_of_string k ++ t ->
  exists z,
    matcher true (text "datkey=" (Cat (Grp (exactly 64 true hex)) (opt (Chr quote)))) Some x
    = Some z /\
    group1 z = Some (list_ascii_of_string k).
Proof.
  intros Hk Hr. destruct (key_text_class k Hk) as [Hlen Hall].
  unfold text.
  rewrite (matcher_lit true _ _ (list_ascii_of_string "datkey=")
             (list_ascii_of_string "datkey=") x (list_ascii_of_string k ++ t) Hr eq_refl).
  rewrite matcher_cat.
  rewrite (matcher_key_group _ _ (list_ascii_of_string k) t true)
    by (first [reflexivity|assumption]).
  destruct (matcher_opt_total true quote
              {| endIndex := endIndex x + length (list_ascii_of_string "datkey=") + 64;
                 rest := t; group1 := Some (list_ascii_of_string k) |}) as (z & Hz & Hg).
  exists z. split; [exact Hz|exact Hg].
Qed.

Lemma txt_pattern_accepts (quoted : bool) (k : string) (t : list ascii) :
  is_key_text k = true ->
  exists m,
    search true (pattern DAT_TXT_REGEX) 0
      ((if quoted then [quote] else [])
       ++ list_ascii_of_string "datkey=" ++ list_ascii_of_string k ++ t) = Some m /\
    capture_value m = Str k.
Proof.
  intros Hk.
  assert (Hm : exists z,
    matcher true (pattern DAT_TXT_REGEX) Some
      {| endIndex := 0;
         rest := (if quoted then [quote] else [])
                 ++ list_ascii_of_string "datkey=" ++ list_ascii_of_string k ++ t;
         group1 := None |} = Some z /\
    group1 z = Some (list_ascii_of_string k)).
  { unfold DAT_TXT_REGEX. cbn [pattern]. rewrite matcher_cat. destruct quoted.
    - destruct (txt_pattern_tail
                  (advance {| endIndex := 0;
                              rest := [quote] ++ list_ascii_of_string "datkey="
                                      ++ list_ascii_of_string k ++ t;
                              group1 := None |}
                           (list_ascii_of_string "datkey=" ++ list_ascii_of_string k ++ t))
                  k t Hk eq_refl) as (z & Hz & Hg).
      exists z. split; [|exact Hg].
      eapply matcher_opt_present; [reflexivity|reflexivity|exact Hz].
    - destruct (txt_pattern_tail
                  {| endIndex := 0;
                     rest := [] ++ list_ascii_of_string "datkey="
                             ++ list_ascii_of_string k ++ t;
                     group1 := None |} k t Hk eq_refl) as (z & Hz & Hg).
      exists z. split; [|exact Hg].
      rewrite matcher_opt_absent; [exact Hz|]. reflexivity. }
  destruct Hm as (z & Hz & Hg).
  eexists. split; [apply search_here; exact Hz|].
  unfold capture_value. cbn [capture1]. rewrite Hg.
  cbn [fmap option_fmap option_map]. rewrite string_of_list_ascii_of_string. reflexivity.
Qed.

Lemma matcher_group_plus (i ng : bool) (rs : list (ascii * ascii)) (c : cont) (x : mstate) :
  matcher i (Grp (plus (Cls ng rs))) c x
  = repeat_matcher (matcher i (Cls ng rs)) false (1 + length (rest x) + 1) 1 None true
      (fun y => c {| endIndex := endIndex y; rest := rest y;
                     group1 := Some (take (endIndex y - endIndex x) (rest x)) |})
      x.
Proof. reflexivity. Qed.

Lemma decimal_digits_class (l : list ascii) :
  forallb is_decimal_digit l = true ->
  forallb (fun a => xorb false (in_ranges true [("0", "9")]%char a)) l = true.
Proof.
  induction l as [|a l IH]; [reflexivity|]. cbn [forallb]. intros H.
  apply andb_true_iff in H as [Ha Hl]. rewrite (IH Hl), andb_true_r.
  unfold is_decimal_digit in Ha. cbn [in_ranges existsb xorb]. rewrite Ha. reflexivity.
Qed.

(** The pattern of the ttl line on [ttl=] or [TTL=] and digits. *)
Lemma ttl_pattern_accepts (label d : string) :
  label = "ttl="%string \/ label = "TTL="%string ->
  d <> ""%string ->
  forallb is_decimal_digit (list_ascii_of_string d) = true ->
  exists m,
    search true (pattern TTL_LINE_REGEX) 0
      (list_ascii_of_string label ++ list_ascii_of_string d) = Some m /\
    capture1 m = Some d.
Proof.
  intros Hlabel Hd Hall. apply decimal_digits_class in Hall.
  eexists. split.
  - apply search_here. unfold TTL_LINE_REGEX. cbn [pattern]. unfold text, digit.
    rewrite matcher_bol by reflexivity.
    rewrite (matcher_lit true _ _ (list_ascii_of_string "ttl=")
               (list_ascii_of_string label)
               {| endIndex := 0;
                  rest := list_ascii_of_string label ++ list_ascii_of_string d;
                  group1 := None |}
               (list_ascii_of_string d) eq_refl)
      by (destruct Hlabel as [-> | ->]; reflexivity).
    rewrite matcher_cat, matcher_group_plus.
    apply (repeat_class_takes_all true false [("0", "9")]%char _ (list_ascii_of_string d)).
    + exact Hall.
    + reflexivity.
    + cbn [rest]. lia.
    + destruct d; [contradiction|]. cbn. lia.
    + cbn [matcher rest endIndex group1]. reflexivity.
  - cbn [capture1 group1 fmap option_fmap option_map endIndex rest]. f_equal.
    rewrite take_ge by lia. apply string_of_list_ascii_of_string.
Qed.

(** [s.split(c)] on a line without [c], and on a first line without
    [c] that is followed by [c] and more. *)
Lemma split_chars_last (c : ascii) (l : list ascii) :
  forallb (fun a => negb (Ascii.eqb a c)) l = true ->
  forall cur, split_chars c cur l = [string_of_list_ascii (rev cur ++ l)].
Proof.
  induction l as [|a l IH]; intros H cur.
  - cbn [split_chars]. rewrite app_nil_r. reflexivity.
  - cbn [forallb] in H. apply andb_true_iff in H as [Ha Hl]. apply negb_true_iff in Ha.
    cbn [split_chars]. rewrite Ha, (IH Hl). cbn [rev]. rewrite <- app_assoc. reflexivity.
Qed.

Lemma split_chars_line (c : ascii) (l : list ascii) (tl : list ascii) :
  forallb (fun a => negb (Ascii.eqb a c)) l = true ->
  forall cur,
    split_chars c cur (l ++ c :: tl)
    = string_of_list_ascii (rev cur ++ l) :: split_chars c [] tl.
Proof.
  induction l as [|a l IH]; intros H cur.
  - cbn [app split_chars]. rewrite Ascii.eqb_refl, app_nil_r. reflexivity.
  - cbn [forallb] in H. apply andb_true_iff in H as [Ha Hl]. apply negb_true_iff in Ha.
    cbn [app split_chars]. rewrite Ha, (IH Hl). cbn [rev]. rewrite <- app_assoc. reflexivity.
Qed.

Lemma hex_digit_not_newline (a : ascii) :
  is_hex_digit a = true -> negb (Ascii.eqb a newline) = true.
Proof. destruct a as [[] [] [] [] [] [] [] []]; vm_compute; congruence. Qed.

Lemma decimal_digit_not_newline (a : ascii) :
  is_decimal_digit a = true -> negb (Ascii.eqb a newline) = true.
Proof. destruct a as [[] [] [] [] [] [] [] []]; vm_compute; congruence. Qed.

Lemma forallb_impl_bool {A : Type} (P Q : A -> bool) (l : list A) :
  (forall a, P a = true -> Q a = true) -> forallb P l = true -> forallb Q l = true.
Proof.
  intros HPQ. induction l as [|a l IH]; [reflexivity|]. cbn [forallb]. intros H.
  apply andb_true_iff in H as [Ha Hl]. rewrite (HPQ a Ha), (IH Hl). reflexivity.
Qed.

(** What [parseWellknownDatRecord] makes of a body whose first line the
    pattern accepts. *)
Lemma parseWellknownDatRecord_lines (name body : string) (re : RegExp) (rn : string)
    (c : MemoryCache.t) (m : match_result) :
  body <> ""%string ->
  exec re (default ""%string (head (Js.split body newline))) = Some m ->
  parseWellknownDatRecord name body re rn c =
  match parse_ttl_line (Js.split body newline) with
  | Normal raw => (Normal {| key := capture_value m; ttl := limit_ttl raw |}, c, [])
  | Throw e =>
    (Normal {| key := capture_value m; ttl := DEFAULT_DAT_DNS_TTL |}, c,
     [Emit (Failed "well-known" name (TtlLine e))])
  end.
Proof.
  intros Hb Hm. unfold parseWellknownDatRecord.
  destruct (String.eqb_spec body ""); [contradiction|].
  rewrite Hm. unfold bind, try_catch, lift, emit, tell, ret.
  destruct (parse_ttl_line _) as [raw|e]; reflexivity.
Qed.

Lemma parse_ttl_line_second (l0 l1 : string) (others : list string) :
  parse_ttl_line (l0 :: l1 :: others) =
  if String.eqb l1 "" then Normal Undefined
  else match exec TTL_LINE_REGEX l1 with
       | Some m =>
         match capture1 m with
         | Some digits => Normal (Num (Integer (to_number digits)))
         | None => Normal (Num NaN)
         end
       | None => Throw (TypeError "Cannot read properties of null (reading '1')")
       end.
Proof. reflexivity. Qed.

Lemma key_line_has_no_newline (k : string) :
  is_key_text k = true ->
  forallb (fun a => negb (Ascii.eqb a newline))
          (list_ascii_of_string "dat://" ++ list_ascii_of_string k) = true.
Proof.
  intros Hk. unfold is_key_text in Hk. apply andb_true_iff in Hk as [_ Hhex].
  rewrite forallb_app. apply andb_true_iff. split; [reflexivity|].
  exact (forallb_impl_bool _ _ _ hex_digit_not_newline Hhex).
Qed.

Lemma key_line_accepted (k : string) :
  is_key_text k = true ->
  exists m,
    exec DAT_PROTOCOL_REGEX
      (string_of_list_ascii (list_ascii_of_string "dat://" ++ list_ascii_of_string k))
    = Some m /\
    capture_value m = Str k.
Proof.
  intros Hk. destruct (protocol_pattern_accepts k [] Hk) as (m & Hm & Hc).
  exists m. split; [|exact Hc].
  unfold exec. cbn [ignoreCase DAT_PROTOCOL_REGEX].
  rewrite list_ascii_of_string_of_list_ascii. rewrite app_nil_r in Hm. exact Hm.
Qed.

Lemma split_key_line (k : string) :
  is_key_text k = true ->
  Js.split ("dat://" +:+ k) newline
  = [string_of_list_ascii (list_ascii_of_string "dat://" ++ list_ascii_of_string k)].
Proof.
  intros Hk. unfold Js.split. rewrite list_ascii_of_string_append.
  rewrite split_chars_last by (apply key_line_has_no_newline; exact Hk). reflexivity.
Qed.

Lemma split_key_and_ttl_lines (k label d : string) :
  is_key_text k = true ->
  label = "ttl="%string \/ label = "TTL="%string ->
  forallb is_decimal_digit (list_ascii_of_string d) = true ->
  Js.split ("dat://" +:+ k +:+ String newline (label +:+ d)) newline
  = [string_of_list_ascii (list_ascii_of_string "dat://" ++ list_ascii_of_string k);
     string_of_list_ascii (list_ascii_of_string label ++ list_ascii_of_string d)].
Proof.
  intros Hk Hlabel Hdigits. unfold Js.split. rewrite !list_ascii_of_string_append.
  cbn [list_ascii_of_string]. rewrite list_ascii_of_string_append.
  rewrite app_assoc, split_chars_line by (apply key_line_has_no_newline; exact Hk).
  rewrite split_chars_last; [reflexivity|].
  rewrite forallb_app. apply andb_true_iff. split.
  - destruct Hlabel as [-> | ->]; reflexivity.
  - exact (forallb_impl_bool _ _ _ decimal_digit_not_newline Hdigits).
Qed.

(** The ttl line [ttl=] or [TTL=] and digits stands for the number. *)
Lemma ttl_line_read (l0 label d : string) :
  label = "ttl="%string \/ label = "TTL="%string ->
  d <> ""%string ->
  forallb is_decimal_digit (list_ascii_of_string d) = true ->
  parse_ttl_line
    [l0; string_of_list_ascii (list_ascii_of_string label ++ list_ascii_of_string d)]
  = Normal (Num (Integer (to_number d))).
Proof.
  intros Hlabel Hd Hdigits.
  destruct (ttl_pattern_accepts label d Hlabel Hd Hdigits) as (m & Hm & Hc).
  rewrite parse_ttl_line_second.
  replace (String.eqb (string_of_list_ascii
                         (list_ascii_of_string label ++ list_ascii_of_string d)) "")
    with false by (destruct Hlabel as [-> | ->]; reflexivity).
  unfold exec. cbn [ignoreCase TTL_LINE_REGEX].
  rewrite list_ascii_of_string_of_list_ascii, Hm, Hc. reflexivity.
Qed.

(** X17. A well-known record in the documented form is read as it
    stands: the body [dat://] followed by a key gives that key with
    the default ttl; with a second line [TTL=] (or [ttl=]) followed by
    decimal digits it gives that key and the number, subject to the
    limits of a ttl.  Neither emits an event. *)
Theorem wellknown_record_is_read (name rn : string) (c : MemoryCache.t) (k : string) :
  is_key_text k = true ->
  parseWellknownDatRecord name ("dat://" +:+ k) DAT_PROTOCOL_REGEX rn c
  = (Normal {| key := Str k; ttl := 3600 |}, c, []) /\
  forall label d : string,
    label = "ttl="%string \/ label = "TTL="%string ->
    d <> ""%string ->
    forallb is_decimal_digit (list_ascii_of_string d) = true ->
    parseWellknownDatRecord name ("dat://" +:+ k +:+ String newline (label +:+ d))
      DAT_PROTOCOL_REGEX rn c
    = (Normal {| key := Str k; ttl := limit_ttl (Num (Integer (to_number d))) |}, c, []).
Proof.
  intros Hk.
  destruct (key_line_accepted k Hk) as (m & Hm & Hc).
  split.
  - rewrite (parseWellknownDatRecord_lines name _ DAT_PROTOCOL_REGEX rn c m)
      by (first [discriminate | rewrite split_key_line by exact Hk; exact Hm]).
    rewrite split_key_line by exact Hk. rewrite Hc. reflexivity.
  - intros label d Hlabel Hd Hdigits.
    rewrite (parseWellknownDatRecord_lines name _ DAT_PROTOCOL_REGEX rn c m)
      by (first [discriminate
                | rewrite split_key_and_ttl_lines by assumption; exact Hm]).
    rewrite split_key_and_ttl_lines by assumption.
    rewrite ttl_line_read by assumption. rewrite Hc. reflexivity.
Qed.

(** X18. A ttl line that cannot be read does not make
    [parseWellknownDatRecord] fail: once the first line has been
    accepted the parser returns the key of the first line, whatever
    follows; when the second line is not empty and is not [ttl=] and
    digits, the ttl is the default and one ['failed'] event reports
    the line, otherwise there is no event. *)
Theorem malformed_ttl_line_is_not_fatal (name body : string) (re : RegExp) (rn : string)
    (c : MemoryCache.t) (m : match_result) :
  body <> ""%string ->
  exec re (default ""%string (head (Js.split body newline))) = Some m ->
  outcome (parseWellknownDatRecord name body re rn c)
  = Normal {| key := capture_value m; ttl := limit_ttl (ttl_line_value body) |} /\
  cache_after (parseWellknownDatRecord name body re rn c) = c /\
  match parse_ttl_line (Js.split body newline) with
  | Normal _ => effects (parseWellknownDatRecord name body re rn c) = []
  | Throw e =>
    effects (parseWellknownDatRecord name body re rn c)
    = [Emit (Failed "well-known" name (TtlLine e))] /\
    limit_ttl (ttl_line_value body) = 3600
  end.
Proof.
  intros Hb Hm. rewrite (parseWellknownDatRecord_lines name body re rn c m Hb Hm).
  unfold ttl_line_value.
  destruct (parse_ttl_line (Js.split body newline)) as [raw|e]; cbn; auto.
Qed.

(** An answer whose data is [datkey=] and a key is a candidate with
    that key. *)
Lemma txt_answer_is_candidate (props : list (string * Js.value)) (quoted : bool)
    (k tl : string) :
  assoc "data" props
  = Str ((if quoted then String quote "" else "") +:+ "datkey=" +:+ k +:+ tl) ->
  is_key_text k = true ->
  candidate DAT_TXT_REGEX (Obj props) = Some (Obj props, Str k).
Proof.
  intros Hdata Hk.
  destruct (txt_pattern_accepts quoted k (list_ascii_of_string tl) Hk) as (m & Hm & Hc).
  unfold candidate. rewrite Hdata. unfold exec. cbn [ignoreCase DAT_TXT_REGEX].
  rewrite !list_ascii_of_string_append.
  replace (list_ascii_of_string (if quoted then String quote "" else ""))
    with (if quoted then [quote] else []) by (destruct quoted; reflexivity).
  rewrite Hm, Hc. reflexivity.
Qed.

Lemma single_candidate (re : RegExp) (before after : list Js.value)
    (a : Js.value) (ak : Js.value * Js.value) :
  candidates re before = [] ->
  candidate re a = Some ak ->
  candidates re after = [] ->
  candidates re (before ++ a :: after) = [ak].
Proof.
  unfold candidates. intros Hb Ha Hafter.
  rewrite omap_app, Hb. cbn [omap list_omap app]. rewrite Ha.
  fold (omap (candidate re) after). rewrite Hafter. reflexivity.
Qed.

(** With one candidate there is nothing to sort. *)
Lemma parseDnsOverHttpsRecord_single (p : Platform) (name body : string) (re : RegExp)
    (c : MemoryCache.t) (record : Js.value) (items : list Js.value) (a kv : Js.value) :
  JSON_parse p body = Some record ->
  Js.get record "Answer" = Normal (Arr items) ->
  candidates re items = [(a, kv)] ->
  parseDnsOverHttpsRecord p name body re c
  = (Normal {| key := kv; ttl := limit_ttl (answer_ttl a) |}, c, []).
Proof.
  intros Hj Hg Hc. unfold parseDnsOverHttpsRecord, bind, lift, ret.
  rewrite Hj, Hg, Hc. reflexivity.
Qed.

(** X19. A TXT answer in the documented form is read as it stands: when
    the answers of the response hold one whose data is [datkey=]
    followed by a key, with or without a quotation mark in front and
    whatever comes after the key, and no other candidate,
    [parseDnsOverHttpsRecord] returns that key with the ttl of that
    answer, subject to the limits of a ttl, and emits no event. *)
Theorem txt_answer_is_read (p : Platform) (name body : string) (c : MemoryCache.t)
    (record : Js.value) (before after : list Js.value) (props : list (string * Js.value))
    (quoted : bool) (k tl : string) :
  JSON_parse p body = Some record ->
  Js.get record "Answer" = Normal (Arr (before ++ Obj props :: after)) ->
  candidates DAT_TXT_REGEX before = [] ->
  candidates DAT_TXT_REGEX after = [] ->
  assoc "data" props
  = Str ((if quoted then String quote "" else "") +:+ "datkey=" +:+ k +:+ tl) ->
  is_key_text k = true ->
  parseDnsOverHttpsRecord p name body DAT_TXT_REGEX c
  = (Normal {| key := Str k; ttl := limit_ttl (assoc "TTL" props) |}, c, []).
Proof.
  intros Hj Hg Hb Ha Hdata Hk.
  pose proof (txt_answer_is_candidate props quoted k tl Hdata Hk) as Hcand.
  rewrite (parseDnsOverHttpsRecord_single p name body DAT_TXT_REGEX c record
             (before ++ Obj props :: after) (Obj props) (Str k) Hj Hg
             (single_candidate DAT_TXT_REGEX before after _ _ Hb Hcand Ha)).
  reflexivity.
Qed.

(* ================================================================== *)
(** ** The request for a fully qualified name *)

Lemma endsWith_dot_appended (s : string) : endsWith (s +:+ ".") "." = true.
Proof.
  unfold endsWith. rewrite list_ascii_of_string_append.
  cbn [list_ascii_of_string]. rewrite last_snoc. reflexivity.
Qed.

(** X20. For a name with a dot, [fetchDnsOverHttpsRecord] sends one
    request and resolves with its response, without an event: a TXT
    query with the [application/dns-json] header and a timeout of two
    seconds, for the name with a dot at its end, which is appended
    when the name has none. *)
Theorem fqdn_is_queried_with_a_dot (w : World) (name : string)
    (cfg_host : string) (cfg_port : Z) (cfg_path : string) (c : MemoryCache.t) :
  includes name "." = true ->
  exists q,
    (q = name \/ (endsWith name "." = false /\ q = name +:+ ".")) /\
    endsWith q "." = true /\
    fetchDnsOverHttpsRecord w name cfg_host cfg_port cfg_path c
    = (Normal (https_get w {| host := cfg_host; port := Some cfg_port; path := cfg_path;
                              query := [("name", q); ("type", "TXT")]%string;
                              accept := Some "application/dns-json"%string;
                              timeout := 2000 |}),
       c,
       [DohGet {| host := cfg_host; port := Some cfg_port; path := cfg_path;
                  query := [("name", q); ("type", "TXT")]%string;
                  accept := Some "application/dns-json"%string;
                  timeout := 2000 |}]).
Proof.
  intros Hdot. unfold fetchDnsOverHttpsRecord, doh_request, bind, when, emit, tell, ret, throw.
  rewrite Hdot. cbn [negb andb].
  destruct (endsWith name ".") eqn:He; cbn [negb].
  - exists name. split; [left; reflexivity|]. split; [exact He|reflexivity].
  - exists (name +:+ "."). split; [right; split; reflexivity|].
    split; [apply endsWith_dot_appended|reflexivity].
Qed.

(* ================================================================== *)
(** ** The provider of a resolver *)

(** X21. [createDatDNS] takes the provider from its options only when
    both [dnsHost] and [dnsPath] are given and not empty, with port 443
    unless [dnsPort] names another; when either is missing or empty
    the provider is one of [DEFAULT_DNS_PROVIDERS], whole: what was
    given of host, port and path is dropped. *)
Theorem provider_is_given_whole_or_not_at_all (o : DatDnsOpts) (pick : nat) :
  (pick < length DEFAULT_DNS_PROVIDERS)%nat ->
  (forall h pa,
     opt_dnsHost o = Some h -> h <> ""%string ->
     opt_dnsPath o = Some pa -> pa <> ""%string ->
     dnsHost (createDatDNS o pick).1 = h /\
     dnsPath (createDatDNS o pick).1 = pa /\
     dnsPort (createDatDNS o pick).1
     = match opt_dnsPort o with Some 0 | None => 443 | Some n => n end) /\
  (opt_dnsHost o = None \/ opt_dnsHost o = Some ""%string \/
   opt_dnsPath o = None \/ opt_dnsPath o = Some ""%string ->
   In (dnsHost (createDatDNS o pick).1, dnsPort (createDatDNS o pick).1,
       dnsPath (createDatDNS o pick).1) DEFAULT_DNS_PROVIDERS /\
   DEFAULT_DNS_PROVIDERS !! pick
   = Some (dnsHost (createDatDNS o pick).1, dnsPort (createDatDNS o pick).1,
           dnsPath (createDatDNS o pick).1)).
Proof.
  intros Hpick. split.
  - intros h pa Hh Hhne Hp Hpne. unfold createDatDNS. cbn [fst dnsHost dnsPath dnsPort].
    rewrite Hh, Hp. unfold string_or.
    destruct (String.eqb_spec h ""); [contradiction|].
    destruct (String.eqb_spec pa ""); [contradiction|].
    cbn. auto.
  - intros Hmissing.
    assert (Hdef : exists pr, DEFAULT_DNS_PROVIDERS !! pick = Some pr).
    { apply lookup_lt_is_Some_2. exact Hpick. }
    destruct Hdef as [[[h po] pa] Hpr].
    assert (Hprov : (dnsHost (createDatDNS o pick).1, dnsPort (createDatDNS o pick).1,
                     dnsPath (createDatDNS o pick).1) = (h, po, pa)).
    { unfold createDatDNS. cbn [fst dnsHost dnsPath dnsPort]. rewrite Hpr.
      destruct Hmissing as [H|[H|[H|H]]]; rewrite H; cbn [string_or String.eqb];
        try reflexivity;
        destruct (string_or (opt_dnsHost o) None); reflexivity. }
    rewrite Hprov. split; [|exact Hpr].
    apply list_elem_of_In. eapply list_elem_of_lookup_2. exact Hpr.
Qed.

(* ================================================================== *)
(** ** How a failed probe is announced *)

Lemma wellKnown_lookup_body (cfg : Config) (w : World) (n : string) (c : MemoryCache.t) :
  wellKnown_lookup cfg w n c =
  if (statusCode (https_get w (wk_req cfg n)) =? 0)
     || (statusCode (https_get w (wk_req cfg n)) =? 404)
  then (Throw (Error "DNS record not found"),
        MemoryCache.set c (now w) n (Bool false) (Some 60),
        [WellKnownGet (wk_req cfg n);
         Emit (Failed "well-known" n
                 (HttpCode (statusCode (https_get w (wk_req cfg n)))
                    (Some (default "undefined"%string (err (https_get w (wk_req cfg n)))))));
         CacheSet n (Bool false) (Some 60)])
  else if negb (statusCode (https_get w (wk_req cfg n)) =? 200)
  then (Throw (Error "DNS record not found"), c,
        [WellKnownGet (wk_req cfg n);
         Emit (Failed "well-known" n
                 (HttpCode (statusCode (https_get w (wk_req cfg n))) None))])
  else match parseWellknownDatRecord n (body (https_get w (wk_req cfg n)))
               (protocolRegex cfg) (recordName cfg) c with
       | (Normal r, c1, t) =>
         (Normal r, c1,
          WellKnownGet (wk_req cfg n) :: t ++ [Emit (Resolved "well-known" n (key r))])
       | (Throw e, c1, t) => (Throw e, c1, WellKnownGet (wk_req cfg n) :: t)
       end.
Proof.
  unfold wellKnown_lookup, fetchWellKnownRecord. unfold bind at 1 2.
  unfold tell at 1, ret at 1. fold (wk_req cfg n).
  destruct ((statusCode (https_get w (wk_req cfg n)) =? 0)
            || (statusCode (https_get w (wk_req cfg n)) =? 404)).
  { reflexivity. }
  destruct (negb (statusCode (https_get w (wk_req cfg n)) =? 200)).
  { reflexivity. }
  unfold bind at 1.
  destruct (parseWellknownDatRecord n _ _ _ c) as [[[r|e] c1] t]; [|reflexivity].
  unfold bind, emit, tell, ret. cbn. rewrite ?app_nil_r. reflexivity.
Qed.

(** What the parsers emit when they throw. *)
Lemma parseWellknownDatRecord_throws (name body : string) (re : RegExp) (rn : string)
    (c : MemoryCache.t) (e : JsError) :
  outcome (parseWellknownDatRecord name body re rn c) = Throw e ->
  exists err,
    effects (parseWellknownDatRecord name body re rn c)
    = [Emit (Failed "well-known" name err)].
Proof.
  unfold parseWellknownDatRecord.
  destruct (String.eqb body ""); [unfold bind, emit, tell, throw; cbn; eauto|].
  destruct (exec _ _) as [m|]; [|unfold bind, emit, tell, throw; cbn; eauto].
  unfold bind, try_catch, lift, emit, tell, ret.
  destruct (parse_ttl_line _); cbn; discriminate.
Qed.

Lemma parseDnsOverHttpsRecord_throws (p : Platform) (name body : string) (re : RegExp)
    (c : MemoryCache.t) (e : JsError) :
  outcome (parseDnsOverHttpsRecord p name body re c) = Throw e ->
  (exists err,
     effects (parseDnsOverHttpsRecord p name body re c)
     = [Emit (Failed "dns-over-https" name err)]) \/
  (effects (parseDnsOverHttpsRecord p name body re c) = [] /\
   (exists msg, e = TypeError msg) /\
   exists record, JSON_parse p body = Some record /\ (record = Null \/ record = Undefined)).
Proof.
  unfold parseDnsOverHttpsRecord, bind, lift, emit, tell, ret, throw.
  destruct (JSON_parse p body) as [record|]; [|cbn; eauto].
  destruct record as [| | | | | |props]; cbn [Js.get];
    try (cbn; intros He; inversion He; subst; right; eauto 10; fail);
    try (cbn; eauto; fail).
  destruct (assoc "Answer" props) as [| | | | |items|]; try (cbn; eauto; fail).
  destruct (Js.sort _ _) as [|[a k] l]; cbn; [eauto|discriminate].
Qed.

(** X22. A well-known lookup that fails emits exactly one event, a
    ['failed'] event of the method [well-known] for the name.  A
    DNS-over-HTTPS lookup that fails emits exactly one ['failed'] event
    of the method [dns-over-https] for the name, except when the
    response is the JSON [null]: reading [Answer] of it throws a
    [TypeError] that no event announces. *)
Theorem failed_probe_is_announced (p : Platform) (cfg : Config) (w : World)
    (n : string) (c : MemoryCache.t) :
  (forall e,
     outcome (wellKnown_lookup cfg w n c) = Throw e ->
     exists err,
       List.filter is_Emit (effects (wellKnown_lookup cfg w n c))
       = [Emit (Failed "well-known" n err)]) /\
  (forall e,
     outcome (dnsOverHttps_lookup p cfg w n c) = Throw e ->
     (exists err,
        List.filter is_Emit (effects (dnsOverHttps_lookup p cfg w n c))
        = [Emit (Failed "dns-over-https" n err)]) \/
     (List.filter is_Emit (effects (dnsOverHttps_lookup p cfg w n c)) = [] /\
      (exists msg, e = TypeError msg) /\
      exists record,
        JSON_parse p (body (https_get w (doh_req cfg n))) = Some record /\
        (record = Null \/ record = Undefined))).
Proof.
  split.
  - intros e. rewrite wellKnown_lookup_body.
    destruct ((statusCode (https_get w (wk_req cfg n)) =? 0)
              || (statusCode (https_get w (wk_req cfg n)) =? 404)); [cbn; eauto|].
    destruct (negb (statusCode (https_get w (wk_req cfg n)) =? 200)); [cbn; eauto|].
    pose proof (parseWellknownDatRecord_throws n (body (https_get w (wk_req cfg n)))
                  (protocolRegex cfg) (recordName cfg) c) as Hp.
    destruct (parseWellknownDatRecord n _ _ _ c) as [[[r|e'] c1] t]; [cbn; discriminate|].
    cbn. intros He. destruct (Hp e' eq_refl) as [err Herr]. cbn in Herr. subst t.
    cbn. eauto.
  - intros e. rewrite dnsOverHttps_lookup_body.
    destruct (includes n "."); [|cbn; eauto].
    pose proof (parseDnsOverHttpsRecord_throws p n (body (https_get w (doh_req cfg n)))
                  (dnsTxtRegex cfg) c) as Hp.
    destruct (parseDnsOverHttpsRecord p n _ _ c) as [[[r|e'] c1] t]; [cbn; discriminate|].
    cbn. intros He. inversion He; subst e'.
    destruct (Hp e eq_refl) as [[err Herr]|(Hnil & Hmsg & Hrec)]; cbn in *; subst t.
    + left. cbn. eauto.
    + right. cbn. auto.
Qed.

(* ================================================================== *)
(** ** From the response to the result of the call *)

(** X23. A call whose well-known request is answered with status 200 by
    a record in the documented form returns the key of the record and
    announces it in a ['resolved'] event; it caches the key under the
    normalized name for the ttl of the record, 3600 seconds when the
    record names none, and does not cache it when the ttl is 0. *)
Theorem published_record_is_resolved (p : Platform) (cfg : Config) (w : World)
    (name : string) (opts : Options) (c : MemoryCache.t) (n k tail : string) (t : Z) :
  normalize p name = Normal n ->
  test (hashRegex cfg) n = false ->
  reaches_probes w opts c n = true ->
  noWellknownDat opts = false ->
  (noDnsOverHttps opts = false ->
   exists e, outcome (dnsOverHttps_lookup p cfg w n c) = Throw e) ->
  protocolRegex cfg = DAT_PROTOCOL_REGEX ->
  statusCode (https_get w (wk_req cfg n)) = 200 ->
  body (https_get w (wk_req cfg n)) = "dat://" +:+ k +:+ tail ->
  is_key_text k = true ->
  (tail = ""%string /\ t = 3600) \/
  (exists label d : string,
     (label = "ttl="%string \/ label = "TTL="%string) /\
     d <> ""%string /\
     forallb is_decimal_digit (list_ascii_of_string d) = true /\
     tail = String newline (label +:+ d) /\
     t = limit_ttl (Num (Integer (to_number d)))) ->
  outcome (resolveName p cfg w name opts c) = Normal (Str k) /\
  cache_after (resolveName p cfg w name opts c)
  = (if t =? 0 then c else MemoryCache.set c (now w) n (Str k) (Some t)) /\
  List.filter is_Resolved (effects (resolveName p cfg w name opts c))
  = [Emit (Resolved "well-known" n (Str k))].
Proof.
  intros Hn Ht Hr Hk Hd Hre H200 Hbody Hkey Htail.
  assert (Hparse : parseWellknownDatRecord n (body (https_get w (wk_req cfg n)))
                     (protocolRegex cfg) (recordName cfg) c
                   = (Normal {| key := Str k; ttl := t |}, c, [])).
  { rewrite Hbody, Hre.
    destruct (key_line_accepted k Hkey) as (m & Hm & Hcap).
    destruct Htail as [[-> ->]|(label & d & Hlabel & Hne & Hdigits & -> & ->)].
    - rewrite string_append_empty.
      rewrite (parseWellknownDatRecord_lines n _ DAT_PROTOCOL_REGEX _ c m)
        by (first [discriminate | rewrite split_key_line by exact Hkey; exact Hm]).
      rewrite split_key_line by exact Hkey. rewrite Hcap. reflexivity.
    - rewrite (parseWellknownDatRecord_lines n _ DAT_PROTOCOL_REGEX _ c m)
        by (first [discriminate
                  | rewrite split_key_and_ttl_lines by assumption; exact Hm]).
      rewrite split_key_and_ttl_lines by assumption.
      rewrite ttl_line_read by assumption. rewrite Hcap. reflexivity. }
  assert (Hrt : route_taken p cfg w opts c n (ByWellKnown {| key := Str k; ttl := t |})).
  { cbn [route_taken]. rewrite wellKnown_lookup_200, Hparse by exact H200. auto. }
  destruct (route_run p cfg w name opts c n _ Hn Ht Hrt) as (Ho & Hc & _ & He).
  rewrite Ho, Hc, He. auto.
Qed.

(** X24. A call whose DNS-over-HTTPS request, for a name with a dot, is
    answered by a response with one TXT answer in the documented form
    and no other candidate returns the key of that answer and announces
    it in a ['resolved'] event; it sends no well-known request, and it
    caches the key under the normalized name for the ttl of the answer,
    within the limits of a ttl, unless that ttl is 0. *)
Theorem published_answer_is_resolved (p : Platform) (cfg : Config) (w : World)
    (name : string) (opts : Options) (c : MemoryCache.t) (n : string)
    (record : Js.value) (before after : list Js.value) (props : list (string * Js.value))
    (quoted : bool) (k tl : string) :
  normalize p name = Normal n ->
  test (hashRegex cfg) n = false ->
  reaches_probes w opts c n = true ->
  noDnsOverHttps opts = false ->
  includes n "." = true ->
  dnsTxtRegex cfg = DAT_TXT_REGEX ->
  JSON_parse p (body (https_get w (doh_req cfg n))) = Some record ->
  Js.get record "Answer" = Normal (Arr (before ++ Obj props :: after)) ->
  candidates DAT_TXT_REGEX before = [] ->
  candidates DAT_TXT_REGEX after = [] ->
  assoc "data" props
  = Str ((if quoted then String quote "" else "") +:+ "datkey=" +:+ k +:+ tl) ->
  is_key_text k = true ->
  outcome (resolveName p cfg w name opts c) = Normal (Str k) /\
  cache_after (resolveName p cfg w name opts c)
  = (if limit_ttl (assoc "TTL" props) =? 0 then c
     else MemoryCache.set c (now w) n (Str k) (Some (limit_ttl (assoc "TTL" props)))) /\
  List.filter is_Resolved (effects (resolveName p cfg w name opts c))
  = [Emit (Resolved "dns-over-https" n (Str k))] /\
  existsb is_WellKnownGet (effects (resolveName p cfg w name opts c)) = false.
Proof.
  intros Hn Ht Hr Hd Hdot Hre Hj Hg Hb Ha Hdata Hkey.
  pose proof (parseDnsOverHttpsRecord_single p n _ DAT_TXT_REGEX c record
                (before ++ Obj props :: after) (Obj props) (Str k) Hj Hg
                (single_candidate DAT_TXT_REGEX before after _ _ Hb
                   (txt_answer_is_candidate props quoted k tl Hdata Hkey) Ha)) as Hparse.
  cbn [answer_ttl] in Hparse.
  assert (Hrt : route_taken p cfg w opts c n
                  (ByDnsOverHttps {| key := Str k; ttl := limit_ttl (assoc "TTL" props) |})).
  { cbn [route_taken]. rewrite dnsOverHttps_lookup_body, Hdot, Hre, Hparse. auto. }
  destruct (route_run p cfg w name opts c n _ Hn Ht Hrt) as (Ho & Hc & Hact & He).
  rewrite Ho, Hc, He. split; [reflexivity|]. split; [reflexivity|]. split; [reflexivity|].
  rewrite (existsb_actions is_WellKnownGet) by trace_facts. rewrite Hact.
  cbn [route_actions]. unfold cache_read, stored.
  repeat match goal with |- context [if ?b then _ else _] => destruct b end; reflexivity.
Qed.

(* ================================================================== *)
(** ** The names that a call leaves alone *)

(** X25. A call writes to the memory cache under the normalized name
    only: the entry of every other name is after the call what it was
    before.  The memory cache is the one modelled in [MemoryCache]. *)
Theorem other_names_are_left_alone (p : Platform) (cfg : Config) (w : World)
    (name : string) (opts : Options) (c : MemoryCache.t) (n other : string) :
  normalize p name = Normal n ->
  other <> n ->
  MemoryCache.entries (cache_after (resolveName p cfg w name opts c)) !! other
  = MemoryCache.entries c !! other /\
  forall t, MemoryCache.get (cache_after (resolveName p cfg w name opts c)) t other
            = MemoryCache.get c t other.
Proof.
  intros Hn Hne.
  assert (Hset : forall v ttl',
            MemoryCache.entries (MemoryCache.set c (now w) n v ttl') !! other
            = MemoryCache.entries c !! other).
  { intros v ttl'. unfold MemoryCache.set.
    destruct (default (MemoryCache.default_ttl c) ttl' =? 0); [reflexivity|].
    cbn [MemoryCache.entries]. apply lookup_insert_ne. congruence. }
  assert (He : MemoryCache.entries (cache_after (resolveName p cfg w name opts c)) !! other
               = MemoryCache.entries c !! other).
  { destruct (test (hashRegex cfg) n) eqn:Ht.
    { rewrite (resolveName_key p cfg w name opts c n Hn Ht). reflexivity. }
    destruct (resolveName_route p cfg w name opts c n Hn Ht) as (rt & _ & _ & -> & _).
    destruct rt; cbn [route_cache]; try reflexivity; try apply Hset.
    - destruct (ttl r =? 0); [reflexivity|apply Hset].
    - destruct (ttl r =? 0); [reflexivity|apply Hset].
    - destruct miss; [apply Hset|reflexivity]. }
  split; [exact He|].
  intros t. unfold MemoryCache.get. rewrite He. reflexivity.
Qed.

(* ================================================================== *)
(** ** A failed DNS-over-HTTPS lookup on its own *)

(** X26. With the well-known lookup switched off, a DNS-over-HTTPS
    lookup that fails does not make the call fail: [res] is [false],
    whose [key] and [ttl] are [undefined], so the call returns
    [undefined], calls [mCache.set] with [undefined] for the key and
    for the ttl, hands the same to [pCache.write] when there is a
    persistent cache, emits no ['resolved'] event and does not read
    the persistent cache. *)
Theorem lone_doh_failure_is_stored (p : Platform) (cfg : Config) (w : World)
    (name : string) (opts : Options) (c : MemoryCache.t) (n : string) (e : JsError) :
  normalize p name = Normal n ->
  test (hashRegex cfg) n = false ->
  reaches_probes w opts c n = true ->
  noDnsOverHttps opts = false ->
  noWellknownDat opts = true ->
  outcome (dnsOverHttps_lookup p cfg w n c) = Throw e ->
  outcome (resolveName p cfg w name opts c) = Normal Undefined /\
  List.filter (fun e => is_CacheSet e || is_PersistWrite e || is_PersistRead e)
              (effects (resolveName p cfg w name opts c))
  = CacheSet n Undefined None
    :: (if bool_decide (is_Some (pCache cfg)) then [PersistWrite n Undefined None] else []) /\
  List.filter is_Resolved (effects (resolveName p cfg w name opts c)) = [] /\
  existsb is_WellKnownGet (effects (resolveName p cfg w name opts c)) = false.
Proof.
  intros Hn Ht Hr Hd Hk Ho.
  assert (Hrt : route_taken p cfg w opts c n DohFailedAlone) by (cbn; eauto).
  destruct (route_run p cfg w name opts c n _ Hn Ht Hrt) as (-> & _ & Ha & ->).
  split; [reflexivity|]. split; [|split; [reflexivity|]].
  - rewrite (filter_actions (fun e => is_CacheSet e || is_PersistWrite e || is_PersistRead e))
      by (apply emit_not_stored).
    rewrite Ha. cbn [route_actions]. unfold cache_read, stored.
    destruct (ignoreCache opts); destruct (bool_decide (is_Some (pCache cfg))); reflexivity.
  - rewrite (existsb_actions is_WellKnownGet) by trace_facts.
    rewrite Ha. cbn [route_actions]. unfold cache_read, stored.
    destruct (ignoreCache opts); destruct (bool_decide (is_Some (pCache cfg))); reflexivity.
Qed.

(* ================================================================== *)
(** ** The properties above on the sample settings *)

Lemma cached_key_answers_alone_witness :
  resolveName Sample.platform Sample.config Sample.later "example.com" no_options Sample.warm
  = (Normal (MemoryCache.get Sample.warm (now Sample.later) "example.com"),
     Sample.warm, [CacheGet "example.com"]).
Proof.
  apply (cached_key_answers_alone Sample.platform Sample.config Sample.later
           "example.com" no_options Sample.warm "example.com");
    vm_compute; reflexivity.
Defined.

Lemma cached_miss_answers_alone_witness :
  outcome (resolveName Sample.platform Sample.config Sample.later
             "example.com" no_options Sample.missed)
  = failure_outcome Sample.config "example.com" (Error "DNS record not found") /\
  cache_after (resolveName Sample.platform Sample.config Sample.later
                 "example.com" no_options Sample.missed) = Sample.missed /\
  actions (effects (resolveName Sample.platform Sample.config Sample.later
                      "example.com" no_options Sample.missed))
  = CacheGet "example.com"
    :: fallen_back Sample.config "example.com" (Error "DNS record not found").
Proof.
  destruct (cached_miss_answers_alone Sample.platform Sample.config Sample.later
              "example.com" no_options Sample.missed "example.com") as [H _].
  - vm_compute. reflexivity.
  - vm_compute. reflexivity.
  - reflexivity.
  - vm_compute. reflexivity.
  - vm_compute. reflexivity.
  - exact (H eq_refl).
Defined.

Lemma requests_of_a_call_witness :
  exists g d k : bool,
    List.filter (fun e => is_CacheGet e || is_network e)
                (effects (resolveName Sample.platform Sample.config Sample.offline
                            "example.com" no_options Sample.fresh))
    = (if g then [CacheGet "example.com"] else [])
      ++ (if d then [DohGet (doh_req Sample.config "example.com")] else [])
      ++ (if k then [WellKnownGet (wk_req Sample.config "example.com")] else []).
Proof.
  apply (requests_of_a_call Sample.platform Sample.config Sample.offline
           "example.com" no_options Sample.fresh "example.com").
  vm_compute. reflexivity.
Defined.

Lemma answer_is_stored_witness :
  outcome (resolveName Sample.platform Sample.config_persistent Sample.online
             "example.com" Sample.only_wellKnown Sample.fresh)
  = Normal (Str (Sample.key_of "b")) /\
  List.filter (fun e => is_CacheSet e || is_PersistWrite e || is_PersistRead e)
              (effects (resolveName Sample.platform Sample.config_persistent Sample.online
                          "example.com" Sample.only_wellKnown Sample.fresh))
  = [CacheSet "example.com" (Str (Sample.key_of "b")) (Some 3600);
     PersistWrite "example.com" (Str (Sample.key_of "b")) (Some 3600)].
Proof.
  destruct (answer_is_stored Sample.platform Sample.config_persistent Sample.online
              "example.com" Sample.only_wellKnown Sample.fresh "example.com"
              {| key := Str (Sample.key_of "b"); ttl := 3600 |})
    as (Ho & _ & Hw).
  - vm_compute. reflexivity.
  - vm_compute. reflexivity.
  - vm_compute. reflexivity.
  - right. split; [reflexivity|]. split; [intros H; discriminate H|].
    vm_compute. reflexivity.
  - split; [exact Ho|exact Hw].
Defined.

Lemma switched_off_is_never_used_witness :
  existsb is_DohGet
    (effects (resolveName Sample.platform Sample.config Sample.online
                "example.com" Sample.only_wellKnown Sample.fresh)) = false /\
  existsb is_PersistRead
    (effects (resolveName Sample.platform Sample.config Sample.offline
                "example.com" no_options Sample.fresh)) = false.
Proof.
  split.
  - destruct (switched_off_is_never_used Sample.platform Sample.config Sample.online
                "example.com" Sample.only_wellKnown Sample.fresh) as (H & _).
    exact (H eq_refl).
  - destruct (switched_off_is_never_used Sample.platform Sample.config Sample.offline
                "example.com" no_options Sample.fresh) as (_ & _ & _ & H).
    exact (proj1 (H eq_refl)).
Defined.

Lemma persistent_write_is_the_result_witness :
  outcome (resolveName Sample.platform Sample.config_persistent Sample.online
             "example.com" Sample.only_wellKnown Sample.fresh)
  = Normal (Str (Sample.key_of "b")) /\
  List.filter is_PersistWrite
    (effects (resolveName Sample.platform Sample.config_persistent Sample.online
                "example.com" Sample.only_wellKnown Sample.fresh))
  = [PersistWrite "example.com" (Str (Sample.key_of "b")) (Some 3600)].
Proof.
  destruct (persistent_write_is_the_result Sample.platform Sample.config_persistent
              Sample.online "example.com" Sample.only_wellKnown Sample.fresh "example.com"
              "example.com" (Str (Sample.key_of "b")) (Some 3600))
    as (_ & Ho & _ & _ & Hf).
  - vm_compute. reflexivity.
  - vm_compute. do 4 right. left. reflexivity.
  - split; [exact Ho|exact Hf].
Defined.

Lemma resolved_event_is_the_result_witness :
  outcome (resolveName Sample.platform Sample.config Sample.online
             "example.com" Sample.only_wellKnown Sample.fresh)
  = Normal (Str (Sample.key_of "b")) /\
  List.filter is_Resolved
    (effects (resolveName Sample.platform Sample.config Sample.online
                "example.com" Sample.only_wellKnown Sample.fresh))
  = [Emit (Resolved "well-known" "example.com" (Str (Sample.key_of "b")))].
Proof.
  destruct (resolved_event_is_the_result Sample.platform Sample.config
              Sample.online "example.com" Sample.only_wellKnown Sample.fresh "example.com"
              "well-known" "example.com" (Str (Sample.key_of "b")))
    as (_ & _ & Ho & _ & Hf).
  - vm_compute. reflexivity.
  - vm_compute. do 2 right. left. reflexivity.
  - split; [exact Ho|exact Hf].
Defined.

Lemma stored_ttl_is_bounded_witness :
  (In (CacheSet "example.com" (Str (Sample.key_of "b")) (Some 3600))
      (effects (resolveName Sample.platform Sample.config Sample.online
                  "example.com" Sample.only_wellKnown Sample.fresh)) /\
   exists z, Some 3600 = Some z /\ 1 <= z <= 604800) /\
  (In (CacheSet "foo" Undefined None)
      (effects (resolveName Sample.platform Sample.config Sample.offline
                  "foo" Sample.only_DoH Sample.fresh)) /\
   exists e, outcome (dnsOverHttps_lookup Sample.platform Sample.config Sample.offline
                        "foo" Sample.fresh) = Throw e).
Proof.
  assert (Hin : In (CacheSet "example.com" (Str (Sample.key_of "b")) (Some 3600))
                   (effects (resolveName Sample.platform Sample.config Sample.online
                               "example.com" Sample.only_wellKnown Sample.fresh))).
  { vm_compute. do 3 right. left. reflexivity. }
  assert (Hin' : In (CacheSet "foo" Undefined None)
                    (effects (resolveName Sample.platform Sample.config Sample.offline
                                "foo" Sample.only_DoH Sample.fresh))).
  { vm_compute. auto 10. }
  split; (split; [assumption|]).
  - destruct (stored_ttl_is_bounded Sample.platform Sample.config Sample.online
                "example.com" Sample.only_wellKnown Sample.fresh "example.com"
                "example.com" (Str (Sample.key_of "b")) (Some 3600)) as [H _].
    + vm_compute. reflexivity.
    + destruct (H Hin) as [_ [Hz | (Hnone & _)]]; [exact Hz|discriminate].
  - destruct (stored_ttl_is_bounded Sample.platform Sample.config Sample.offline
                "foo" Sample.only_DoH Sample.fresh "foo"
                "foo" Undefined None) as [H _].
    + vm_compute. reflexivity.
    + destruct (H Hin') as [_ [(z & Hz & _) | (_ & _ & _ & _ & He)]];
        [discriminate|exact He].
Defined.

Lemma unusable_record_is_not_remembered_witness :
  outcome (resolveName Sample.platform Sample.config Sample.garbled
             "example.com" no_options Sample.fresh)
  = Throw (Error ("Invalid .well-known/dat record, must conform to"
                  +:+ source DAT_PROTOCOL_REGEX)) /\
  cache_after (resolveName Sample.platform Sample.config Sample.garbled
                 "example.com" no_options Sample.fresh) = Sample.fresh.
Proof.
  destruct (unusable_record_is_not_remembered Sample.platform Sample.config Sample.garbled
              "example.com" no_options Sample.fresh "example.com"
              (Error ("Invalid .well-known/dat record, must conform to"
                      +:+ source DAT_PROTOCOL_REGEX)))
    as (Ho & Hc & _).
  - vm_compute. reflexivity.
  - vm_compute. reflexivity.
  - vm_compute. reflexivity.
  - reflexivity.
  - intros _. eexists. vm_compute. reflexivity.
  - vm_compute. reflexivity.
  - vm_compute. reflexivity.
  - split; [exact Ho|exact Hc].
Defined.

Lemma doh_status_is_not_read_witness :
  dnsOverHttps_lookup Sample.platform Sample.config Sample.online "example.com" Sample.fresh
  = dnsOverHttps_lookup Sample.platform Sample.config Sample.grumpy "example.com" Sample.fresh.
Proof.
  apply (doh_status_is_not_read Sample.platform Sample.config Sample.online Sample.grumpy
           "example.com" Sample.fresh).
  vm_compute. reflexivity.
Defined.

Lemma unparsable_name_skips_the_persistent_cache_witness :
  resolveName Sample.platform Sample.config_persistent Sample.offline "" no_options Sample.fresh
  = (Throw (TypeError "Cannot read properties of null (reading 'replace')"),
     Sample.fresh, []) /\
  outcome (resolveName Sample.platform Sample.config_persistent Sample.offline
             "example.com" no_options Sample.fresh)
  = Throw (Error "DNS record not found") /\
  existsb is_PersistRead
    (effects (resolveName Sample.platform Sample.config_persistent Sample.offline
                "example.com" no_options Sample.fresh)) = true.
Proof.
  assert (Ho : outcome (resolveName Sample.platform Sample.config_persistent Sample.offline
                          "example.com" no_options Sample.fresh)
               = Throw (Error "DNS record not found"))
    by (vm_compute; reflexivity).
  split; [|split; [exact Ho|]].
  - destruct (unparsable_name_skips_the_persistent_cache Sample.platform
                Sample.config_persistent Sample.offline "" no_options Sample.fresh)
      as [H _].
    exact (H eq_refl).
  - destruct (unparsable_name_skips_the_persistent_cache Sample.platform
                Sample.config_persistent Sample.offline "example.com" no_options
                Sample.fresh) as [_ H].
    apply (H "example.com"%string (Error "DNS record not found")).
    + vm_compute. reflexivity.
    + exists Sample.knows_foo. reflexivity.
    + exact Ho.
Defined.

Lemma miss_dampens_the_next_call_witness :
  outcome (resolveName Sample.platform Sample.config Sample.later "example.com" no_options
             (cache_after (resolveName Sample.platform Sample.config Sample.offline
                             "example.com" no_options Sample.fresh)))
  = failure_outcome Sample.config "example.com" (Error "DNS record not found") /\
  existsb is_network
    (effects (resolveName Sample.platform Sample.config Sample.later "example.com" no_options
                (cache_after (resolveName Sample.platform Sample.config Sample.offline
                                "example.com" no_options Sample.fresh))))
  = false.
Proof.
  destruct (miss_dampens_the_next_call Sample.platform Sample.config Sample.offline
              Sample.later "example.com" no_options no_options Sample.fresh "example.com")
    as (Ho & _ & Hn).
  - vm_compute. reflexivity.
  - vm_compute. reflexivity.
  - left. vm_compute. reflexivity.
  - vm_compute. reflexivity.
  - reflexivity.
  - reflexivity.
  - split; [exact Ho|exact Hn].
Defined.

Lemma answer_is_served_from_cache_witness :
  resolveName Sample.platform Sample.config Sample.later "example.com" no_options
    (cache_after (resolveName Sample.platform Sample.config Sample.online
                    "example.com" Sample.only_wellKnown Sample.fresh))
  = (Normal (Str (Sample.key_of "b")),
     cache_after (resolveName Sample.platform Sample.config Sample.online
                    "example.com" Sample.only_wellKnown Sample.fresh),
     [CacheGet "example.com"]).
Proof.
  destruct (answer_is_served_from_cache Sample.platform Sample.config Sample.online
              Sample.later "example.com" Sample.only_wellKnown no_options Sample.fresh
              "example.com" {| key := Str (Sample.key_of "b"); ttl := 3600 |})
    as (_ & H).
  - vm_compute. reflexivity.
  - vm_compute. reflexivity.
  - vm_compute. reflexivity.
  - right. split; [reflexivity|]. split; [intros H; discriminate H|].
    vm_compute. reflexivity.
  - vm_compute. reflexivity.
  - discriminate.
  - vm_compute. reflexivity.
  - reflexivity.
  - exact H.
Defined.

Lemma probe_results_are_keys_witness :
  exists k,
    Str (Sample.key_of "b") = Str k /\ String.length k = 64%nat /\
    forallb is_hex_digit (list_ascii_of_string k) = true.
Proof.
  destruct probe_results_are_keys as [_ H].
  apply (H "example.com"%string ("dat://" +:+ Sample.key_of "b")%string "dat"%string
           Sample.fresh {| key := Str (Sample.key_of "b"); ttl := 3600 |}).
  vm_compute. reflexivity.
Defined.

Lemma default_patterns_store_keys_witness :
  In (Emit (Resolved "well-known" "example.com" (Str (Sample.key_of "b"))))
     (effects (resolveName Sample.platform Sample.config Sample.online
                 "example.com" Sample.only_wellKnown Sample.fresh)) /\
  is_key (Str (Sample.key_of "b")) = true.
Proof.
  assert (Hin : In (Emit (Resolved "well-known" "example.com" (Str (Sample.key_of "b"))))
                   (effects (resolveName Sample.platform Sample.config Sample.online
                               "example.com" Sample.only_wellKnown Sample.fresh))).
  { vm_compute. do 2 right. left. reflexivity. }
  split; [exact Hin|].
  destruct (default_patterns_store_keys Sample.platform Sample.config Sample.online
              "example.com" Sample.only_wellKnown Sample.fresh) as (H & _).
  - reflexivity.
  - reflexivity.
  - exact (H _ _ _ Hin).
Defined.

Lemma version_is_stripped_witness :
  normalize Sample.platform "example.com+5" = Normal "example.com"%string.
Proof.
  destruct (version_is_stripped Sample.platform "example.com+5" "example.com" "5")
    as [_ H].
  - vm_compute. reflexivity.
  - apply H.
    + discriminate.
    + vm_compute. reflexivity.
    + vm_compute. reflexivity.
Defined.

Lemma wellknown_record_is_read_witness :
  parseWellknownDatRecord "example.com"
    ("dat://" +:+ Sample.key_of "b" +:+ String newline ("TTL=" +:+ "600"))
    DAT_PROTOCOL_REGEX "dat" Sample.fresh
  = (Normal {| key := Str (Sample.key_of "b");
               ttl := limit_ttl (Num (Integer (to_number "600"))) |},
     Sample.fresh, []).
Proof.
  destruct (wellknown_record_is_read "example.com" "dat" Sample.fresh (Sample.key_of "b"))
    as [_ H].
  - vm_compute. reflexivity.
  - apply (H "TTL="%string "600"%string).
    + right. reflexivity.
    + discriminate.
    + vm_compute. reflexivity.
Defined.

Lemma malformed_ttl_line_is_not_fatal_witness :
  outcome (parseWellknownDatRecord "example.com"
             ("dat://" +:+ Sample.key_of "b" +:+ String newline "ttl=soon")
             DAT_PROTOCOL_REGEX "dat" Sample.fresh)
  = Normal {| key := Str (Sample.key_of "b"); ttl := 3600 |}.
Proof.
  destruct (malformed_ttl_line_is_not_fatal "example.com"
              ("dat://" +:+ Sample.key_of "b" +:+ String newline "ttl=soon")
              DAT_PROTOCOL_REGEX "dat" Sample.fresh
              {| index := 0; matched := "dat://" +:+ Sample.key_of "b";
                 capture1 := Some (Sample.key_of "b"); after := [] |})
    as (Ho & _).
  - discriminate.
  - vm_compute. reflexivity.
  - rewrite Ho. vm_compute. reflexivity.
Defined.

Lemma txt_answer_is_read_witness :
  parseDnsOverHttpsRecord Sample.platform_one "example.com"
    (Sample.json_text Sample.one_key) DAT_TXT_REGEX Sample.fresh
  = (Normal {| key := Str (Sample.key_of "c");
               ttl := limit_ttl (assoc "TTL" Sample.quoted_answer) |},
     Sample.fresh, []).
Proof.
  apply (txt_answer_is_read Sample.platform_one "example.com"
           (Sample.json_text Sample.one_key) Sample.fresh Sample.one_key
           [Sample.txt_answer "v=spf1 -all" 300] [] Sample.quoted_answer
           true (Sample.key_of "c") (String quote "")).
  - vm_compute. reflexivity.
  - reflexivity.
  - vm_compute. reflexivity.
  - reflexivity.
  - vm_compute. reflexivity.
  - vm_compute. reflexivity.
Defined.

Lemma fqdn_is_queried_with_a_dot_witness :
  exists q,
    (q = "example.com"%string \/
     (endsWith "example.com" "." = false /\ q = "example.com" +:+ ".")) /\
    endsWith q "." = true /\
    fetchDnsOverHttpsRecord Sample.online "example.com" "dns.google" 443 "/resolve"
      Sample.fresh
    = (Normal (https_get Sample.online
                 {| host := "dns.google"; port := Some 443; path := "/resolve";
                    query := [("name", q); ("type", "TXT")]%string;
                    accept := Some "application/dns-json"%string;
                    timeout := 2000 |}),
       Sample.fresh,
       [DohGet {| host := "dns.google"; port := Some 443; path := "/resolve";
                  query := [("name", q); ("type", "TXT")]%string;
                  accept := Some "application/dns-json"%string;
                  timeout := 2000 |}]).
Proof.
  apply (fqdn_is_queried_with_a_dot Sample.online "example.com" "dns.google" 443 "/resolve"
           Sample.fresh).
  vm_compute. reflexivity.
Defined.

Lemma provider_is_given_whole_or_not_at_all_witness :
  In (dnsHost (createDatDNS Sample.host_only 0).1,
      dnsPort (createDatDNS Sample.host_only 0).1,
      dnsPath (createDatDNS Sample.host_only 0).1) DEFAULT_DNS_PROVIDERS /\
  DEFAULT_DNS_PROVIDERS !! 0%nat
  = Some (dnsHost (createDatDNS Sample.host_only 0).1,
          dnsPort (createDatDNS Sample.host_only 0).1,
          dnsPath (createDatDNS Sample.host_only 0).1).
Proof.
  destruct (provider_is_given_whole_or_not_at_all Sample.host_only 0) as [_ H].
  - cbn. lia.
  - apply H. right. right. left. reflexivity.
Defined.

Lemma failed_probe_is_announced_witness :
  exists err,
    List.filter is_Emit
      (effects (wellKnown_lookup Sample.config Sample.offline "example.com" Sample.fresh))
    = [Emit (Failed "well-known" "example.com" err)].
Proof.
  destruct (failed_probe_is_announced Sample.platform Sample.config Sample.offline
              "example.com" Sample.fresh) as [H _].
  apply (H (Error "DNS record not found")).
  vm_compute. reflexivity.
Defined.

Lemma published_record_is_resolved_witness :
  outcome (resolveName Sample.platform Sample.config Sample.short_lived
             "example.com" no_options Sample.fresh)
  = Normal (Str (Sample.key_of "b")) /\
  cache_after (resolveName Sample.platform Sample.config Sample.short_lived
                 "example.com" no_options Sample.fresh)
  = Sample.fresh.
Proof.
  destruct (published_record_is_resolved Sample.platform Sample.config Sample.short_lived
              "example.com" no_options Sample.fresh "example.com" (Sample.key_of "b")
              (String newline "TTL=0") 0)
    as (Ho & Hc & _).
  - vm_compute. reflexivity.
  - vm_compute. reflexivity.
  - vm_compute. reflexivity.
  - reflexivity.
  - intros _. eexists. vm_compute. reflexivity.
  - reflexivity.
  - vm_compute. reflexivity.
  - vm_compute. reflexivity.
  - vm_compute. reflexivity.
  - right. exists "TTL="%string, "0"%string.
    split; [right; reflexivity|]. split; [discriminate|].
    split; [reflexivity|]. split; reflexivity.
  - split; [exact Ho|exact Hc].
Defined.

Lemma published_answer_is_resolved_witness :
  outcome (resolveName Sample.platform_one Sample.config Sample.answering
             "example.com" no_options Sample.fresh)
  = Normal (Str (Sample.key_of "c")) /\
  existsb is_WellKnownGet
    (effects (resolveName Sample.platform_one Sample.config Sample.answering
                "example.com" no_options Sample.fresh)) = false.
Proof.
  destruct (published_answer_is_resolved Sample.platform_one Sample.config Sample.answering
              "example.com" no_options Sample.fresh "example.com" Sample.one_key
              [Sample.txt_answer "v=spf1 -all" 300] [] Sample.quoted_answer
              true (Sample.key_of "c") (String quote ""))
    as (Ho & _ & _ & Hw).
  - vm_compute. reflexivity.
  - vm_compute. reflexivity.
  - vm_compute. reflexivity.
  - reflexivity.
  - vm_compute. reflexivity.
  - reflexivity.
  - vm_compute. reflexivity.
  - reflexivity.
  - vm_compute. reflexivity.
  - reflexivity.
  - vm_compute. reflexivity.
  - vm_compute. reflexivity.
  - split; [exact Ho|exact Hw].
Defined.

Lemma other_names_are_left_alone_witness :
  existsb is_CacheSet
    (effects (resolveName Sample.platform Sample.config Sample.offline
                "other.org" no_options Sample.warm)) = true /\
  MemoryCache.entries
    (cache_after (resolveName Sample.platform Sample.config Sample.offline
                    "other.org" no_options Sample.warm)) !! "example.com"%string
  = MemoryCache.entries Sample.warm !! "example.com"%string.
Proof.
  split.
  - vm_compute. reflexivity.
  - destruct (other_names_are_left_alone Sample.platform Sample.config Sample.offline
                "other.org" no_options Sample.warm "other.org" "example.com") as [H _].
    + vm_compute. reflexivity.
    + discriminate.
    + exact H.
Defined.

Lemma lone_doh_failure_is_stored_witness :
  outcome (resolveName Sample.platform Sample.config_persistent Sample.offline
             "example.com" Sample.only_DoH Sample.fresh) = Normal Undefined /\
  List.filter (fun e => is_CacheSet e || is_PersistWrite e || is_PersistRead e)
              (effects (resolveName Sample.platform Sample.config_persistent Sample.offline
                          "example.com" Sample.only_DoH Sample.fresh))
  = [CacheSet "example.com" Undefined None; PersistWrite "example.com" Undefined None].
Proof.
  destruct (lone_doh_failure_is_stored Sample.platform Sample.config_persistent
              Sample.offline "example.com" Sample.only_DoH Sample.fresh "example.com"
              (Error "Invalid dns-over-https record, must provide json"))
    as (Ho & Hw & _).
  - vm_compute. reflexivity.
  - vm_compute. reflexivity.
  - vm_compute. reflexivity.
  - reflexivity.
  - reflexivity.
  - vm_compute. reflexivity.
  - split; [exact Ho|exact Hw].
Defined.
